(** * The multiple-shooting SQP solver of ocs2_sqp

    A shallow embedding of [MultipleShootingSolver.cpp]: the filter line
    search [takeStep], the QP hand-off [getOCPSolution], the assembly of the
    primal solution [setPrimalSolution], the trajectory initialisation, the
    performance bookkeeping around the parallel section, and the outer loop
    [runImpl].

    Scalars are kept abstract behind the interface [Scalar]: the C++ code is
    written against the typedef [scalar_t] (a [double]) and uses addition,
    subtraction, multiplication, [std::sqrt], [std::abs] and the comparisons
    [<] and [>] only.  Two instances are given: IEEE binary64 (Rocq's
    primitive floats), which is what the program runs on, and exact integer
    arithmetic, on which the algebraic laws hold. *)

From Stdlib Require Import ZArith Floats.PrimFloat String.
From stdpp Require Import base list.

Local Open Scope list_scope.

(** ** Scalars *)

Class Scalar : Type := {
  scalar_t : Type;
  szero : scalar_t;
  sone : scalar_t;
  sadd : scalar_t -> scalar_t -> scalar_t;
  ssub : scalar_t -> scalar_t -> scalar_t;
  smul : scalar_t -> scalar_t -> scalar_t;
  ssqrt : scalar_t -> scalar_t;
  sabs : scalar_t -> scalar_t;
  sltb : scalar_t -> scalar_t -> bool
}.

Declare Scope scalar_scope.
Delimit Scope scalar_scope with sc.
Bind Scope scalar_scope with scalar_t.
Infix "+" := sadd : scalar_scope.
Infix "-" := ssub : scalar_scope.
Infix "*" := smul : scalar_scope.
Infix "<?" := sltb : scalar_scope.
(** [a >? b] is the C++ [a > b]. *)
Notation "a >? b" := (sltb b a) (at level 70, no associativity) : scalar_scope.

(** The propositional readings of the comparisons.  [sle a b] is "not
    greater": on a total order it is [a <= b]; the program itself never
    evaluates [<=]. *)
Definition slt `{Scalar} (a b : scalar_t) : Prop := sltb a b = true.
Definition sle `{Scalar} (a b : scalar_t) : Prop := sltb b a = false.
Infix "<" := slt : scalar_scope.
Infix "<=" := sle : scalar_scope.

#[export] Instance scalar_inhabited `{Scalar} : Inhabited scalar_t :=
  populate szero.

(** IEEE binary64, the [double] behind [scalar_t]. *)
Definition float_scalar : Scalar := {|
  scalar_t := float;
  szero := 0%float;
  sone := 1%float;
  sadd := PrimFloat.add;
  ssub := PrimFloat.sub;
  smul := PrimFloat.mul;
  ssqrt := PrimFloat.sqrt;
  sabs := PrimFloat.abs;
  sltb := PrimFloat.ltb
|}.

(** Exact integer arithmetic ([Z.sqrt] is the integer square root). *)
Definition Z_scalar : Scalar := {|
  scalar_t := Z;
  szero := 0%Z;
  sone := 1%Z;
  sadd := Z.add;
  ssub := Z.sub;
  smul := Z.mul;
  ssqrt := Z.sqrt;
  sabs := Z.abs;
  sltb := Z.ltb
|}.

(** ** Dense vectors and matrices (Eigen's [vector_t], [matrix_t])

    A vector is the list of its coefficients, a matrix the list of its rows.
    Eigen requires matching sizes for coefficient-wise operations and
    products (a mismatch is an assertion failure, undefined in release
    builds); the model truncates to the shorter operand there, and the
    theorems that depend on sizes carry them as hypotheses. *)

Abbreviation vector_t := (list scalar_t).
Abbreviation matrix_t := (list (list scalar_t)).
Abbreviation scalar_array_t := (list scalar_t).
Abbreviation vector_array_t := (list (list scalar_t)).
Abbreviation matrix_array_t := (list (list (list scalar_t))).

Section LinearAlgebra.
Context `{Scalar}.

Definition vadd (a b : vector_t) : vector_t := zip_with sadd a b.
Definition vsub (a b : vector_t) : vector_t := zip_with ssub a b.
Definition vscale (alpha : scalar_t) (v : vector_t) : vector_t :=
  map (smul alpha) v.

(** [v.squaredNorm()] *)
Definition squaredNorm (v : vector_t) : scalar_t :=
  fold_left (fun acc a => acc + a * a)%sc v szero.

Definition dot (a b : vector_t) : scalar_t :=
  fold_left sadd (zip_with smul a b) szero.

(** [M * v] *)
Definition mv (M : matrix_t) (v : vector_t) : vector_t :=
  map (fun row => dot row v) M.

Definition cols (M : matrix_t) : nat := length (hd [] M).

(** [A * B]: row [i] of the product is [sum_k A(i,k) * row_k(B)]. *)
Definition mm (A B : matrix_t) : matrix_t :=
  map (fun row =>
         fold_left (fun acc ab => vadd acc (vscale (fst ab) (snd ab)))
                   (zip row B) (replicate (cols B) szero)) A.

Definition madd (A B : matrix_t) : matrix_t := zip_with vadd A B.

(** [v.size()] *)
Definition vsize (v : vector_t) : nat := length v.
End LinearAlgebra.

(** ** Data model *)

(** Modelled from the spec: the declaration of [AnnotatedTime] is not part of
    the sources at hand; a grid node carries its time and an event tag, of
    which the solver only ever tests [PreEvent]. *)
Inductive Event : Type := Interior | PreEvent.

Definition Event_eqb (a b : Event) : bool :=
  match a, b with
  | Interior, Interior | PreEvent, PreEvent => true
  | _, _ => false
  end.

Section DataModel.
Context `{Scalar}.

Record AnnotatedTime : Type := {
  time : scalar_t;
  event : Event
}.

Definition isPreEvent (t : AnnotatedTime) : bool :=
  Event_eqb (event t) PreEvent.

(** Affine model [f + dfdx * dx + dfdu * du]. *)
Record VectorFunctionLinearApproximation : Type := {
  f : vector_t;
  dfdx : matrix_t;
  dfdu : matrix_t
}.

(** [VectorFunctionLinearApproximation::Zero(0, nx, 0)]: no rows. *)
Definition VectorFunctionLinearApproximation_Zero0
  : VectorFunctionLinearApproximation :=
  {| f := []; dfdx := []; dfdu := [] |}.

(** Second-order model of the cost. *)
Record ScalarFunctionQuadraticApproximation : Type := {
  qf : scalar_t;
  qdfdx : vector_t;
  qdfdu : vector_t;
  dfdxx : matrix_t;
  dfduu : matrix_t;
  dfdux : matrix_t
}.

Definition ScalarFunctionQuadraticApproximation_empty
  : ScalarFunctionQuadraticApproximation :=
  {| qf := szero; qdfdx := []; qdfdu := [];
     dfdxx := []; dfduu := []; dfdux := [] |}.

(** Modelled from the spec: [PerformanceIndex] is declared outside the
    sources at hand; it is a record of accumulators, default-constructed
    to zero and "additive across stages and threads". *)
Record PerformanceIndex : Type := {
  merit : scalar_t;
  totalCost : scalar_t;
  stateEqConstraintISE : scalar_t;
  stateInputEqConstraintISE : scalar_t;
  inequalityConstraintISE : scalar_t;
  inequalityConstraintPenalty : scalar_t
}.

Definition PerformanceIndex_zero : PerformanceIndex :=
  {| merit := szero; totalCost := szero; stateEqConstraintISE := szero;
     stateInputEqConstraintISE := szero; inequalityConstraintISE := szero;
     inequalityConstraintPenalty := szero |}.

(** [lhs += rhs] *)
Definition PerformanceIndex_add (a b : PerformanceIndex) : PerformanceIndex :=
  {| merit := (merit a + merit b)%sc;
     totalCost := (totalCost a + totalCost b)%sc;
     stateEqConstraintISE :=
       (stateEqConstraintISE a + stateEqConstraintISE b)%sc;
     stateInputEqConstraintISE :=
       (stateInputEqConstraintISE a + stateInputEqConstraintISE b)%sc;
     inequalityConstraintISE :=
       (inequalityConstraintISE a + inequalityConstraintISE b)%sc;
     inequalityConstraintPenalty :=
       (inequalityConstraintPenalty a + inequalityConstraintPenalty b)%sc |}.

(** The options of [Settings] the solver file reads (the print switches
    only drive diagnostics on [std::cerr] and are left out, except
    [printSolverStatus], which is handed to the QP back-end). *)
Record Settings : Type := {
  nThreads : Z;
  sqpIteration : Z;
  dt : scalar_t;
  projectStateInputEqualityConstraints : bool;
  useFeedbackPolicy : bool;
  printSolverStatus : bool;
  alpha_decay : scalar_t;
  alpha_min : scalar_t;
  gamma_c : scalar_t;
  g_max : scalar_t;
  g_min : scalar_t;
  costTol : scalar_t;
  deltaTol : scalar_t
}.

(** The two controllers [setPrimalSolution] builds; both are arrays over
    the time base of the primal solution. *)
Inductive ControllerBase : Type :=
| LinearController (timeStamp : scalar_array_t) (bias : vector_array_t)
                   (gain : matrix_array_t)
| FeedforwardController (timeStamp : scalar_array_t)
                        (uff : vector_array_t).

(** Modelled from the spec: the mode schedule "exposes [eventTimes] and a
    [modeSchedule] value snapshot"; its declaration is outside the sources
    at hand. *)
Record ModeSchedule : Type := {
  eventTimes : scalar_array_t;
  modeSequence : list nat
}.

Record PrimalSolution : Type := {
  timeTrajectory_ : scalar_array_t;
  stateTrajectory_ : vector_array_t;
  inputTrajectory_ : vector_array_t;
  controllerPtr_ : option ControllerBase;
  modeSchedule_ : ModeSchedule
}.

(** [PrimalSolution()] *)
Definition PrimalSolution_default : PrimalSolution :=
  {| timeTrajectory_ := []; stateTrajectory_ := []; inputTrajectory_ := [];
     controllerPtr_ := None;
     modeSchedule_ := {| eventTimes := []; modeSequence := [] |} |}.
End DataModel.

(** ** External collaborators

    The solver file calls into code that lives elsewhere in the repository:
    the transcription helpers of [multiple_shooting::], the helpers of the
    time discretisation, the interpolation and controller classes, the
    operating-trajectories provider and the HPIPM interface.  They are taken
    as interfaces, one class per collaborator. *)

Section Interfaces.
Context `{Scalar}.

(** What the solver reads off the result of a transcription helper.  The
    event and terminal helpers return structures with fewer members; the
    members absent there are never read by the solver. *)
Record Transcription : Type := {
  performance : PerformanceIndex;
  dynamics : VectorFunctionLinearApproximation;
  cost : ScalarFunctionQuadraticApproximation;
  constraints : VectorFunctionLinearApproximation;
  constraintsProjection : VectorFunctionLinearApproximation
}.

(** The helpers of [MultipleShootingTranscription.h].  The first argument
    is the worker whose cloned providers are used; the discretizers, the
    penalty and the terminal cost are fixed at construction. *)
Class Transcriber : Type := {
  setupIntermediateNode :
    nat -> bool -> scalar_t -> scalar_t -> vector_t -> vector_t -> vector_t ->
    Transcription;
  setupEventNode : nat -> scalar_t -> vector_t -> vector_t -> Transcription;
  setupTerminalNode : nat -> scalar_t -> vector_t -> Transcription;
  computeIntermediatePerformance :
    nat -> scalar_t -> scalar_t -> vector_t -> vector_t -> vector_t ->
    PerformanceIndex;
  computeEventPerformance :
    nat -> scalar_t -> vector_t -> vector_t -> PerformanceIndex;
  computeTerminalPerformance : nat -> scalar_t -> vector_t -> PerformanceIndex
}.

(** The helpers of [TimeDiscretization.h]. *)
Class TimeGrid : Type := {
  timeDiscretizationWithEvents :
    scalar_t -> scalar_t -> scalar_t -> scalar_array_t -> list AnnotatedTime;
  getInterpolationTime : AnnotatedTime -> scalar_t;
  getIntervalStart : AnnotatedTime -> scalar_t;
  getIntervalEnd : AnnotatedTime -> scalar_t;
  getIntervalDuration : AnnotatedTime -> AnnotatedTime -> scalar_t
}.

(** [LinearInterpolation::interpolate], [ControllerBase::computeInput] and
    [SystemOperatingTrajectoriesBase::getSystemOperatingTrajectories] (of
    which only the input array is read). *)
Class Warmstart : Type := {
  interpolate : scalar_t -> scalar_array_t -> vector_array_t -> vector_t;
  computeInput : ControllerBase -> scalar_t -> vector_t -> vector_t;
  getSystemOperatingTrajectories :
    vector_t -> scalar_t -> scalar_t -> vector_array_t
}.

(** Modelled from the spec: the status enumeration of HPIPM is not part of
    the sources at hand; the solver only distinguishes [SUCCESS] from the
    rest. *)
Inductive hpipm_status : Type :=
| SUCCESS
| NON_SUCCESS (code : nat).

Definition hpipm_status_is_success (st : hpipm_status) : bool :=
  match st with SUCCESS => true | NON_SUCCESS _ => false end.

(** The result of [HpipmInterface::solve]: the status and the two output
    arguments. *)
Record QpResult : Type := {
  status : hpipm_status;
  deltaXSol : vector_array_t;
  deltaUSol : vector_array_t
}.

(** [HpipmInterface]: an object with internal state [HpipmInterface_t];
    a null constraints pointer is [None]. *)
Class HpipmInterface : Type := {
  HpipmInterface_t : Type;
  OcpSize : Type;
  extractSizesFromProblem :
    list VectorFunctionLinearApproximation ->
    list ScalarFunctionQuadraticApproximation ->
    option (list VectorFunctionLinearApproximation) -> OcpSize;
  resize : OcpSize -> HpipmInterface_t -> HpipmInterface_t;
  solve :
    vector_t -> list VectorFunctionLinearApproximation ->
    list ScalarFunctionQuadraticApproximation ->
    option (list VectorFunctionLinearApproximation) -> bool ->
    HpipmInterface_t -> HpipmInterface_t * QpResult;
  getRiccatiFeedback :
    VectorFunctionLinearApproximation -> ScalarFunctionQuadraticApproximation ->
    HpipmInterface_t -> matrix_array_t
}.
End Interfaces.

#[export] Instance AnnotatedTime_inhabited `{Scalar} : Inhabited AnnotatedTime :=
  populate {| time := szero; event := Interior |}.
#[export] Instance VectorFunctionLinearApproximation_inhabited `{Scalar}
  : Inhabited VectorFunctionLinearApproximation :=
  populate VectorFunctionLinearApproximation_Zero0.
#[export] Instance ScalarFunctionQuadraticApproximation_inhabited `{Scalar}
  : Inhabited ScalarFunctionQuadraticApproximation :=
  populate ScalarFunctionQuadraticApproximation_empty.
#[export] Instance PerformanceIndex_inhabited `{Scalar}
  : Inhabited PerformanceIndex :=
  populate PerformanceIndex_zero.

(** C++ exceptions: a call either returns or throws [std::runtime_error];
    a loop that is cut off by the fuel of the model has [Diverged]. *)
Inductive outcome (A : Type) : Type :=
| Returned (a : A)
| Thrown (what : string)
| Diverged.
Arguments Returned {A} a.
Arguments Thrown {A} what.
Arguments Diverged {A}.

(** ** The solver *)

Section Solver.
Context `{Scalar} `{!Transcriber} `{!TimeGrid} `{!Warmstart} `{!HpipmInterface}.

(** The members of [MultipleShootingSolver] the methods below read or
    write.  [constraintPtr_] records whether the constraint provider is
    present (every worker holds a clone of the same pointer, null or not);
    [modeSchedule] stands for [SolverBase::getModeSchedule()]; the
    benchmark timers are left out. *)
Record MultipleShootingSolver : Type := {
  settings_ : Settings;
  hpipmInterface_ : HpipmInterface_t;
  constraintPtr_ : bool;
  modeSchedule : ModeSchedule;
  primalSolution_ : PrimalSolution;
  performanceIndeces_ : list PerformanceIndex;
  totalNumIterations_ : nat;
  dynamics_ : list VectorFunctionLinearApproximation;
  cost_ : list ScalarFunctionQuadraticApproximation;
  constraints_ : list VectorFunctionLinearApproximation;
  constraintsProjection_ : list VectorFunctionLinearApproximation
}.

Definition set_hpipmInterface_ (h : HpipmInterface_t)
           (s : MultipleShootingSolver) : MultipleShootingSolver :=
  {| settings_ := settings_ s; hpipmInterface_ := h;
     constraintPtr_ := constraintPtr_ s; modeSchedule := modeSchedule s;
     primalSolution_ := primalSolution_ s;
     performanceIndeces_ := performanceIndeces_ s;
     totalNumIterations_ := totalNumIterations_ s;
     dynamics_ := dynamics_ s; cost_ := cost_ s;
     constraints_ := constraints_ s;
     constraintsProjection_ := constraintsProjection_ s |}.

Definition set_primalSolution_ (p : PrimalSolution)
           (s : MultipleShootingSolver) : MultipleShootingSolver :=
  {| settings_ := settings_ s; hpipmInterface_ := hpipmInterface_ s;
     constraintPtr_ := constraintPtr_ s; modeSchedule := modeSchedule s;
     primalSolution_ := p;
     performanceIndeces_ := performanceIndeces_ s;
     totalNumIterations_ := totalNumIterations_ s;
     dynamics_ := dynamics_ s; cost_ := cost_ s;
     constraints_ := constraints_ s;
     constraintsProjection_ := constraintsProjection_ s |}.

Definition set_performanceIndeces_ (l : list PerformanceIndex)
           (s : MultipleShootingSolver) : MultipleShootingSolver :=
  {| settings_ := settings_ s; hpipmInterface_ := hpipmInterface_ s;
     constraintPtr_ := constraintPtr_ s; modeSchedule := modeSchedule s;
     primalSolution_ := primalSolution_ s;
     performanceIndeces_ := l;
     totalNumIterations_ := totalNumIterations_ s;
     dynamics_ := dynamics_ s; cost_ := cost_ s;
     constraints_ := constraints_ s;
     constraintsProjection_ := constraintsProjection_ s |}.

Definition set_totalNumIterations_ (n : nat)
           (s : MultipleShootingSolver) : MultipleShootingSolver :=
  {| settings_ := settings_ s; hpipmInterface_ := hpipmInterface_ s;
     constraintPtr_ := constraintPtr_ s; modeSchedule := modeSchedule s;
     primalSolution_ := primalSolution_ s;
     performanceIndeces_ := performanceIndeces_ s;
     totalNumIterations_ := n;
     dynamics_ := dynamics_ s; cost_ := cost_ s;
     constraints_ := constraints_ s;
     constraintsProjection_ := constraintsProjection_ s |}.

Definition set_constraintsProjection_
           (l : list VectorFunctionLinearApproximation)
           (s : MultipleShootingSolver) : MultipleShootingSolver :=
  {| settings_ := settings_ s; hpipmInterface_ := hpipmInterface_ s;
     constraintPtr_ := constraintPtr_ s; modeSchedule := modeSchedule s;
     primalSolution_ := primalSolution_ s;
     performanceIndeces_ := performanceIndeces_ s;
     totalNumIterations_ := totalNumIterations_ s;
     dynamics_ := dynamics_ s; cost_ := cost_ s;
     constraints_ := constraints_ s;
     constraintsProjection_ := l |}.

(** The four arrays [setupQuadraticSubproblem] fills. *)
Definition set_subproblem
           (d : list VectorFunctionLinearApproximation)
           (c : list ScalarFunctionQuadraticApproximation)
           (g p : list VectorFunctionLinearApproximation)
           (s : MultipleShootingSolver) : MultipleShootingSolver :=
  {| settings_ := settings_ s; hpipmInterface_ := hpipmInterface_ s;
     constraintPtr_ := constraintPtr_ s; modeSchedule := modeSchedule s;
     primalSolution_ := primalSolution_ s;
     performanceIndeces_ := performanceIndeces_ s;
     totalNumIterations_ := totalNumIterations_ s;
     dynamics_ := d; cost_ := c; constraints_ := g;
     constraintsProjection_ := p |}.

(** [v.back()] and [v.front()]; on an empty array the C++ is undefined,
    the model yields the default-constructed element. *)
Definition back {A} `{Inhabited A} (l : list A) : A := default inhabitant (last l).
Definition front {A} `{Inhabited A} (l : list A) : A := l !!! 0.

(** *** [initializeInputTrajectory] *)
Definition initializeInputTrajectory (s : MultipleShootingSolver)
           (timeDiscretization : list AnnotatedTime)
           (stateTrajectory : vector_array_t) : vector_array_t :=
  let N := (length timeDiscretization - 1)%nat in
  let interpolateTill :=
    if (0 <? totalNumIterations_ s)%nat
    then back (timeTrajectory_ (primalSolution_ s))
    else time (front timeDiscretization) in
  (fun i =>
     let ti := getInterpolationTime (timeDiscretization !!! i) in
     if (ti <? interpolateTill)%sc then
       (* Interpolate previous input trajectory *)
       match controllerPtr_ (primalSolution_ s) with
       | Some c => computeInput c ti (stateTrajectory !!! i)
       | None => [] (* null controller: undefined in the source *)
       end
     else
       (* No previous control at this time-point -> operating trajectory *)
       let tNext := getIntervalEnd (timeDiscretization !!! (i + 1)%nat) in
       front (getSystemOperatingTrajectories (stateTrajectory !!! i) ti tNext))
    <$> seq 0 N.

(** *** [initializeStateTrajectory] *)
Definition initializeStateTrajectory (s : MultipleShootingSolver)
           (initState : vector_t)
           (timeDiscretization : list AnnotatedTime) : vector_array_t :=
  let trajectoryLength := length timeDiscretization in
  if (totalNumIterations_ s =? 0)%nat then (* first iteration *)
    replicate trajectoryLength initState
  else (* interpolation of previous solution *)
    initState ::
    ((fun i =>
        let ti := getInterpolationTime (timeDiscretization !!! i) in
        interpolate ti (timeTrajectory_ (primalSolution_ s))
                    (stateTrajectory_ (primalSolution_ s)))
       <$> seq 1 (trajectoryLength - 1)).

(** *** [getOCPSolution] *)

(** "remap the tilde delta u to real delta u" *)
Definition remapDeltaU (projection : list VectorFunctionLinearApproximation)
           (deltaXSol deltaUSol : vector_array_t) : vector_array_t :=
  imap (fun i deltaU_i =>
          let P := projection !!! i in
          if (0 <? vsize (f P))%nat then
            let tmp := mv (dfdu P) deltaU_i in
            vadd (vadd tmp (f P)) (mv (dfdx P) (deltaXSol !!! i))
          else deltaU_i)
       deltaUSol.

(** "Solve the QP": the two calls of [resize] and [solve]. *)
Definition solveQP (s : MultipleShootingSolver) (delta_x0 : vector_t)
  : HpipmInterface_t * QpResult :=
  if constraintPtr_ s
     && negb (projectStateInputEqualityConstraints (settings_ s)) then
    let h :=
      resize (extractSizesFromProblem (dynamics_ s) (cost_ s)
                                      (Some (constraints_ s)))
             (hpipmInterface_ s) in
    solve delta_x0 (dynamics_ s) (cost_ s) (Some (constraints_ s))
          (printSolverStatus (settings_ s)) h
  else (* without constraints, or when using projection *)
    let h :=
      resize (extractSizesFromProblem (dynamics_ s) (cost_ s) None)
             (hpipmInterface_ s) in
    solve delta_x0 (dynamics_ s) (cost_ s) None
          (printSolverStatus (settings_ s)) h.

Definition getOCPSolution (s : MultipleShootingSolver) (delta_x0 : vector_t)
  : MultipleShootingSolver * outcome (vector_array_t * vector_array_t) :=
  let '(h, qp) := solveQP s delta_x0 in
  let s' := set_hpipmInterface_ h s in
  if negb (hpipm_status_is_success (status qp)) then
    (s', Thrown "[MultipleShootingSolver] Failed to solve QP")
  else
    (* remap the tilde delta u to real delta u *)
    let deltaUSol' :=
      if projectStateInputEqualityConstraints (settings_ s)
      then remapDeltaU (constraintsProjection_ s) (deltaXSol qp) (deltaUSol qp)
      else deltaUSol qp in
    (s', Returned (deltaXSol qp, deltaUSol')).

(** *** [setPrimalSolution] *)

Definition set_dfdx (m : matrix_t) (P : VectorFunctionLinearApproximation)
  : VectorFunctionLinearApproximation :=
  {| f := f P; dfdx := m; dfdu := dfdu P |}.

(** One pass of the loop that computes the feedback terms; the state of
    the loop is [uff], [controllerGain] and the member
    [constraintsProjection_], whose [dfdx] is moved out of ("Steal!"). *)
Definition feedbackStage (times : list AnnotatedTime) (x u : vector_array_t)
           (KMatrices : matrix_array_t) (i : nat)
           (acc : vector_array_t * matrix_array_t
                  * list VectorFunctionLinearApproximation)
  : vector_array_t * matrix_array_t * list VectorFunctionLinearApproximation :=
  let '(uff, controllerGain, projection) := acc in
  if isPreEvent (times !!! i) && (0 <? length uff)%nat then
    (* Correct for missing inputs at PreEvents *)
    (uff ++ [back uff], controllerGain ++ [back controllerGain], projection)
  else
    (* uff = u'(t) - K x'(t) *)
    let P := projection !!! i in
    let '(K, projection') :=
      if (0 <? vsize (f P))%nat
      then (madd (dfdx P) (mm (dfdu P) (KMatrices !!! i)),
            <[i := set_dfdx [] P]> projection)
      else (KMatrices !!! i, projection) in
    (uff ++ [vsub (u !!! i) (mv K (x !!! i))], controllerGain ++ [K],
     projection').

Definition computeFeedback (s : MultipleShootingSolver)
           (times : list AnnotatedTime) (x u : vector_array_t)
  : vector_array_t * matrix_array_t * list VectorFunctionLinearApproximation :=
  let KMatrices :=
    getRiccatiFeedback (front (dynamics_ s)) (front (cost_ s))
                       (hpipmInterface_ s) in
  let '(uff, controllerGain, projection) :=
    fold_left (fun acc i => feedbackStage times x u KMatrices i acc)
              (seq 0 (length times - 1)) ([], [], constraintsProjection_ s) in
  (* Copy last one to get correct length *)
  (uff ++ [back uff], controllerGain ++ [back controllerGain], projection).

(** One pass of the loop that fills [timeTrajectory_] and corrects the
    inputs at PreEvents. *)
Definition assembleStep (times : list AnnotatedTime)
           (acc : scalar_array_t * vector_array_t) (i : nat)
  : scalar_array_t * vector_array_t :=
  let '(timeTrajectory, inputs) := acc in
  let timeTrajectory' := timeTrajectory ++ [time (times !!! i)] in
  if isPreEvent (times !!! i) && (0 <? i)%nat
  then (timeTrajectory', <[i := inputs !!! (i - 1)%nat]> inputs)
  else (timeTrajectory', inputs).

Definition assembleTrajectories (times : list AnnotatedTime)
           (inputTrajectory : vector_array_t)
  : scalar_array_t * vector_array_t :=
  fold_left (assembleStep times) (seq 0 (length times)) ([], inputTrajectory).

Definition setPrimalSolution (s : MultipleShootingSolver)
           (times : list AnnotatedTime) (x u : vector_array_t)
  : MultipleShootingSolver :=
  (* Compute feedback, before x and u are moved to primal solution *)
  let '(uff, controllerGain, projection) :=
    if useFeedbackPolicy (settings_ s)
    then computeFeedback s times x u
    else ([], [], constraintsProjection_ s) in
  (* Construct nominal state and inputs *)
  let u' := u ++ [back u] in
  let '(timeTrajectory, inputTrajectory) := assembleTrajectories times u' in
  let controller :=
    if useFeedbackPolicy (settings_ s)
    then LinearController timeTrajectory uff controllerGain
    else FeedforwardController timeTrajectory inputTrajectory in
  set_primalSolution_
    {| timeTrajectory_ := timeTrajectory;
       stateTrajectory_ := x;
       inputTrajectory_ := inputTrajectory;
       controllerPtr_ := Some controller;
       modeSchedule_ := modeSchedule s |}
    (set_constraintsProjection_ projection s).

(** *** The parallel section

    [runParallel] starts the same task on every worker; the task draws
    stage indices from a shared atomic counter until they are exhausted.
    Every stage [0..N] is therefore run by exactly one worker, and a worker
    runs its stages in increasing order.  Which worker runs which stage is
    not determined by the program: it is the parameter [sched].  Worker
    [w] accumulates the performance of its own stages into a local index
    and adds that to [performance[w]]. *)
Definition parallelAccumulate (nThreads : Z) (sched : nat -> nat)
           (numStages : nat) (task : nat -> nat -> PerformanceIndex)
  : list PerformanceIndex :=
  (fun workerId =>
     let workerPerformance :=
       fold_left (fun acc i => PerformanceIndex_add acc (task workerId i))
                 (filter (fun i => sched i = workerId) (seq 0 numStages))
                 PerformanceIndex_zero in
     PerformanceIndex_add PerformanceIndex_zero workerPerformance)
    <$> seq 0 (Z.to_nat nThreads).

Definition add_stateEqConstraintISE (d : scalar_t) (p : PerformanceIndex)
  : PerformanceIndex :=
  {| merit := merit p; totalCost := totalCost p;
     stateEqConstraintISE := (stateEqConstraintISE p + d)%sc;
     stateInputEqConstraintISE := stateInputEqConstraintISE p;
     inequalityConstraintISE := inequalityConstraintISE p;
     inequalityConstraintPenalty := inequalityConstraintPenalty p |}.

Definition set_merit (m : scalar_t) (p : PerformanceIndex) : PerformanceIndex :=
  {| merit := m; totalCost := totalCost p;
     stateEqConstraintISE := stateEqConstraintISE p;
     stateInputEqConstraintISE := stateInputEqConstraintISE p;
     inequalityConstraintISE := inequalityConstraintISE p;
     inequalityConstraintPenalty := inequalityConstraintPenalty p |}.

(** "Account for init state in performance":
    [performance.front().stateEqConstraintISE += (initState - x.front()).squaredNorm()] *)
Definition accountForInitState (initState : vector_t) (x : vector_array_t)
           (performance : list PerformanceIndex) : list PerformanceIndex :=
  match performance with
  | [] => [] (* no worker at all: undefined in the source *)
  | p :: rest =>
      add_stateEqConstraintISE (squaredNorm (vsub initState (front x))) p
      :: rest
  end.

(** "Sum performance of the threads" and set the merit. *)
Definition sumPerformance (performance : list PerformanceIndex)
  : PerformanceIndex :=
  let totalPerformance :=
    fold_left PerformanceIndex_add (tail performance) (front performance) in
  set_merit (totalCost totalPerformance
             + inequalityConstraintPenalty totalPerformance)%sc
            totalPerformance.

(** *** [setupQuadraticSubproblem] *)

(** The work of one stage [i <= N], done by worker [workerId]. *)
Definition setupStage (projection : bool) (times : list AnnotatedTime)
           (x u : vector_array_t) (N workerId i : nat) : Transcription :=
  if (i <? N)%nat then
    if isPreEvent (times !!! i) then
      (* Event node *)
      let result :=
        setupEventNode workerId (time (times !!! i)) (x !!! i)
                       (x !!! (i + 1)%nat) in
      {| performance := performance result; dynamics := dynamics result;
         cost := cost result; constraints := constraints result;
         constraintsProjection := VectorFunctionLinearApproximation_Zero0 |}
    else
      (* Normal, intermediate node *)
      let ti := getIntervalStart (times !!! i) in
      let dt := getIntervalDuration (times !!! i) (times !!! (i + 1)%nat) in
      setupIntermediateNode workerId projection ti dt (x !!! i)
                            (x !!! (i + 1)%nat) (u !!! i)
  else
    let tN := getIntervalStart (times !!! N) in
    setupTerminalNode workerId tN (x !!! N).

(** The grid is assumed non-empty ([N = time.size() - 1 >= 0]). *)
Definition setupQuadraticSubproblem (s : MultipleShootingSolver)
           (sched : nat -> nat) (times : list AnnotatedTime)
           (initState : vector_t) (x u : vector_array_t)
  : MultipleShootingSolver * PerformanceIndex :=
  let N := (length times - 1)%nat in
  let projection := projectStateInputEqualityConstraints (settings_ s) in
  let stage workerId i := setupStage projection times x u N workerId i in
  let performance :=
    parallelAccumulate (nThreads (settings_ s)) sched (N + 1)
                       (fun workerId i => performance (stage workerId i)) in
  let s' :=
    set_subproblem
      ((fun i => dynamics (stage (sched i) i)) <$> seq 0 N)
      ((fun i => cost (stage (sched i) i)) <$> seq 0 (N + 1))
      ((fun i => constraints (stage (sched i) i)) <$> seq 0 (N + 1))
      ((fun i => constraintsProjection (stage (sched i) i)) <$> seq 0 N)
      s in
  (s', sumPerformance (accountForInitState initState x performance)).

(** *** [computePerformance] *)

Definition performanceStage (times : list AnnotatedTime)
           (x u : vector_array_t) (N workerId i : nat) : PerformanceIndex :=
  if (i <? N)%nat then
    if isPreEvent (times !!! i) then
      computeEventPerformance workerId (time (times !!! i)) (x !!! i)
                              (x !!! (i + 1)%nat)
    else
      let ti := getIntervalStart (times !!! i) in
      let dt := getIntervalDuration (times !!! i) (times !!! (i + 1)%nat) in
      computeIntermediatePerformance workerId ti dt (x !!! i)
                                     (x !!! (i + 1)%nat) (u !!! i)
  else
    let tN := getIntervalStart (times !!! N) in
    computeTerminalPerformance workerId tN (x !!! N).

Definition computePerformance (s : MultipleShootingSolver)
           (sched : nat -> nat) (times : list AnnotatedTime)
           (initState : vector_t) (x u : vector_array_t) : PerformanceIndex :=
  let N := (length times - 1)%nat in
  let performance :=
    parallelAccumulate (nThreads (settings_ s)) sched (N + 1)
                       (performanceStage times x u N) in
  sumPerformance (accountForInitState initState x performance).

(** *** [trajectoryNorm] *)
Definition trajectoryNorm (v : vector_array_t) : scalar_t :=
  ssqrt (fold_left (fun norm vi => norm + squaredNorm vi)%sc v szero).

(** *** [takeStep] *)

(** "Total Constraint violation function" *)
Definition constraintViolation (performance : PerformanceIndex) : scalar_t :=
  ssqrt (stateEqConstraintISE performance
         + stateInputEqConstraintISE performance
         + inequalityConstraintISE performance)%sc.

(** The lambda [stepAccepted]. *)
Definition stepAccepted (settings : Settings)
           (baseline performanceNew : PerformanceIndex) : bool :=
  let baselineConstraintViolation := constraintViolation baseline in
  let newConstraintViolation := constraintViolation performanceNew in
  if (newConstraintViolation >? g_max settings)%sc then false
  else if (newConstraintViolation <? g_min settings)%sc then
    (* With low violation only care about cost *)
    (merit performanceNew <? merit baseline)%sc
  else
    (* Medium violation: either merit or constraints decrease *)
    (merit performanceNew
     <? merit baseline - gamma_c settings * baselineConstraintViolation)%sc
    || (newConstraintViolation
        <? (sone - gamma_c settings) * baselineConstraintViolation)%sc.

(** "Compute step": [uNew[i]] is written only where [du[i]] is non-empty
    ("account for absence of inputs at events"); elsewhere it keeps what
    it held before. *)
Definition stepU (alpha : scalar_t) (u du uNew : vector_array_t)
  : vector_array_t :=
  imap (fun i u_i =>
          if (0 <? vsize (du !!! i))%nat
          then vadd u_i (vscale alpha (du !!! i))
          else uNew !!! i)
       u.

Definition stepX (alpha : scalar_t) (x dx : vector_array_t) : vector_array_t :=
  imap (fun i x_i => vadd x_i (vscale alpha (dx !!! i))) x.

Definition stepSizeBelowTol (settings : Settings)
           (alpha deltaUnorm deltaXnorm : scalar_t) : bool :=
  (alpha * deltaUnorm <? deltaTol settings)%sc
  && (alpha * deltaXnorm <? deltaTol settings)%sc.

Definition improvementBelowTol (settings : Settings)
           (baseline performanceNew : PerformanceIndex) : bool :=
  (sabs (merit baseline - merit performanceNew) <? costTol settings)%sc
  && (constraintViolation performanceNew <? g_min settings)%sc.

(** The [do ... while (alpha > alpha_min)] loop.  [k] counts the trials
    and selects the schedule of the parallel section of this trial;
    [fuel] bounds the number of trials (the C++ loop has no bound of its
    own: with [alpha_decay >= 1] it need not end). *)
Fixpoint takeStep_loop (fuel : nat) (s : MultipleShootingSolver)
         (scheds : nat -> nat -> nat) (baseline : PerformanceIndex)
         (timeDiscretization : list AnnotatedTime) (initState : vector_t)
         (dx du x u : vector_array_t) (deltaUnorm deltaXnorm : scalar_t)
         (k : nat) (alpha : scalar_t) (uNew : vector_array_t)
  : option (bool * vector_array_t * vector_array_t) :=
  match fuel with
  | O => None
  | S fuel' =>
      (* Compute step *)
      let uNew' := stepU alpha u du uNew in
      let xNew' := stepX alpha x dx in
      (* Compute cost and constraints *)
      let performanceNew :=
        computePerformance s (scheds k) timeDiscretization initState
                           xNew' uNew' in
      let accepted := stepAccepted (settings_ s) baseline performanceNew in
      (* Exit conditions *)
      let belowTol :=
        stepSizeBelowTol (settings_ s) alpha deltaUnorm deltaXnorm in
      if accepted then (* Return if step accepted *)
        Some (belowTol
              || improvementBelowTol (settings_ s) baseline performanceNew,
              xNew', uNew')
      else if belowTol then (* steps get too small without being accepted *)
        Some (true, x, u)
      else (* Try smaller step *)
        let alpha' := (alpha * alpha_decay (settings_ s))%sc in
        if (alpha' >? alpha_min (settings_ s))%sc
        then takeStep_loop fuel' s scheds baseline timeDiscretization
                           initState dx du x u deltaUnorm deltaXnorm
                           (S k) alpha' uNew'
        else Some (true, x, u) (* Alpha_min reached -> Converged *)
  end.

(** [takeStep]: the result is the returned flag with the final contents
    of the reference arguments [x] and [u]. *)
Definition takeStep (fuel : nat) (s : MultipleShootingSolver)
           (scheds : nat -> nat -> nat) (baseline : PerformanceIndex)
           (timeDiscretization : list AnnotatedTime) (initState : vector_t)
           (dx du x u : vector_array_t)
  : option (bool * vector_array_t * vector_array_t) :=
  let deltaUnorm := trajectoryNorm du in
  let deltaXnorm := trajectoryNorm dx in
  takeStep_loop fuel s scheds baseline timeDiscretization initState
                dx du x u deltaUnorm deltaXnorm 0 sone
                (replicate (length u) []).

(** *** [runImpl] *)

(** One pass of the SQP loop.  [Returned (converged, x, u)] is the normal
    end of the pass. *)
Definition sqpIterationBody (fuel : nat) (scheds : nat -> nat -> nat)
           (s : MultipleShootingSolver)
           (timeDiscretization : list AnnotatedTime) (initState : vector_t)
           (x u : vector_array_t)
  : MultipleShootingSolver * outcome (bool * vector_array_t * vector_array_t) :=
  (* Make QP approximation *)
  let '(s1, p) :=
    setupQuadraticSubproblem s (scheds 0) timeDiscretization initState x u in
  let s2 := set_performanceIndeces_ (performanceIndeces_ s1 ++ [p]) s1 in
  (* Solve QP *)
  let delta_x0 := vsub initState (front x) in
  match getOCPSolution s2 delta_x0 with
  | (s3, Thrown what) => (s3, Thrown what)
  | (s3, Diverged) => (s3, Diverged)
  | (s3, Returned (deltaX, deltaU)) =>
      (* Apply step *)
      match takeStep fuel s3 (fun k => scheds (S k))
                     (back (performanceIndeces_ s3)) timeDiscretization
                     initState deltaX deltaU x u with
      | None => (s3, Diverged)
      | Some (converged, x', u') =>
          (set_totalNumIterations_ (S (totalNumIterations_ s3)) s3,
           Returned (converged, x', u'))
      end
  end.

(** [for (int iter = 0; iter < settings_.sqpIteration; iter++)], with
    [remaining = sqpIteration - iter]. *)
Fixpoint sqpLoop (remaining : nat) (fuel : nat)
         (scheds : nat -> nat -> nat -> nat) (iter : nat)
         (s : MultipleShootingSolver)
         (timeDiscretization : list AnnotatedTime) (initState : vector_t)
         (x u : vector_array_t)
  : MultipleShootingSolver * outcome (vector_array_t * vector_array_t) :=
  match remaining with
  | O => (s, Returned (x, u))
  | S remaining' =>
      match sqpIterationBody fuel (scheds iter) s timeDiscretization
                             initState x u with
      | (s', Thrown what) => (s', Thrown what)
      | (s', Diverged) => (s', Diverged)
      | (s', Returned (converged, x', u')) =>
          if converged then (s', Returned (x', u'))
          else sqpLoop remaining' fuel scheds (S iter) s' timeDiscretization
                       initState x' u'
      end
  end.

(** [scheds iter j] is the schedule of the [j]-th parallel section of SQP
    iteration [iter] (the assembly first, then one per line-search trial).
    Setting the desired trajectories on the cost providers happens inside
    the providers and is not modelled. *)
Definition runImpl (fuel : nat) (scheds : nat -> nat -> nat -> nat)
           (s : MultipleShootingSolver) (initTime : scalar_t)
           (initState : vector_t) (finalTime : scalar_t)
           (partitioningTimes : scalar_array_t)
  : MultipleShootingSolver * outcome unit :=
  (* Determine time discretization, taking into account event times. *)
  let timeDiscretization :=
    timeDiscretizationWithEvents initTime finalTime (dt (settings_ s))
                                 (eventTimes (modeSchedule s)) in
  (* Initialize the state and input *)
  let x := initializeStateTrajectory s initState timeDiscretization in
  let u := initializeInputTrajectory s timeDiscretization x in
  (* Bookkeeping *)
  let s0 := set_performanceIndeces_ [] s in
  match sqpLoop (Z.to_nat (sqpIteration (settings_ s))) fuel scheds 0 s0
                timeDiscretization initState x u with
  | (s', Thrown what) => (s', Thrown what)
  | (s', Diverged) => (s', Diverged)
  | (s', Returned (x', u')) =>
      (setPrimalSolution s' timeDiscretization x' u', Returned tt)
  end.

(** [reset] *)
Definition reset (s : MultipleShootingSolver) : MultipleShootingSolver :=
  set_totalNumIterations_ 0
    (set_performanceIndeces_ [] (set_primalSolution_ PrimalSolution_default s)).

(** [getIterationsLog] *)
Definition getIterationsLog (s : MultipleShootingSolver)
  : outcome (list PerformanceIndex) :=
  match performanceIndeces_ s with
  | [] => Thrown "[MultipleShootingSolver]: No performance log yet, no problem solved yet?"
  | l => Returned l
  end.
End Solver.

(** ** Vocabulary of the line search

    The quantities of one call of [takeStep], as functions of the number
    [k] of the trial. *)

Section LineSearchVocabulary.
Context `{Scalar} `{!Transcriber} `{!TimeGrid} `{!Warmstart} `{!HpipmInterface}.
Variable s : MultipleShootingSolver.
Variable scheds : nat -> nat -> nat.
Variable baseline : PerformanceIndex.
Variable timeDiscretization : list AnnotatedTime.
Variable initState : vector_t.
Variables dx du x u : vector_array_t.

(** The step size of trial [k]: [1.0] multiplied [k] times by
    [alpha_decay]. *)
Fixpoint alphaAt (k : nat) : scalar_t :=
  match k with
  | O => sone
  | S k' => (alphaAt k' * alpha_decay (settings_ s))%sc
  end.

(** The candidate of a trial with step size [alpha]: [x + alpha dx], and
    [u + alpha du] at the stages that have an input step; at a stage whose
    [du[i]] is empty the candidate input is the empty vector. *)
Definition xTrial (alpha : scalar_t) : vector_array_t :=
  imap (fun i x_i => vadd x_i (vscale alpha (dx !!! i))) x.

Definition uTrial (alpha : scalar_t) : vector_array_t :=
  imap (fun i u_i =>
          if (0 <? vsize (du !!! i))%nat
          then vadd u_i (vscale alpha (du !!! i))
          else [])
       u.

Definition performanceNewAt (k : nat) : PerformanceIndex :=
  computePerformance s (scheds k) timeDiscretization initState
                     (xTrial (alphaAt k)) (uTrial (alphaAt k)).

Definition acceptedAt (k : nat) : bool :=
  stepAccepted (settings_ s) baseline (performanceNewAt k).

Definition belowTolAt (k : nat) : bool :=
  stepSizeBelowTol (settings_ s) (alphaAt k) (trajectoryNorm du)
                   (trajectoryNorm dx).

Definition improvementBelowTolAt (k : nat) : bool :=
  improvementBelowTol (settings_ s) baseline (performanceNewAt k).

(** Trial [k] is followed by another one: it was rejected, its step was
    not below the tolerance, and the decayed step size is still above
    [alpha_min]. *)
Definition retryAt (k : nat) : bool :=
  negb (acceptedAt k) && negb (belowTolAt k)
  && (alphaAt (S k) >? alpha_min (settings_ s))%sc.

(** What [takeStep] returns when trial [k] is its last one. *)
Definition exitAt (k : nat) : bool * vector_array_t * vector_array_t :=
  if acceptedAt k
  then (belowTolAt k || improvementBelowTolAt k,
        xTrial (alphaAt k), uTrial (alphaAt k))
  else (true, x, u).

(** The trial inputs in the words of the specification: [u + alpha du],
    with [u_i] left unchanged at a stage whose [du_i] is empty. *)
Definition uTrialKeepingInputs (alpha : scalar_t) : vector_array_t :=
  imap (fun i u_i =>
          if (0 <? vsize (du !!! i))%nat
          then vadd u_i (vscale alpha (du !!! i))
          else u_i)
       u.

(** The commit in the words of the specification: whenever the last trial
    [k] of a call is accepted, the call leaves [x + alpha dx] in [x] and
    the inputs of [uTrialKeepingInputs] in [u]. *)
Definition commitKeepsInputs (fuel : nat) : Prop :=
  forall (k : nat) converged x' u',
    takeStep fuel s scheds baseline timeDiscretization initState dx du x u
    = Some (converged, x', u') ->
    (forall j, (j < k)%nat -> retryAt j = true) ->
    retryAt k = false ->
    acceptedAt k = true ->
    x' = xTrial (alphaAt k) /\ u' = uTrialKeepingInputs (alphaAt k).

(** [uNew] holds the empty vector wherever [du] has no step: true of the
    freshly constructed [uNew(u.size())] and kept by every trial. *)
Definition emptyWhereNoStep (uNew : vector_array_t) : Prop :=
  forall i, (i < length u)%nat -> vsize (du !!! i) = 0%nat -> uNew !!! i = [].

End LineSearchVocabulary.

(** The merit and the constraint violation as the specification writes
    them. *)
Definition meritOf `{Scalar} (P : PerformanceIndex) : scalar_t :=
  (totalCost P + inequalityConstraintPenalty P)%sc.

Definition theta `{Scalar} (P : PerformanceIndex) : scalar_t :=
  ssqrt (stateEqConstraintISE P + stateInputEqConstraintISE P
         + inequalityConstraintISE P)%sc.

(** The acceptance rule with the low-violation case closed at [g_min]:
    (a) [theta' <= g_min] and [M' < M]; (b) [g_min < theta' <= g_max] and
    ([M' < M - gamma_c theta] or [theta' < (1 - gamma_c) theta]). *)
Definition filterRuleClosedAtGmin `{Scalar} (settings : Settings)
           (baseline P' : PerformanceIndex) : Prop :=
  ((theta P' <= g_min settings)%sc /\ (meritOf P' < meritOf baseline)%sc)
  \/ ((g_min settings < theta P')%sc /\ (theta P' <= g_max settings)%sc
      /\ ((meritOf P' < meritOf baseline - gamma_c settings * theta baseline)%sc
          \/ (theta P' < (sone - gamma_c settings) * theta baseline)%sc)).

(** A value that compares false with everything, in both directions: a
    NaN of binary64.  An order that is total has none. *)
Definition unordered `{Scalar} (a : scalar_t) : Prop :=
  forall b : scalar_t, sltb a b = false /\ sltb b a = false.

(** The acceptance rule with the low-violation case open at [g_min]:
    (a) [theta' < g_min] and [M' < M]; (b) [theta'] is neither below
    [g_min] nor above [g_max], and ([M' < M - gamma_c theta] or
    [theta' < (1 - gamma_c) theta]).  Case (b) is written with the two
    negated tests of the program: for an ordered [theta'] it says
    [g_min <= theta' <= g_max], and an [unordered] [theta'] satisfies it
    as well. *)
Definition filterRule `{Scalar} (settings : Settings)
           (baseline P' : PerformanceIndex) : Prop :=
  ((theta P' < g_min settings)%sc /\ (meritOf P' < meritOf baseline)%sc)
  \/ (~ (theta P' < g_min settings)%sc /\ ~ (g_max settings < theta P')%sc
      /\ ((meritOf P' < meritOf baseline - gamma_c settings * theta baseline)%sc
          \/ (theta P' < (sone - gamma_c settings) * theta baseline)%sc)).

(** Laws of a strict order, as far as the acceptance rule needs them. *)
Class StrictOrderLaws `{Scalar} : Prop := {
  slt_trans : forall a b c : scalar_t, (a < b)%sc -> (b < c)%sc -> (a < c)%sc;
  slt_asym : forall a b : scalar_t, (a < b)%sc -> (a <= b)%sc
}.

(** ** Vocabulary of the QP hand-off *)

Section QpVocabulary.
Context `{Scalar} `{!HpipmInterface}.

(** The back-end resized for, and then solving, the problem held by the
    solver, with the constraints argument [arg] ([None] is the null
    pointer). *)
Definition qpCall (s : MultipleShootingSolver) (delta_x0 : vector_t)
           (arg : option (list VectorFunctionLinearApproximation))
  : HpipmInterface_t * QpResult :=
  solve delta_x0 (dynamics_ s) (cost_ s) arg (printSolverStatus (settings_ s))
        (resize (extractSizesFromProblem (dynamics_ s) (cost_ s) arg)
                (hpipmInterface_ s)).

(** The full input step of the projection [P] for the reduced input step
    [du] and the state step [dx]: [P.f + P.dfdu du + P.dfdx dx]. *)
Definition fullInputStep (P : VectorFunctionLinearApproximation)
           (du dx : vector_t) : vector_t :=
  vadd (vadd (f P) (mv (dfdu P) du)) (mv (dfdx P) dx).
End QpVocabulary.

(** ** Vocabulary of the feedback policy *)

Section FeedbackVocabulary.
Context `{Scalar}.

(** The gain stored for a stage with Riccati gain [K] and projection [P]:
    [P.dfdx + P.dfdu K] when the projection is present, [K] otherwise. *)
Definition fullGain (P : VectorFunctionLinearApproximation) (K : matrix_t)
  : matrix_t :=
  if (0 <? vsize (f P))%nat then madd (dfdx P) (mm (dfdu P) K) else K.

(** Modelled from the spec: [LinearController::computeInput] is outside the
    sources at hand; the controller is [u(t) = uff(t) + K(t) x] over the
    time base of the solution, so at the time of grid node [i] it reads the
    [i]-th entries of its arrays. *)
Definition linearControllerAtNode (bias : vector_array_t)
           (gain : matrix_array_t) (i : nat) (x_i : vector_t) : vector_t :=
  vadd (bias !!! i) (mv (gain !!! i) x_i).

(** The linear controller of a primal solution gives back, at every grid
    node and the state stored for it, the input stored for that node. *)
Definition feedbackReproducesNominal (p : PrimalSolution) : Prop :=
  match controllerPtr_ p with
  | Some (LinearController _ bias gain) =>
      forall i, (i < length (timeTrajectory_ p))%nat ->
                linearControllerAtNode bias gain i (stateTrajectory_ p !!! i)
                = inputTrajectory_ p !!! i
  | _ => True
  end.
End FeedbackVocabulary.

(** ** Vocabulary of the SQP loop *)

Section SqpLoopVocabulary.
Context `{Scalar} `{!Transcriber} `{!TimeGrid} `{!Warmstart} `{!HpipmInterface}.

(** Two solvers are configured alike: same settings, same back-end state,
    same constraint provider and same mode schedule; whatever they hold
    from earlier runs may differ. *)
Definition sameConfiguration (s1 s2 : MultipleShootingSolver) : Prop :=
  settings_ s1 = settings_ s2
  /\ hpipmInterface_ s1 = hpipmInterface_ s2
  /\ constraintPtr_ s1 = constraintPtr_ s2
  /\ modeSchedule s1 = modeSchedule s2.

(** The solver after the subproblem has been assembled and its performance
    appended to the log, i.e. at the point where the QP is solved. *)
Definition assembledSolver (s : MultipleShootingSolver) (sched : nat -> nat)
           (times : list AnnotatedTime) (initState : vector_t)
           (x u : vector_array_t) : MultipleShootingSolver :=
  let sp := setupQuadraticSubproblem s sched times initState x u in
  set_performanceIndeces_ (performanceIndeces_ (fst sp) ++ [snd sp]) (fst sp).

(** The solver and the trajectories at the start of the [k]-th pass from
    iteration [iter] on, if the loop gets there: every pass before it
    returned without convergence. *)
Fixpoint sqpStateFrom (fuel : nat) (scheds : nat -> nat -> nat -> nat)
         (times : list AnnotatedTime) (initState : vector_t)
         (iter k : nat)
         (st : MultipleShootingSolver * vector_array_t * vector_array_t)
  : option (MultipleShootingSolver * vector_array_t * vector_array_t) :=
  match k with
  | O => Some st
  | S k' =>
      let '(s, x, u) := st in
      match sqpIterationBody fuel (scheds iter) s times initState x u with
      | (s', Returned (false, x', u')) =>
          sqpStateFrom fuel scheds times initState (S iter) k' (s', x', u')
      | _ => None
      end
  end.
End SqpLoopVocabulary.

(** ** Vocabulary of the parallel section *)

(** The laws of addition under which the order of summation does not
    matter (they hold in exact arithmetic, not in binary64). *)
Class CommutativeAddition `{Scalar} : Prop := {
  sadd_assoc : forall p q r : scalar_t, (p + q + r)%sc = (p + (q + r))%sc;
  sadd_comm : forall p q : scalar_t, (p + q)%sc = (q + p)%sc;
  sadd_zero_l : forall p : scalar_t, (szero + p)%sc = p
}.

Section ParallelVocabulary.
Context `{Scalar}.

(** The performance of a trajectory computed stage after stage in one
    thread: the sum of the performances of the stages from zero, then the
    mismatch of the initial state, then the merit. *)
Definition sequentialPerformance (initState : vector_t) (x : vector_array_t)
           (stages : list PerformanceIndex) : PerformanceIndex :=
  let total :=
    add_stateEqConstraintISE
      (squaredNorm (vsub initState (front x)))
      (fold_left PerformanceIndex_add stages PerformanceIndex_zero) in
  set_merit (totalCost total + inequalityConstraintPenalty total)%sc total.

(** The cloned providers of any two workers evaluate alike. *)
Definition workersAgree `{!Transcriber} : Prop :=
  (forall w w' t dt x_i x_next u_i,
      computeIntermediatePerformance w t dt x_i x_next u_i
      = computeIntermediatePerformance w' t dt x_i x_next u_i)
  /\ (forall w w' t x_i x_next,
         computeEventPerformance w t x_i x_next
         = computeEventPerformance w' t x_i x_next)
  /\ (forall w w' t x_N,
         computeTerminalPerformance w t x_N
         = computeTerminalPerformance w' t x_N).

(** The helpers that assemble a stage report the performance that the
    helpers that only evaluate it compute. *)
Definition transcriberConsistent `{!Transcriber} : Prop :=
  (forall w projection t dt x_i x_next u_i,
      performance (setupIntermediateNode w projection t dt x_i x_next u_i)
      = computeIntermediatePerformance w t dt x_i x_next u_i)
  /\ (forall w t x_i x_next,
         performance (setupEventNode w t x_i x_next)
         = computeEventPerformance w t x_i x_next)
  /\ (forall w t x_N,
         performance (setupTerminalNode w t x_N)
         = computeTerminalPerformance w t x_N).

(** Every stage is run by one of the workers of the pool. *)
Definition validSchedule (nThreads : Z) (numStages : nat)
           (sched : nat -> nat) : Prop :=
  forall i, (i < numStages)%nat -> (sched i < Z.to_nat nThreads)%nat.
End ParallelVocabulary.

(** ** A small problem to run the solver on

    A chain whose nodes should hold the state: the defect of a stage is
    [x[i+1] - x[i]], the cost [|x|^2 + |u|^2]; the QP back-end replays a
    prepared answer.  Written against [Scalar], so that it runs on binary64
    and on exact integers alike. *)

Section HoldProblem.
Context `{Scalar}.

Definition holdPerformance (c d : scalar_t) : PerformanceIndex :=
  {| merit := szero; totalCost := c; stateEqConstraintISE := d;
     stateInputEqConstraintISE := szero; inequalityConstraintISE := szero;
     inequalityConstraintPenalty := szero |}.

Definition holdTranscription (p : PerformanceIndex) : Transcription :=
  {| performance := p;
     dynamics := VectorFunctionLinearApproximation_Zero0;
     cost := ScalarFunctionQuadraticApproximation_empty;
     constraints := VectorFunctionLinearApproximation_Zero0;
     constraintsProjection := VectorFunctionLinearApproximation_Zero0 |}.

Definition holdIntermediate (x_i x_next u_i : vector_t) : PerformanceIndex :=
  holdPerformance (squaredNorm x_i + squaredNorm u_i)%sc
                  (squaredNorm (vsub x_next x_i)).

Definition holdEvent (x_i x_next : vector_t) : PerformanceIndex :=
  holdPerformance szero (squaredNorm (vsub x_next x_i)).

Definition holdTerminal (x_N : vector_t) : PerformanceIndex :=
  holdPerformance (squaredNorm x_N) szero.

Definition holdTranscriber : Transcriber := {|
  setupIntermediateNode _ _ _ _ x_i x_next u_i :=
    holdTranscription (holdIntermediate x_i x_next u_i);
  setupEventNode _ _ x_i x_next := holdTranscription (holdEvent x_i x_next);
  setupTerminalNode _ _ x_N := holdTranscription (holdTerminal x_N);
  computeIntermediatePerformance _ _ _ x_i x_next u_i :=
    holdIntermediate x_i x_next u_i;
  computeEventPerformance _ _ x_i x_next := holdEvent x_i x_next;
  computeTerminalPerformance _ _ x_N := holdTerminal x_N
|}.

(** A grid of two interior nodes, [t0] and [tf]. *)
Definition twoNodeGrid : TimeGrid := {|
  timeDiscretizationWithEvents t0 tf _ _ :=
    [ {| time := t0; event := Interior |};
      {| time := tf; event := Interior |} ];
  getInterpolationTime t := time t;
  getIntervalStart t := time t;
  getIntervalEnd t := time t;
  getIntervalDuration a b := (time b - time a)%sc
|}.

(** Warm start from the first sample of whatever is stored; the operating
    input is [0]. *)
Definition holdWarmstart : Warmstart := {|
  interpolate _ _ xs := xs !!! 0%nat;
  computeInput c _ x_i :=
    match c with
    | LinearController _ bias gain =>
        vadd (bias !!! 0%nat) (mv (gain !!! 0%nat) x_i)
    | FeedforwardController _ uff => uff !!! 0%nat
    end;
  getSystemOperatingTrajectories _ _ _ := [ [szero] ]
|}.

(** A back-end that replays, call after call, the answers it holds (and
    fails once they are used up), and always the same gains. *)
Record Replay : Type := {
  answers : list QpResult;
  gains : matrix_array_t
}.

Definition replaySolve (h : Replay) : Replay * QpResult :=
  match answers h with
  | a :: rest => ({| answers := rest; gains := gains h |}, a)
  | [] => (h, {| status := NON_SUCCESS 0; deltaXSol := []; deltaUSol := [] |})
  end.

Definition replayHpipm : HpipmInterface := {|
  HpipmInterface_t := Replay;
  OcpSize := unit;
  extractSizesFromProblem _ _ _ := tt;
  resize _ h := h;
  solve _ _ _ _ _ h := replaySolve h;
  getRiccatiFeedback _ _ h := gains h
|}.
End HoldProblem.

(** ** Concrete inputs *)

(** Settings on binary64: one worker, [alpha_decay = 0.5],
    [alpha_min = 0.1875], [gamma_c = 0.5], [g_max = 2], [g_min = 1],
    [costTol = deltaTol = 2^-10]. *)
Definition floatSettings : @Settings float_scalar :=
  @Build_Settings float_scalar
    1%Z 1%Z 1%float false false false
    0.5%float 0.1875%float 0.5%float 2%float 1%float
    0.0009765625%float 0.0009765625%float.

Definition floatReplay (st : @hpipm_status) (dX dU : list (list float))
  : @Replay float_scalar :=
  @Build_Replay float_scalar
    [@Build_QpResult float_scalar st dX dU] [].

(** A fresh solver for the hold problem. *)
Definition holdSolver `{Scalar} (settings : Settings) (h : Replay)
  : @MultipleShootingSolver _ replayHpipm :=
  @Build_MultipleShootingSolver _ replayHpipm
    settings h false
    {| eventTimes := []; modeSequence := [] |}
    PrimalSolution_default
    [] 0%nat [] [] [] [].

Definition floatSolver (settings : @Settings float_scalar)
           (h : @Replay float_scalar)
  : @MultipleShootingSolver float_scalar (@replayHpipm float_scalar) :=
  @holdSolver float_scalar settings h.

Definition floatGrid : list (@AnnotatedTime float_scalar) :=
  [ @Build_AnnotatedTime float_scalar 0%float Interior;
    @Build_AnnotatedTime float_scalar 1%float Interior ].

(** A baseline with merit [1.25] and constraint violation [1]. *)
Definition floatBaseline : @PerformanceIndex float_scalar :=
  @Build_PerformanceIndex float_scalar
    1.25%float 1.25%float 1%float 0%float 0%float 0%float.

(** The performance of the trial [x = [[0],[0]]], [dx = [[0],[1]]],
    [u = [[0]]], [du = [[0]]] from [initState = [0]] at full step. *)
Definition floatTrialPerformance : @PerformanceIndex float_scalar :=
  @performanceNewAt float_scalar (@holdTranscriber float_scalar)
    (@twoNodeGrid float_scalar) (@replayHpipm float_scalar)
    (floatSolver floatSettings (floatReplay SUCCESS [] []))
    (fun _ _ => 0%nat) floatGrid [0%float]
    [[0%float]; [1%float]] [[0%float]] [[0%float]; [0%float]] [[0%float]]
    0.

(** Exact integers: the order is a strict order. *)
Definition Z_StrictOrderLaws : @StrictOrderLaws Z_scalar.
Proof.
  split; unfold slt, sle; cbn.
  - intros a b c Hab Hbc.
    apply Z.ltb_lt in Hab. apply Z.ltb_lt in Hbc. apply Z.ltb_lt.
    exact (Z.lt_trans _ _ _ Hab Hbc).
  - intros a b Hab. apply Z.ltb_lt in Hab. apply Z.ltb_ge.
    exact (Z.lt_le_incl _ _ Hab).
Defined.

(** Settings on exact integers: one worker, [alpha_decay = 0],
    [alpha_min = 0], [gamma_c = 0], [g_max = 2], [g_min = 1],
    [costTol = deltaTol = 1]. *)
Definition ZSettingsOf (project feedback : bool) : @Settings Z_scalar :=
  @Build_Settings Z_scalar
    1%Z 1%Z 1%Z project feedback false 0%Z 0%Z 0%Z 2%Z 1%Z 1%Z 1%Z.

Definition ZSettings : @Settings Z_scalar := ZSettingsOf false false.

Definition ZReplay (st : @hpipm_status) (dX dU : list (list Z))
           (K : list (list (list Z))) : @Replay Z_scalar :=
  @Build_Replay Z_scalar [@Build_QpResult Z_scalar st dX dU] K.

Definition ZGrid : list (@AnnotatedTime Z_scalar) :=
  [ @Build_AnnotatedTime Z_scalar 0%Z Interior;
    @Build_AnnotatedTime Z_scalar 1%Z Interior ].

Definition ZBaseline : @PerformanceIndex Z_scalar :=
  @Build_PerformanceIndex Z_scalar 5%Z 5%Z 4%Z 0%Z 0%Z 0%Z.

(** The decision of the line search on that trial. *)
Definition floatTrialAccepted : bool :=
  @acceptedAt float_scalar (@holdTranscriber float_scalar)
    (@twoNodeGrid float_scalar) (@replayHpipm float_scalar)
    (floatSolver floatSettings (floatReplay SUCCESS [] []))
    (fun _ _ => 0%nat) floatBaseline floatGrid [0%float]
    [[0%float]; [1%float]] [[0%float]] [[0%float]; [0%float]] [[0%float]]
    0.

(** The same trial from [initState = [NaN]]: the mismatch of the initial
    state, and with it the constraint violation, is NaN. *)
Definition floatNanTrialPerformance : @PerformanceIndex float_scalar :=
  @performanceNewAt float_scalar (@holdTranscriber float_scalar)
    (@twoNodeGrid float_scalar) (@replayHpipm float_scalar)
    (floatSolver floatSettings (floatReplay SUCCESS [] []))
    (fun _ _ => 0%nat) floatGrid [PrimFloat.nan]
    [[0%float]; [0%float]] [[0%float]] [[0%float]; [0%float]] [[0%float]]
    0.

Definition floatNanTrialAccepted : bool :=
  @acceptedAt float_scalar (@holdTranscriber float_scalar)
    (@twoNodeGrid float_scalar) (@replayHpipm float_scalar)
    (floatSolver floatSettings (floatReplay SUCCESS [] []))
    (fun _ _ => 0%nat) floatBaseline floatGrid [PrimFloat.nan]
    [[0%float]; [0%float]] [[0%float]] [[0%float]; [0%float]] [[0%float]]
    0.

(** A solver on exact integers for the hold problem. *)
Definition ZSolver (settings : @Settings Z_scalar) (h : @Replay Z_scalar)
  : @MultipleShootingSolver Z_scalar (@replayHpipm Z_scalar) :=
  @holdSolver Z_scalar settings h.

(** The line search on binary64 from [x = [[0],[0]]], [u = [[0]]],
    [initState = [0]] with the state step [dx] and the input step [[0]],
    against a baseline of merit [10] and constraint violation [1]. *)
Definition floatBaseline10 : @PerformanceIndex float_scalar :=
  @Build_PerformanceIndex float_scalar
    10%float 10%float 1%float 0%float 0%float 0%float.

Definition floatTakeStep (fuel : nat) (dx : list (list float))
  : option (bool * list (list float) * list (list float)) :=
  @takeStep float_scalar (@holdTranscriber float_scalar)
    (@twoNodeGrid float_scalar) (@replayHpipm float_scalar) fuel
    (floatSolver floatSettings (floatReplay SUCCESS [] []))
    (fun _ _ => 0%nat) floatBaseline10 floatGrid [0%float]
    dx [[0%float]] [[0%float]; [0%float]] [[0%float]].

Definition floatRetryAt (dx : list (list float)) (k : nat) : bool :=
  @retryAt float_scalar (@holdTranscriber float_scalar)
    (@twoNodeGrid float_scalar) (@replayHpipm float_scalar)
    (floatSolver floatSettings (floatReplay SUCCESS [] []))
    (fun _ _ => 0%nat) floatBaseline10 floatGrid [0%float]
    dx [[0%float]] [[0%float]; [0%float]] [[0%float]] k.

Definition floatAcceptedAt (dx : list (list float)) (k : nat) : bool :=
  @acceptedAt float_scalar (@holdTranscriber float_scalar)
    (@twoNodeGrid float_scalar) (@replayHpipm float_scalar)
    (floatSolver floatSettings (floatReplay SUCCESS [] []))
    (fun _ _ => 0%nat) floatBaseline10 floatGrid [0%float]
    dx [[0%float]] [[0%float]; [0%float]] [[0%float]] k.

(** The line search on binary64 over a grid with a PreEvent node in the
    middle, from [x = [[0],[0],[0]]] and [u = [[0],[7]]] with the steps
    [dx = [[0],[4],[4]]] and [du = [[0],[]]]: the event stage has no input
    step.  The full step is rejected (violation [4 > g_max]), the half
    step is accepted. *)
Definition floatEventGrid : list (@AnnotatedTime float_scalar) :=
  [ @Build_AnnotatedTime float_scalar 0%float Interior;
    @Build_AnnotatedTime float_scalar 1%float PreEvent;
    @Build_AnnotatedTime float_scalar 1%float Interior ].

Definition floatEventTakeStep (fuel : nat)
  : option (bool * list (list float) * list (list float)) :=
  @takeStep float_scalar (@holdTranscriber float_scalar)
    (@twoNodeGrid float_scalar) (@replayHpipm float_scalar) fuel
    (floatSolver floatSettings (floatReplay SUCCESS [] []))
    (fun _ _ => 0%nat) floatBaseline10 floatEventGrid [0%float]
    [[0%float]; [4%float]; [4%float]] [[0%float]; []]
    [[0%float]; [0%float]; [0%float]] [[0%float]; [7%float]].

Definition floatEventAcceptedAt (k : nat) : bool :=
  @acceptedAt float_scalar (@holdTranscriber float_scalar)
    (@twoNodeGrid float_scalar) (@replayHpipm float_scalar)
    (floatSolver floatSettings (floatReplay SUCCESS [] []))
    (fun _ _ => 0%nat) floatBaseline10 floatEventGrid [0%float]
    [[0%float]; [4%float]; [4%float]] [[0%float]; []]
    [[0%float]; [0%float]; [0%float]] [[0%float]; [7%float]] k.

(** A projection of a two-dimensional input onto a one-dimensional reduced
    input over a one-dimensional state,
    [du = (1, 0) + (2, 0) dx + (3, 1) du~], and a solver on exact integers
    that holds it at stage 0 and no projection at stage 1. *)
Definition ZProjection : @VectorFunctionLinearApproximation Z_scalar :=
  @Build_VectorFunctionLinearApproximation Z_scalar
    [1%Z; 0%Z] [[2%Z]; [0%Z]] [[3%Z]; [1%Z]].

Definition ZProjectedSolver (settings : @Settings Z_scalar)
           (h : @Replay Z_scalar)
  : @MultipleShootingSolver Z_scalar (@replayHpipm Z_scalar) :=
  @Build_MultipleShootingSolver Z_scalar (@replayHpipm Z_scalar)
    settings h true
    (@Build_ModeSchedule Z_scalar [] [])
    (@PrimalSolution_default Z_scalar)
    [] 0%nat
    [ @VectorFunctionLinearApproximation_Zero0 Z_scalar;
      @VectorFunctionLinearApproximation_Zero0 Z_scalar ]
    [ @ScalarFunctionQuadraticApproximation_empty Z_scalar;
      @ScalarFunctionQuadraticApproximation_empty Z_scalar;
      @ScalarFunctionQuadraticApproximation_empty Z_scalar ]
    [ @VectorFunctionLinearApproximation_Zero0 Z_scalar;
      @VectorFunctionLinearApproximation_Zero0 Z_scalar;
      @VectorFunctionLinearApproximation_Zero0 Z_scalar ]
    [ ZProjection; @VectorFunctionLinearApproximation_Zero0 Z_scalar ].

(** The answer of the back-end on three nodes: [dx = [[1],[1],[1]]],
    the reduced input step [[1]] at stage 0 and the input step [[5,4]] at
    stage 1, with the gains [[[1]]] (reduced) and [[[1],[1]]]. *)
Definition ZAnswer (st : @hpipm_status) : @Replay Z_scalar :=
  ZReplay st [[1%Z]; [1%Z]; [1%Z]] [[1%Z]; [5%Z; 4%Z]]
          [[[1%Z]]; [[1%Z]; [1%Z]]].

(** Grids of three nodes on exact integers: all interior, and with a
    PreEvent node in the middle. *)
Definition ZGrid3 : list (@AnnotatedTime Z_scalar) :=
  [ @Build_AnnotatedTime Z_scalar 0%Z Interior;
    @Build_AnnotatedTime Z_scalar 1%Z Interior;
    @Build_AnnotatedTime Z_scalar 2%Z Interior ].

Definition ZEventGrid : list (@AnnotatedTime Z_scalar) :=
  [ @Build_AnnotatedTime Z_scalar 0%Z Interior;
    @Build_AnnotatedTime Z_scalar 1%Z PreEvent;
    @Build_AnnotatedTime Z_scalar 1%Z Interior ].

(** The primal solution stored for the states [[0],[1],[2]] and the inputs
    [[5,1],[7,7]] on a grid of three nodes, with the feedback policy. *)
Definition ZFeedbackSolution (times : list (@AnnotatedTime Z_scalar))
  : @PrimalSolution Z_scalar :=
  @primalSolution_ Z_scalar (@replayHpipm Z_scalar)
    (@setPrimalSolution Z_scalar (@replayHpipm Z_scalar)
       (ZProjectedSolver (ZSettingsOf true true) (ZAnswer SUCCESS))
       times [[0%Z]; [1%Z]; [2%Z]] [[5%Z; 1%Z]; [7%Z; 7%Z]]).

(** A run of two SQP iterations on exact integers from the state [[3]]:
    the back-end answers the first QP with the steps [dx = [[0],[-1]]],
    [du = [[0]]] and fails on the second. *)
Definition ZFailingRunSolver
  : @MultipleShootingSolver Z_scalar (@replayHpipm Z_scalar) :=
  ZSolver
    (@Build_Settings Z_scalar
       1%Z 2%Z 1%Z false false false 0%Z 0%Z 0%Z 2%Z 1%Z 1%Z 1%Z)
    (@Build_Replay Z_scalar
       [ @Build_QpResult Z_scalar SUCCESS [[0%Z]; [(-1)%Z]] [[0%Z]];
         @Build_QpResult Z_scalar (NON_SUCCESS 1) [] [] ]
       []).

Definition ZFailingRun
  : @MultipleShootingSolver Z_scalar (@replayHpipm Z_scalar) * outcome unit :=
  @runImpl Z_scalar (@holdTranscriber Z_scalar) (@twoNodeGrid Z_scalar)
    (@holdWarmstart Z_scalar) (@replayHpipm Z_scalar)
    5 (fun _ _ _ => 0%nat) ZFailingRunSolver 0%Z [3%Z] 1%Z [].

(** A run of up to three SQP iterations on binary64 from the state [[3]],
    with the feedback policy: the back-end answers the first QP with
    [dx = [[0],[-1]]], [du = [[0.5]]] and the second with
    [dx = [[0],[0]]], [du = [[-0.5]]]; its gain is [[0.25]]. *)
Definition floatRun
  : @MultipleShootingSolver float_scalar (@replayHpipm float_scalar)
    * outcome unit :=
  @runImpl float_scalar (@holdTranscriber float_scalar)
    (@twoNodeGrid float_scalar) (@holdWarmstart float_scalar)
    (@replayHpipm float_scalar)
    5 (fun _ _ _ => 0%nat)
    (floatSolver
       (@Build_Settings float_scalar
          1%Z 3%Z 1%float false true false
          0.5%float 0.1875%float 0.5%float 2%float 1%float
          0.0009765625%float 0.0009765625%float)
       (@Build_Replay float_scalar
          [ @Build_QpResult float_scalar SUCCESS
              [[0%float]; [(-1)%float]] [[0.5%float]];
            @Build_QpResult float_scalar SUCCESS
              [[0%float]; [0%float]] [[(-0.5)%float]] ]
          [[[0.25%float]]]))
    0%float [3%float] 1%float [].

(** The solver of [floatRun] before the run. *)
Definition floatRunSolver
  : @MultipleShootingSolver float_scalar (@replayHpipm float_scalar) :=
  floatSolver
    (@Build_Settings float_scalar
       1%Z 3%Z 1%float false true false
       0.5%float 0.1875%float 0.5%float 2%float 1%float
       0.0009765625%float 0.0009765625%float)
    (@Build_Replay float_scalar
       [ @Build_QpResult float_scalar SUCCESS
           [[0%float]; [(-1)%float]] [[0.5%float]];
         @Build_QpResult float_scalar SUCCESS
           [[0%float]; [0%float]] [[(-0.5)%float]] ]
       [[[0.25%float]]]).

(** Runs on exact integers from the state [[3]] whose back-end answers
    every QP with the steps [dx = [[0],[-1]]], [du = [[0]]]: with an
    iteration cap of [cap]. *)
Definition ZSteppingSolver (cap : Z)
  : @MultipleShootingSolver Z_scalar (@replayHpipm Z_scalar) :=
  ZSolver
    (@Build_Settings Z_scalar
       1%Z cap 1%Z false false false 0%Z 0%Z 0%Z 2%Z 1%Z 1%Z 1%Z)
    (@Build_Replay Z_scalar
       [ @Build_QpResult Z_scalar SUCCESS [[0%Z]; [(-1)%Z]] [[0%Z]];
         @Build_QpResult Z_scalar SUCCESS [[0%Z]; [(-1)%Z]] [[0%Z]] ]
       []).

Definition ZSteppingRun (cap : Z)
  : @MultipleShootingSolver Z_scalar (@replayHpipm Z_scalar) * outcome unit :=
  @runImpl Z_scalar (@holdTranscriber Z_scalar) (@twoNodeGrid Z_scalar)
    (@holdWarmstart Z_scalar) (@replayHpipm Z_scalar)
    5 (fun _ _ _ => 0%nat) (ZSteppingSolver cap) 0%Z [3%Z] 1%Z [].

(** Exact integers: addition is associative and commutative with zero. *)
Definition Z_CommutativeAddition : @CommutativeAddition Z_scalar.
Proof.
  split; cbn; intros.
  - symmetry. apply Z.add_assoc.
  - apply Z.add_comm.
  - apply Z.add_0_l.
Defined.

(** A solver on exact integers with [n] workers. *)
Definition ZPoolSolver (n : Z)
  : @MultipleShootingSolver Z_scalar (@replayHpipm Z_scalar) :=
  ZSolver
    (@Build_Settings Z_scalar
       n 1%Z 1%Z false false false 0%Z 0%Z 0%Z 2%Z 1%Z 1%Z 1%Z)
    (ZAnswer SUCCESS).

(** The solver left behind by the failing run of two iterations: it has
    counted one iteration, holds a log and an assembled subproblem, and its
    back-end has used up its answers.  [ZRefilled] puts the two answers
    back. *)
Definition ZRefilled
           (s : @MultipleShootingSolver Z_scalar (@replayHpipm Z_scalar))
  : @MultipleShootingSolver Z_scalar (@replayHpipm Z_scalar) :=
  @set_hpipmInterface_ Z_scalar (@replayHpipm Z_scalar)
    (@hpipmInterface_ Z_scalar (@replayHpipm Z_scalar) ZFailingRunSolver) s.

(** * Properties *)

(** ** The model at work

    The run on binary64 accepts the first step at full length, finds no
    acceptable second step and stops after two iterations with the state
    trajectory [[3],[2]], the input [[0.5]] on both nodes and the controller
    [u = -0.25 + 0.25 x]. *)
Example floatRun_returns :
  snd floatRun = Returned tt
  /\ totalNumIterations_ (fst floatRun) = 2%nat
  /\ stateTrajectory_ (primalSolution_ (fst floatRun))
     = [[3%float]; [2%float]]
  /\ inputTrajectory_ (primalSolution_ (fst floatRun))
     = [[0.5%float]; [0.5%float]]
  /\ controllerPtr_ (primalSolution_ (fst floatRun))
     = Some (@LinearController float_scalar
               [0%float; 1%float]
               [[(-0.25)%float]; [(-0.25)%float]]
               [[[0.25%float]]; [[0.25%float]]]).
Proof. vm_compute. repeat split. Qed.

(** ** The acceptance test of the line search *)

Section LineSearchAcceptance.
Context `{Scalar} `{!Transcriber} `{!TimeGrid} `{!Warmstart} `{!HpipmInterface}.

Lemma merit_sumPerformance (l : list PerformanceIndex) :
  merit (sumPerformance l) = meritOf (sumPerformance l).
Proof. reflexivity. Qed.

Lemma merit_computePerformance (s : MultipleShootingSolver) sched times
      initState x u :
  merit (computePerformance s sched times initState x u)
  = meritOf (computePerformance s sched times initState x u).
Proof. apply merit_sumPerformance. Qed.

Lemma merit_setupQuadraticSubproblem (s : MultipleShootingSolver) sched times
      initState x u :
  merit (snd (setupQuadraticSubproblem s sched times initState x u))
  = meritOf (snd (setupQuadraticSubproblem s sched times initState x u)).
Proof. apply merit_sumPerformance. Qed.

Lemma theta_constraintViolation (P : PerformanceIndex) :
  constraintViolation P = theta P.
Proof. reflexivity. Qed.

(** The decision of the lambda, branch by branch. *)
Lemma stepAccepted_branches (settings : Settings)
      (baseline P' : PerformanceIndex) :
  stepAccepted settings baseline P' = true <->
  (theta P' <= g_max settings)%sc
  /\ (((theta P' < g_min settings)%sc /\ (merit P' < merit baseline)%sc)
      \/ ((g_min settings <= theta P')%sc
          /\ ((merit P' < merit baseline - gamma_c settings * theta baseline)%sc
              \/ (theta P' < (sone - gamma_c settings) * theta baseline)%sc))).
Proof.
  unfold stepAccepted, slt, sle, constraintViolation, theta.
  destruct (sltb (g_max settings) _) eqn:Hmax.
  { split; [discriminate | intros [? _]; discriminate]. }
  destruct (sltb _ (g_min settings)) eqn:Hmin.
  - split.
    + intros Hm. split; [reflexivity | left; auto].
    + intros [_ [[_ Hm] | [Hge _]]]; [exact Hm | discriminate].
  - rewrite orb_true_iff. split.
    + intros Hor. split; [reflexivity | right; split; [reflexivity | exact Hor]].
    + intros [_ [[Hlt _] | [_ Hor]]]; [discriminate | exact Hor].
Qed.

Lemma stepAccepted_above_g_max (settings : Settings)
      (baseline P' : PerformanceIndex) :
  (g_max settings < theta P')%sc ->
  stepAccepted settings baseline P' = false.
Proof.
  unfold stepAccepted, slt, constraintViolation, theta.
  intros ->. reflexivity.
Qed.
End LineSearchAcceptance.

Section TrialAcceptance.
Context `{Scalar} `{!Transcriber} `{!TimeGrid} `{!Warmstart} `{!HpipmInterface}.
Context `{!StrictOrderLaws}.

End TrialAcceptance.


(** On binary64 an unordered violation occurs: from [initState = [NaN]]
    the trial [x = [[0],[0]]], [u = [[0]]] has the violation NaN, so
    [g_min <= theta(P')] is false as a comparison of binary64; its merit
    [0] is below [1.25 - 0.5 * 1], and the step is accepted. *)
Example takeStep_trial_nan_violation :
  PrimFloat.is_nan (@theta float_scalar floatNanTrialPerformance) = true
  /\ PrimFloat.leb 1%float (@theta float_scalar floatNanTrialPerformance)
     = false
  /\ floatNanTrialAccepted = true.
Proof. vm_compute. repeat split. Qed.


(** ** The line search as a sequence of trials *)

Section LineSearchTrials.
Context `{Scalar} `{!Transcriber} `{!TimeGrid} `{!Warmstart} `{!HpipmInterface}.
Variable s : MultipleShootingSolver.
Variable scheds : nat -> nat -> nat.
Variable baseline : PerformanceIndex.
Variable times : list AnnotatedTime.
Variable initState : vector_t.
Variables dx du x u : vector_array_t.

Local Abbreviation alpha_ := (alphaAt s).
Local Abbreviation accepted_ := (acceptedAt s scheds baseline times initState dx du x u).
Local Abbreviation belowTol_ := (belowTolAt s dx du).
Local Abbreviation retry_ := (retryAt s scheds baseline times initState dx du x u).
Local Abbreviation exit_ := (exitAt s scheds baseline times initState dx du x u).
Local Abbreviation loop_ fuel k uNew :=
  (takeStep_loop fuel s scheds baseline times initState dx du x u
                 (trajectoryNorm du) (trajectoryNorm dx) k (alpha_ k) uNew).

Lemma emptyWhereNoStep_fresh : emptyWhereNoStep du u (replicate (length u) []).
Proof. intros i Hi _. apply lookup_total_replicate_2. exact Hi. Qed.

Lemma emptyWhereNoStep_uTrial (alpha : scalar_t) :
  emptyWhereNoStep du u (uTrial du u alpha).
Proof.
  intros i Hi Hsz. unfold uTrial.
  rewrite (list_lookup_total_imap _ u i Hi). rewrite Hsz. reflexivity.
Qed.

Lemma stepU_uTrial (alpha : scalar_t) (uNew : vector_array_t) :
  emptyWhereNoStep du u uNew -> stepU alpha u du uNew = uTrial du u alpha.
Proof.
  intros Hclean. unfold stepU, uTrial. apply imap_ext. intros i u_i Hi.
  destruct (vsize (du !!! i)) eqn:Hsz; [| reflexivity].
  cbn. apply Hclean; [exact (lookup_lt_Some _ _ _ Hi) | exact Hsz].
Qed.

Lemma stepX_xTrial (alpha : scalar_t) : stepX alpha x dx = xTrial dx x alpha.
Proof. reflexivity. Qed.

(** One trial of the loop, in the vocabulary of the trials. *)
Lemma takeStep_loop_trial (fuel k : nat) (uNew : vector_array_t) :
  emptyWhereNoStep du u uNew ->
  loop_ (S fuel) k uNew
  = if retry_ k then loop_ fuel (S k) (uTrial du u (alpha_ k))
    else Some (exit_ k).
Proof.
  intros Hclean. cbn [takeStep_loop].
  rewrite (stepU_uTrial _ _ Hclean), stepX_xTrial.
  unfold retryAt, exitAt, improvementBelowTolAt.
  fold (performanceNewAt s scheds times initState dx du x u k).
  fold (accepted_ k). fold (belowTol_ k).
  destruct (accepted_ k); [reflexivity |].
  destruct (belowTol_ k); [reflexivity |].
  cbn [negb andb alphaAt].
  destruct (sltb (alpha_min (settings_ s)) _); reflexivity.
Qed.

(** If the trials [k .. k+n-1] are each followed by another one and trial
    [k+n] is not, the loop started at trial [k] ends with the exit of
    trial [k+n]. *)
Lemma takeStep_loop_exit (n : nat) :
  forall (k fuel : nat) (uNew : vector_array_t),
    (n < fuel)%nat -> emptyWhereNoStep du u uNew ->
    (forall j, (k <= j < k + n)%nat -> retry_ j = true) ->
    retry_ (k + n)%nat = false ->
    loop_ fuel k uNew = Some (exit_ (k + n)%nat).
Proof.
  induction n as [| n IH]; intros k fuel uNew Hfuel Hclean Hretry Hlast.
  - destruct fuel as [| fuel]; [lia |].
    rewrite takeStep_loop_trial by exact Hclean.
    rewrite Nat.add_0_r in Hlast |- *. rewrite Hlast. reflexivity.
  - destruct fuel as [| fuel]; [lia |].
    rewrite takeStep_loop_trial by exact Hclean.
    rewrite (Hretry k) by lia.
    replace (k + S n)%nat with (S k + n)%nat in * by lia.
    apply IH.
    + lia.
    + apply emptyWhereNoStep_uTrial.
    + intros j Hj. apply Hretry. lia.
    + exact Hlast.
Qed.

(** Conversely, whatever the loop returns is the exit of its last trial. *)
Lemma takeStep_loop_returns (fuel : nat) :
  forall (k : nat) (uNew : vector_array_t) r,
    emptyWhereNoStep du u uNew ->
    loop_ fuel k uNew = Some r ->
    exists n, (n < fuel)%nat
              /\ (forall j, (k <= j < k + n)%nat -> retry_ j = true)
              /\ retry_ (k + n)%nat = false
              /\ r = exit_ (k + n)%nat.
Proof.
  induction fuel as [| fuel IH]; intros k uNew r Hclean Hr.
  - discriminate Hr.
  - rewrite takeStep_loop_trial in Hr by exact Hclean.
    destruct (retry_ k) eqn:Hk.
    + apply IH in Hr; [| apply emptyWhereNoStep_uTrial].
      destruct Hr as (n & Hn & Hretry & Hlast & ->).
      exists (S n). replace (k + S n)%nat with (S k + n)%nat by lia.
      repeat split; [lia | | exact Hlast].
      intros j Hj. destruct (decide (j = k)) as [-> | Hne]; [exact Hk |].
      apply Hretry. lia.
    + exists 0%nat. rewrite Nat.add_0_r.
      repeat split; [lia | intros j Hj; lia | exact Hk | congruence].
Qed.

(** What it means for a trial to be followed by another one, and how the
    step size evolves. *)
Lemma retryAt_iff (k : nat) :
  retry_ k = true <->
  accepted_ k = false /\ belowTol_ k = false
  /\ (alpha_min (settings_ s) < alpha_ k * alpha_decay (settings_ s))%sc.
Proof.
  unfold retryAt, slt. cbn [alphaAt].
  rewrite !andb_true_iff, !negb_true_iff. tauto.
Qed.

Lemma takeStep_exit (k fuel : nat) :
  (k < fuel)%nat ->
  (forall j, (j < k)%nat -> retry_ j = true) ->
  retry_ k = false ->
  takeStep fuel s scheds baseline times initState dx du x u = Some (exit_ k).
Proof.
  intros Hfuel Hretry Hlast. unfold takeStep.
  apply (takeStep_loop_exit k 0 fuel); try assumption.
  - apply emptyWhereNoStep_fresh.
  - intros j Hj. apply Hretry. lia.
Qed.

Lemma takeStep_returns (fuel : nat) r :
  takeStep fuel s scheds baseline times initState dx du x u = Some r ->
  exists k, (k < fuel)%nat
            /\ (forall j, (j < k)%nat -> retry_ j = true)
            /\ retry_ k = false
            /\ r = exit_ k.
Proof.
  unfold takeStep. intros Hr.
  apply takeStep_loop_returns in Hr; [| apply emptyWhereNoStep_fresh].
  destruct Hr as (n & Hn & Hretry & Hlast & ->).
  exists n. repeat split; try assumption.
  intros j Hj. apply Hretry. lia.
Qed.
End LineSearchTrials.

Section TakeStepOutcome.
Context `{Scalar} `{!Transcriber} `{!TimeGrid} `{!Warmstart} `{!HpipmInterface}.

(** The candidate of a trial, stage by stage. *)
Lemma xTrial_lookup (dx x : vector_array_t) (alpha : scalar_t)
      (i : nat) (x_i dx_i : vector_t) :
  x !! i = Some x_i -> dx !! i = Some dx_i ->
  xTrial dx x alpha !! i = Some (vadd x_i (vscale alpha dx_i)).
Proof.
  intros Hx Hdx. unfold xTrial. rewrite list_lookup_imap, Hx.
  rewrite (list_lookup_total_correct _ _ _ Hdx). reflexivity.
Qed.

Lemma uTrial_lookup (du u : vector_array_t) (alpha : scalar_t)
      (i : nat) (u_i du_i : vector_t) :
  u !! i = Some u_i -> du !! i = Some du_i ->
  uTrial du u alpha !! i
  = Some (if (0 <? vsize du_i)%nat then vadd u_i (vscale alpha du_i) else []).
Proof.
  intros Hu Hdu. unfold uTrial. rewrite list_lookup_imap, Hu.
  rewrite (list_lookup_total_correct _ _ _ Hdu). reflexivity.
Qed.

(** C2 (amended): let trial [k] be the last trial of a call of [takeStep],
    every earlier trial having been rejected with a step not below
    [deltaTol] and a decayed step size [alpha * alpha_decay] still above
    [alpha_min] ([retryAt]).  If trial [k] is accepted, [x] and [u] keep
    their lengths, every [x_i] becomes [x_i + alpha dx_i], every [u_i]
    whose step [du_i] is non-empty becomes [u_i + alpha du_i], and every
    [u_i] whose step [du_i] is empty becomes the empty vector (the input
    held before is discarded); the call reports convergence exactly when
    [alpha |dx| < deltaTol] and [alpha |du| < deltaTol], or
    [|M(baseline) - M(P')| < costTol] and [theta(P') < g_min].  If trial [k]
    is rejected (its step is below [deltaTol], or the decayed step size is
    no longer above [alpha_min]), the call reports convergence and leaves
    [x] and [u] as they were. *)
Theorem takeStep_commit_and_convergence
        (s : MultipleShootingSolver) (scheds : nat -> nat -> nat)
        (baseline : PerformanceIndex) (times : list AnnotatedTime)
        (initState : vector_t) (dx du x u : vector_array_t) (k fuel : nat) :
  (k < fuel)%nat ->
  (forall j, (j < k)%nat ->
             retryAt s scheds baseline times initState dx du x u j = true) ->
  retryAt s scheds baseline times initState dx du x u k = false ->
  exists converged x' u',
    takeStep fuel s scheds baseline times initState dx du x u
    = Some (converged, x', u')
    /\ (acceptedAt s scheds baseline times initState dx du x u k = true ->
        (length x' = length x
         /\ forall i x_i dx_i,
             x !! i = Some x_i -> dx !! i = Some dx_i ->
             x' !! i = Some (vadd x_i (vscale (alphaAt s k) dx_i)))
        /\ (length u' = length u
            /\ forall i u_i du_i,
                u !! i = Some u_i -> du !! i = Some du_i ->
                ((0 < vsize du_i)%nat ->
                 u' !! i = Some (vadd u_i (vscale (alphaAt s k) du_i)))
                /\ (vsize du_i = 0%nat -> u' !! i = Some []))
        /\ (converged = true <->
            ((alphaAt s k * trajectoryNorm dx < deltaTol (settings_ s))%sc
             /\ (alphaAt s k * trajectoryNorm du < deltaTol (settings_ s))%sc)
            \/ ((sabs (merit baseline
                       - meritOf (performanceNewAt s scheds times initState
                                                   dx du x u k))
                 < costTol (settings_ s))%sc
                /\ (theta (performanceNewAt s scheds times initState
                                            dx du x u k)
                    < g_min (settings_ s))%sc)))
    /\ (acceptedAt s scheds baseline times initState dx du x u k = false ->
        converged = true /\ x' = x /\ u' = u).
Proof.
  intros Hfuel Hretry Hlast.
  rewrite (takeStep_exit s scheds baseline times initState dx du x u k fuel
                         Hfuel Hretry Hlast).
  unfold exitAt.
  destruct (acceptedAt s scheds baseline times initState dx du x u k).
  - eexists _, _, _. split; [reflexivity |]. split; [| discriminate].
    intros _. split; [| split].
    + split; [unfold xTrial; apply length_imap |].
      intros i x_i dx_i Hx Hdx. exact (xTrial_lookup _ _ _ _ _ _ Hx Hdx).
    + split; [unfold uTrial; apply length_imap |].
      intros i u_i du_i Hu Hdu.
      rewrite (uTrial_lookup _ _ _ _ _ _ Hu Hdu). split.
      * intros Hpos. apply Nat.ltb_lt in Hpos. rewrite Hpos. reflexivity.
      * intros Hnil. rewrite Hnil. reflexivity.
    + unfold belowTolAt, stepSizeBelowTol, improvementBelowTolAt,
        improvementBelowTol, performanceNewAt, slt.
      rewrite merit_computePerformance.
      rewrite orb_true_iff, !andb_true_iff. unfold constraintViolation, theta.
      tauto.
  - eexists _, _, _. split; [reflexivity |]. split; [discriminate |].
    intros _. auto.
Qed.

(** C10: [takeStep] changes [x] and [u] only through an accepted trial.
    Whenever its last trial is a rejected one (because the step is below
    [deltaTol] or because the step size has decayed to [alpha_min]), it
    returns [true] with [x] and [u] exactly as on entry; and whatever it
    returns, either [x] and [u] are as on entry or they are the candidate
    of an accepted trial. *)
Theorem takeStep_frame
        (s : MultipleShootingSolver) (scheds : nat -> nat -> nat)
        (baseline : PerformanceIndex) (times : list AnnotatedTime)
        (initState : vector_t) (dx du x u : vector_array_t) :
  (forall k fuel : nat,
      (k < fuel)%nat ->
      (forall j, (j < k)%nat ->
                 retryAt s scheds baseline times initState dx du x u j = true) ->
      retryAt s scheds baseline times initState dx du x u k = false ->
      acceptedAt s scheds baseline times initState dx du x u k = false ->
      takeStep fuel s scheds baseline times initState dx du x u
      = Some (true, x, u))
  /\ (forall (fuel : nat) converged x' u',
         takeStep fuel s scheds baseline times initState dx du x u
         = Some (converged, x', u') ->
         (x' = x /\ u' = u)
         \/ exists k,
             acceptedAt s scheds baseline times initState dx du x u k = true
             /\ x' = xTrial dx x (alphaAt s k)
             /\ u' = uTrial du u (alphaAt s k)).
Proof.
  split.
  - intros k fuel Hfuel Hretry Hlast Hrej.
    rewrite (takeStep_exit s scheds baseline times initState dx du x u k fuel
                           Hfuel Hretry Hlast).
    unfold exitAt. rewrite Hrej. reflexivity.
  - intros fuel converged x' u' Hr.
    apply takeStep_returns in Hr. destruct Hr as (k & _ & _ & _ & Hr).
    unfold exitAt in Hr.
    destruct (acceptedAt s scheds baseline times initState dx du x u k) eqn:Hacc.
    + right. exists k. inversion Hr; subst. auto.
    + left. inversion Hr; subst. auto.
Qed.
End TakeStepOutcome.

Lemma takeStep_commit_and_convergence_witness :
  exists converged x' u',
    floatEventTakeStep 5 = Some (converged, x', u')
    /\ (floatEventAcceptedAt 1 = true ->
        x' = [[0%float]; [2%float]; [2%float]]
        /\ u' !! 0%nat = Some [0%float] /\ u' !! 1%nat = Some []
        /\ converged = false).
Proof.
  destruct (@takeStep_commit_and_convergence
              float_scalar (@holdTranscriber float_scalar)
              (@twoNodeGrid float_scalar) (@replayHpipm float_scalar)
              (floatSolver floatSettings (floatReplay SUCCESS [] []))
              (fun _ _ => 0%nat) floatBaseline10 floatEventGrid [0%float]
              [[0%float]; [4%float]; [4%float]] [[0%float]; []]
              [[0%float]; [0%float]; [0%float]] [[0%float]; [7%float]]
              1%nat 5%nat)
    as (converged & x' & u' & Hret & Hacc & _).
  - lia.
  - intros j Hj. assert (j = 0%nat) as -> by lia. vm_compute. reflexivity.
  - vm_compute. reflexivity.
  - exists converged, x', u'. split; [exact Hret |].
    intros Ha. destruct (Hacc Ha) as (_ & (_ & Hu) & _).
    destruct (Hu 0%nat [0%float] [0%float] eq_refl eq_refl) as [Hstep _].
    destruct (Hu 1%nat [7%float] [] eq_refl eq_refl) as [_ Hnil].
    vm_compute in Hret. inversion Hret. subst.
    repeat split; reflexivity.
Defined.

(** C2 as stated fails at a stage without input step: on the grid with a
    PreEvent node in the middle, from [u = [[0],[7]]] with
    [du = [[0],[]]], the accepted half step leaves [[[0],[]]] in [u]; the
    input [[7]] of the event stage is not kept. *)
Lemma takeStep_commit_counterexample :
  ~ @commitKeepsInputs float_scalar (@holdTranscriber float_scalar)
      (@twoNodeGrid float_scalar) (@replayHpipm float_scalar)
      (floatSolver floatSettings (floatReplay SUCCESS [] []))
      (fun _ _ => 0%nat) floatBaseline10 floatEventGrid [0%float]
      [[0%float]; [4%float]; [4%float]] [[0%float]; []]
      [[0%float]; [0%float]; [0%float]] [[0%float]; [7%float]] 5.
Proof.
  intros Hspec.
  destruct (Hspec 1%nat false [[0%float]; [2%float]; [2%float]]
                  [[0%float]; []]) as [_ Hu].
  - vm_compute. reflexivity.
  - intros j Hj. assert (j = 0%nat) as -> by lia. vm_compute. reflexivity.
  - vm_compute. reflexivity.
  - vm_compute. reflexivity.
  - vm_compute in Hu. discriminate Hu.
Qed.

Lemma takeStep_frame_witness :
  floatTakeStep 5 [[0%float]; [64%float]]
  = Some (true, [[0%float]; [0%float]], [[0%float]]).
Proof.
  apply (proj1 (@takeStep_frame
                  float_scalar (@holdTranscriber float_scalar)
                  (@twoNodeGrid float_scalar) (@replayHpipm float_scalar)
                  (floatSolver floatSettings (floatReplay SUCCESS [] []))
                  (fun _ _ => 0%nat) floatBaseline10 floatGrid [0%float]
                  [[0%float]; [64%float]] [[0%float]]
                  [[0%float]; [0%float]] [[0%float]]) 2%nat 5%nat).
  - lia.
  - intros j Hj.
    assert (j = 0%nat \/ j = 1%nat) as [-> | ->] by lia;
      vm_compute; reflexivity.
  - vm_compute. reflexivity.
  - vm_compute. reflexivity.
Defined.

(** ** The QP hand-off *)

Section QpHandOff.
Context `{Scalar} `{!HpipmInterface}.

Lemma vadd_comm (a b : vector_t) :
  (forall p q : scalar_t, (p + q)%sc = (q + p)%sc) -> vadd a b = vadd b a.
Proof.
  intros Hcomm. unfold vadd. revert b.
  induction a as [| p a IH]; intros [| q b]; cbn; try reflexivity.
  rewrite Hcomm, IH. reflexivity.
Qed.

Lemma getOCPSolution_success (s : MultipleShootingSolver) (delta_x0 : vector_t) :
  status (snd (solveQP s delta_x0)) = SUCCESS ->
  getOCPSolution s delta_x0
  = (set_hpipmInterface_ (fst (solveQP s delta_x0)) s,
     Returned
       (deltaXSol (snd (solveQP s delta_x0)),
        if projectStateInputEqualityConstraints (settings_ s)
        then remapDeltaU (constraintsProjection_ s)
                         (deltaXSol (snd (solveQP s delta_x0)))
                         (deltaUSol (snd (solveQP s delta_x0)))
        else deltaUSol (snd (solveQP s delta_x0)))).
Proof.
  intros Hst. unfold getOCPSolution.
  destruct (solveQP s delta_x0) as [h qp]. cbn in Hst |- *.
  rewrite Hst. reflexivity.
Qed.

Lemma getOCPSolution_failure (s : MultipleShootingSolver) (delta_x0 : vector_t) :
  status (snd (solveQP s delta_x0)) <> SUCCESS ->
  getOCPSolution s delta_x0
  = (set_hpipmInterface_ (fst (solveQP s delta_x0)) s,
     Thrown "[MultipleShootingSolver] Failed to solve QP").
Proof.
  intros Hst. unfold getOCPSolution.
  destruct (solveQP s delta_x0) as [h qp]. cbn in Hst |- *.
  destruct (status qp); [congruence | reflexivity].
Qed.

(** C3: with [projectStateInputEqualityConstraints] enabled and a QP
    solved with success, [getOCPSolution] returns the state steps of the
    QP and, stage by stage, the input step
    [P.f + P.dfdu du~ + P.dfdx dx] where the projection [P] of the stage is
    present ([P.f] has non-zero size), and the input step [du~] of the QP
    unchanged where it is absent.  (Addition of scalars is commutative.) *)
Theorem getOCPSolution_remaps_projected_steps
        (s : MultipleShootingSolver) (delta_x0 : vector_t) :
  (forall p q : scalar_t, (p + q)%sc = (q + p)%sc) ->
  projectStateInputEqualityConstraints (settings_ s) = true ->
  status (snd (solveQP s delta_x0)) = SUCCESS ->
  exists deltaU,
    snd (getOCPSolution s delta_x0)
    = Returned (deltaXSol (snd (solveQP s delta_x0)), deltaU)
    /\ length deltaU = length (deltaUSol (snd (solveQP s delta_x0)))
    /\ forall (i : nat) (du_i dx_i : vector_t)
              (P : VectorFunctionLinearApproximation),
        deltaUSol (snd (solveQP s delta_x0)) !! i = Some du_i ->
        deltaXSol (snd (solveQP s delta_x0)) !! i = Some dx_i ->
        constraintsProjection_ s !! i = Some P ->
        ((0 < vsize (f P))%nat ->
         deltaU !! i = Some (fullInputStep P du_i dx_i))
        /\ (vsize (f P) = 0%nat -> deltaU !! i = Some du_i).
Proof.
  intros Hcomm Hproj Hst.
  rewrite (getOCPSolution_success s delta_x0 Hst), Hproj. cbn [snd].
  eexists. split; [reflexivity |]. split.
  { unfold remapDeltaU. apply length_imap. }
  intros i du_i dx_i P Hdu Hdx HP. unfold remapDeltaU.
  rewrite list_lookup_imap, Hdu. cbn [fmap option_fmap option_map]. cbv zeta.
  rewrite (list_lookup_total_correct _ _ _ HP),
    (list_lookup_total_correct _ _ _ Hdx).
  split.
  - intros Hpos. apply Nat.ltb_lt in Hpos. rewrite Hpos.
    unfold fullInputStep. rewrite (vadd_comm (f P)) by exact Hcomm.
    reflexivity.
  - intros Hzero. rewrite Hzero. reflexivity.
Qed.

(** C5: [getOCPSolution] resizes and solves the QP with the assembled
    constraints when a constraint provider exists and
    [projectStateInputEqualityConstraints] is disabled, and with the null
    constraints pointer in every other case; the state of the back-end and
    the status that decides between returning and throwing are those of
    that call. *)
Theorem getOCPSolution_constraints_argument
        (s : MultipleShootingSolver) (delta_x0 : vector_t) :
  (constraintPtr_ s = true
   /\ projectStateInputEqualityConstraints (settings_ s) = false ->
   solveQP s delta_x0 = qpCall s delta_x0 (Some (constraints_ s)))
  /\ (constraintPtr_ s = false
      \/ projectStateInputEqualityConstraints (settings_ s) = true ->
      solveQP s delta_x0 = qpCall s delta_x0 None)
  /\ hpipmInterface_ (fst (getOCPSolution s delta_x0))
     = fst (solveQP s delta_x0)
  /\ (status (snd (solveQP s delta_x0)) = SUCCESS <->
      exists deltaU,
        snd (getOCPSolution s delta_x0)
        = Returned (deltaXSol (snd (solveQP s delta_x0)), deltaU)).
Proof.
  split; [| split; [| split]].
  - intros [Hc Hp]. unfold solveQP, qpCall. rewrite Hc, Hp. reflexivity.
  - intros Hor. unfold solveQP, qpCall.
    destruct Hor as [Hc | Hp]; [rewrite Hc | rewrite Hp, andb_false_r];
      reflexivity.
  - unfold getOCPSolution. destruct (solveQP s delta_x0) as [h qp].
    destruct (negb _); reflexivity.
  - split.
    + intros Hst. rewrite (getOCPSolution_success s delta_x0 Hst).
      eexists. reflexivity.
    + intros [deltaU Hret].
      destruct (status (snd (solveQP s delta_x0))) eqn:Hst; [reflexivity |].
      rewrite getOCPSolution_failure in Hret by congruence.
      discriminate Hret.
Qed.
End QpHandOff.

Lemma getOCPSolution_remaps_projected_steps_witness :
  exists deltaU,
    snd (@getOCPSolution Z_scalar (@replayHpipm Z_scalar)
           (ZProjectedSolver (ZSettingsOf true false) (ZAnswer SUCCESS)) [0%Z])
    = Returned ([[1%Z]; [1%Z]; [1%Z]], deltaU)
    /\ deltaU = [[6%Z; 1%Z]; [5%Z; 4%Z]].
Proof.
  destruct (@getOCPSolution_remaps_projected_steps
              Z_scalar (@replayHpipm Z_scalar)
              (ZProjectedSolver (ZSettingsOf true false) (ZAnswer SUCCESS))
              [0%Z])
    as (deltaU & Hret & _ & _).
  - intros p q. apply Z.add_comm.
  - reflexivity.
  - reflexivity.
  - exists deltaU. split; [exact Hret |].
    vm_compute in Hret. inversion Hret. reflexivity.
Defined.

Lemma getOCPSolution_constraints_argument_witness :
  @solveQP Z_scalar (@replayHpipm Z_scalar)
    (ZProjectedSolver (ZSettingsOf false false) (ZAnswer SUCCESS)) [0%Z]
  = @qpCall Z_scalar (@replayHpipm Z_scalar)
      (ZProjectedSolver (ZSettingsOf false false) (ZAnswer SUCCESS)) [0%Z]
      (Some (@constraints_ Z_scalar (@replayHpipm Z_scalar)
               (ZProjectedSolver (ZSettingsOf false false) (ZAnswer SUCCESS)))).
Proof.
  apply (proj1 (@getOCPSolution_constraints_argument
                  Z_scalar (@replayHpipm Z_scalar)
                  (ZProjectedSolver (ZSettingsOf false false) (ZAnswer SUCCESS))
                  [0%Z])).
  split; reflexivity.
Defined.

(** ** The primal solution *)

Section PrimalSolutionTrajectories.
Context `{Scalar} `{!HpipmInterface}.

Lemma assembleStep_fold (times : list AnnotatedTime) (n : nat) :
  forall (start : nat) (tt : scalar_array_t) (inputs : vector_array_t),
    let r := fold_left (assembleStep times) (seq start n) (tt, inputs) in
    length (fst r) = (length tt + n)%nat
    /\ length (snd r) = length inputs
    /\ (forall j, (j < start)%nat -> snd r !! j = inputs !! j)
    /\ (forall j, (start <= j < start + n)%nat -> (0 < j)%nat ->
                  (j < length inputs)%nat ->
                  isPreEvent (times !!! j) = true ->
                  snd r !! j = snd r !! (j - 1)%nat).
Proof.
  induction n as [| n IH]; intros start tt inputs; cbn [seq fold_left].
  - cbn. repeat split; try lia.
  - set (acc := assembleStep times (tt, inputs) start).
    assert (Hacc : length (fst acc) = S (length tt)
                   /\ length (snd acc) = length inputs
                   /\ (forall j, j <> start -> snd acc !! j = inputs !! j)
                   /\ (isPreEvent (times !!! start) = true -> (0 < start)%nat ->
                       (start < length inputs)%nat ->
                       snd acc !! start = inputs !! (start - 1)%nat)).
    { subst acc. unfold assembleStep.
      destruct (isPreEvent (times !!! start)) eqn:Hpre;
        [destruct (0 <? start)%nat eqn:Hpos |]; cbn [andb fst snd].
      - rewrite length_app, length_insert. cbn. repeat split; try lia.
        + intros j Hj. apply list_lookup_insert_ne. congruence.
        + intros _ _ Hlt. rewrite list_lookup_insert_eq by exact Hlt.
          symmetry. apply list_lookup_lookup_total_lt. lia.
      - rewrite length_app. cbn. apply Nat.ltb_ge in Hpos.
        repeat split; try lia.
      - rewrite length_app. cbn. repeat split; try lia; try discriminate. }
    destruct acc as [tt1 inputs1]. cbn [fst snd] in Hacc.
    destruct Hacc as (Htt & Hlen & Hother & Hhere).
    specialize (IH (S start) tt1 inputs1). cbv zeta in IH |- *.
    destruct IH as (IHtt & IHlen & IHprefix & IHpre).
    repeat split.
    + lia.
    + lia.
    + intros j Hj. rewrite IHprefix by lia. apply Hother. lia.
    + intros j Hj Hpos Hlt Hpre.
      destruct (decide (j = start)) as [-> | Hne].
      * rewrite !IHprefix by lia. rewrite Hhere by assumption.
        symmetry. apply Hother. lia.
      * apply IHpre; try assumption; lia.
Qed.

(** C8: in the primal solution [setPrimalSolution] stores for a grid
    [times], states [x] (one per node) and inputs [u] (one per interval),
    the time, state and input trajectories have the length of the grid, and
    at every PreEvent node [i > 0] the stored input equals the stored input
    of node [i - 1]. *)
Theorem setPrimalSolution_trajectories
        (s : MultipleShootingSolver) (times : list AnnotatedTime)
        (x u : vector_array_t) :
  length x = length times ->
  S (length u) = length times ->
  let p := primalSolution_ (setPrimalSolution s times x u) in
  length (timeTrajectory_ p) = length (stateTrajectory_ p)
  /\ length (stateTrajectory_ p) = length (inputTrajectory_ p)
  /\ length (inputTrajectory_ p) = length times
  /\ forall (i : nat) (t_i : AnnotatedTime),
      (0 < i)%nat -> times !! i = Some t_i -> event t_i = PreEvent ->
      inputTrajectory_ p !! i = inputTrajectory_ p !! (i - 1)%nat.
Proof.
  intros Hx Hu. unfold setPrimalSolution.
  destruct (if useFeedbackPolicy (settings_ s) then _ else _)
    as [[uff controllerGain] projection].
  pose proof (assembleStep_fold times (length times) 0 [] (u ++ [back u]))
    as Hfold.
  unfold assembleTrajectories.
  destruct (fold_left _ _ _) as [timeTrajectory inputTrajectory].
  cbv zeta in Hfold. cbn [fst snd] in Hfold.
  destruct Hfold as (Htt & Hlen & _ & Hpre).
  rewrite length_app in Hlen. cbn in Hlen, Htt. cbn.
  repeat split; try lia.
  intros i t_i Hpos Hi Hev.
  apply Hpre.
  - pose proof (lookup_lt_Some _ _ _ Hi). lia.
  - exact Hpos.
  - rewrite length_app. cbn. pose proof (lookup_lt_Some _ _ _ Hi). lia.
  - rewrite (list_lookup_total_correct _ _ _ Hi). unfold isPreEvent.
    rewrite Hev. reflexivity.
Qed.
End PrimalSolutionTrajectories.

(** ** The feedback policy *)

Section FeedbackPolicy.
Context `{Scalar}.

Lemma back_lookup {A} `{Inhabited A} (l : list A) :
  (0 < length l)%nat -> l !! (length l - 1)%nat = Some (back l).
Proof.
  intros Hlen. unfold back. rewrite last_lookup.
  replace (pred (length l)) with (length l - 1)%nat by lia.
  destruct (l !! (length l - 1)%nat) eqn:Hl; [reflexivity |].
  apply lookup_ge_None in Hl. lia.
Qed.

Lemma lookup_snoc_back {A} `{Inhabited A} (l : list A) :
  (0 < length l)%nat ->
  (l ++ [back l]) !! length l = (l ++ [back l]) !! (length l - 1)%nat.
Proof.
  intros Hlen. rewrite (lookup_app_l _ _ (length l - 1)) by lia.
  rewrite back_lookup by exact Hlen.
  rewrite lookup_app_r by lia. rewrite Nat.sub_diag. reflexivity.
Qed.

Lemma vsub_vadd (a b : vector_t) :
  (forall p q : scalar_t, (p - q + q)%sc = p) ->
  length b = length a -> vadd (vsub a b) b = a.
Proof.
  intros Hlaw. unfold vadd, vsub. revert b.
  induction a as [| p a IH]; intros [| q b] Hlen; cbn in *;
    try reflexivity; try discriminate.
  rewrite Hlaw, IH by congruence. reflexivity.
Qed.

Variable times : list AnnotatedTime.
Variables x u : vector_array_t.
Variable KMatrices : matrix_array_t.
Variable projection0 : list VectorFunctionLinearApproximation.

Local Abbreviation after_ n :=
  (fold_left (fun acc i => feedbackStage times x u KMatrices i acc)
             (seq 0 n) ([], [], projection0)).
Local Abbreviation K_ i := (fullGain (projection0 !!! i) (KMatrices !!! i)).

(** The state of the feedback loop after the stages [0 .. n-1]. *)
Lemma feedbackStage_fold (n : nat) :
  length (fst (fst (after_ n))) = n
  /\ length (snd (fst (after_ n))) = n
  /\ (forall j, (n <= j)%nat -> snd (after_ n) !! j = projection0 !! j)
  /\ forall i, (i < n)%nat ->
       (isPreEvent (times !!! i) = true -> (0 < i)%nat ->
        fst (fst (after_ n)) !! i = fst (fst (after_ n)) !! (i - 1)%nat
        /\ snd (fst (after_ n)) !! i = snd (fst (after_ n)) !! (i - 1)%nat)
       /\ (isPreEvent (times !!! i) = false \/ i = 0%nat ->
           snd (fst (after_ n)) !! i = Some (K_ i)
           /\ fst (fst (after_ n)) !! i
              = Some (vsub (u !!! i) (mv (K_ i) (x !!! i)))).
Proof.
  induction n as [| n IH].
  - cbn. repeat split; intros; lia.
  - rewrite seq_S, fold_left_app. cbn [fold_left Nat.add].
    destruct (after_ n) as [[uff gain] proj]. cbn [fst snd] in IH.
    destruct IH as (Huff & Hgain & Hproj & Hstages).
    unfold feedbackStage. rewrite Huff.
    assert (HP : proj !!! n = projection0 !!! n).
    { rewrite !list_lookup_total_alt, Hproj by lia. reflexivity. }
    destruct (isPreEvent (times !!! n) && (0 <? n)%nat) eqn:Hcond.
    + (* the previous pair is repeated *)
      apply andb_true_iff in Hcond. destruct Hcond as [Hpre Hpos].
      apply Nat.ltb_lt in Hpos. cbn [fst snd].
      rewrite !length_app, Huff, Hgain. cbn [length].
      split; [lia |]. split; [lia |]. split.
      { intros j Hj. apply Hproj. lia. }
      intros i Hi. destruct (decide (i = n)) as [-> | Hne].
      * split.
        -- intros _ _. split.
           ++ pose proof (lookup_snoc_back uff) as Hb. rewrite Huff in Hb.
              apply Hb. lia.
           ++ pose proof (lookup_snoc_back gain) as Hb. rewrite Hgain in Hb.
              apply Hb. lia.
        -- intros [Hno | Hzero]; [congruence | lia].
      * assert (Hlt : (i < n)%nat) by lia.
        destruct (Hstages i Hlt) as [Hrep Hcomp]. split.
        -- intros Hp Hi0.
           rewrite !(lookup_app_l uff), !(lookup_app_l gain) by lia.
           apply Hrep; assumption.
        -- intros Hor.
           rewrite (lookup_app_l uff), (lookup_app_l gain) by lia.
           apply Hcomp; assumption.
    + (* the pair of the stage is computed *)
      rewrite HP.
      assert (Hstage :
                exists proj',
                  (if (0 <? vsize (f (projection0 !!! n)))%nat
                   then (madd (dfdx (projection0 !!! n))
                              (mm (dfdu (projection0 !!! n)) (KMatrices !!! n)),
                         <[n := set_dfdx [] (projection0 !!! n)]> proj)
                   else (KMatrices !!! n, proj))
                  = (K_ n, proj')
                  /\ forall j, (S n <= j)%nat -> proj' !! j = projection0 !! j).
      { unfold fullGain. destruct (0 <? vsize (f (projection0 !!! n)))%nat.
        - eexists. split; [reflexivity |]. intros j Hj.
          rewrite list_lookup_insert_ne by lia. apply Hproj. lia.
        - eexists. split; [reflexivity |]. intros j Hj. apply Hproj. lia. }
      destruct Hstage as (proj' & -> & Hproj'). cbn [fst snd].
      rewrite !length_app, Huff, Hgain. cbn [length].
      split; [lia |]. split; [lia |]. split; [exact Hproj' |].
      intros i Hi. destruct (decide (i = n)) as [-> | Hne].
      * split.
        -- intros Hp Hi0. apply Nat.ltb_lt in Hi0.
           rewrite Hp, Hi0 in Hcond. discriminate Hcond.
        -- intros _. split.
           ++ rewrite lookup_app_r by lia. rewrite Hgain, Nat.sub_diag.
              reflexivity.
           ++ rewrite lookup_app_r by lia. rewrite Huff, Nat.sub_diag.
              reflexivity.
      * assert (Hlt : (i < n)%nat) by lia.
        destruct (Hstages i Hlt) as [Hrep Hcomp]. split.
        -- intros Hp Hi0.
           rewrite !(lookup_app_l uff), !(lookup_app_l gain) by lia.
           apply Hrep; assumption.
        -- intros Hor.
           rewrite (lookup_app_l uff), (lookup_app_l gain) by lia.
           apply Hcomp; assumption.
Qed.
End FeedbackPolicy.

Section FeedbackController.
Context `{Scalar} `{!HpipmInterface}.

End FeedbackController.



Lemma setPrimalSolution_trajectories_witness :
  length (timeTrajectory_ (ZFeedbackSolution ZEventGrid))
  = length (stateTrajectory_ (ZFeedbackSolution ZEventGrid))
  /\ length (stateTrajectory_ (ZFeedbackSolution ZEventGrid))
     = length (inputTrajectory_ (ZFeedbackSolution ZEventGrid))
  /\ length (inputTrajectory_ (ZFeedbackSolution ZEventGrid)) = 3%nat
  /\ inputTrajectory_ (ZFeedbackSolution ZEventGrid) !! 1%nat
     = inputTrajectory_ (ZFeedbackSolution ZEventGrid) !! 0%nat.
Proof.
  destruct (@setPrimalSolution_trajectories
              Z_scalar (@replayHpipm Z_scalar)
              (ZProjectedSolver (ZSettingsOf true true) (ZAnswer SUCCESS))
              ZEventGrid [[0%Z]; [1%Z]; [2%Z]] [[5%Z; 1%Z]; [7%Z; 7%Z]])
    as (Hts & Hsi & Hlen & Hpre).
  - reflexivity.
  - reflexivity.
  - split; [exact Hts |]. split; [exact Hsi |]. split; [exact Hlen |].
    apply (Hpre 1%nat (@Build_AnnotatedTime Z_scalar 1%Z PreEvent)).
    + lia.
    + reflexivity.
    + reflexivity.
Defined.

(** ** The initial state trajectory *)

Section StateInitialisation.
Context `{Scalar} `{!TimeGrid} `{!Warmstart} `{!HpipmInterface}.

(** C7: with no SQP iteration done so far ([totalNumIterations_ = 0]),
    [initializeStateTrajectory] returns [initState] at every node of the
    grid; otherwise it returns [initState] at node 0 and, at every node
    [i >= 1], the linear interpolation of the state trajectory of the
    previous primal solution at the interpolation time of the node. *)
Theorem initializeStateTrajectory_spec
        (s : MultipleShootingSolver) (initState : vector_t)
        (timeDiscretization : list AnnotatedTime) :
  (totalNumIterations_ s = 0%nat ->
   length (initializeStateTrajectory s initState timeDiscretization)
   = length timeDiscretization
   /\ forall i, (i < length timeDiscretization)%nat ->
                initializeStateTrajectory s initState timeDiscretization !! i
                = Some initState)
  /\ (totalNumIterations_ s <> 0%nat ->
      initializeStateTrajectory s initState timeDiscretization !! 0%nat
      = Some initState
      /\ forall (i : nat) (t_i : AnnotatedTime),
          (1 <= i)%nat -> timeDiscretization !! i = Some t_i ->
          initializeStateTrajectory s initState timeDiscretization !! i
          = Some (interpolate (getInterpolationTime t_i)
                              (timeTrajectory_ (primalSolution_ s))
                              (stateTrajectory_ (primalSolution_ s)))).
Proof.
  unfold initializeStateTrajectory. split.
  - intros ->. cbn [Nat.eqb]. split.
    + apply length_replicate.
    + intros i Hi. apply lookup_replicate_2. exact Hi.
  - intros Hne. apply Nat.eqb_neq in Hne. rewrite Hne. split; [reflexivity |].
    intros i t_i Hi Ht.
    destruct i as [| i]; [lia |]. rewrite lookup_cons.
    rewrite list_lookup_fmap.
    pose proof (lookup_lt_Some _ _ _ Ht) as Hlt.
    rewrite (lookup_seq_lt 1 (length timeDiscretization - 1) i) by lia.
    cbn [fmap option_fmap option_map Nat.add].
    rewrite (list_lookup_total_correct _ _ _ Ht). reflexivity.
Qed.
End StateInitialisation.

Lemma initializeStateTrajectory_spec_witness :
  length (@initializeStateTrajectory Z_scalar (@twoNodeGrid Z_scalar)
            (@holdWarmstart Z_scalar) (@replayHpipm Z_scalar)
            (ZSolver ZSettings (ZAnswer SUCCESS)) [3%Z] ZGrid3)
  = 3%nat
  /\ forall i, (i < 3)%nat ->
               @initializeStateTrajectory Z_scalar (@twoNodeGrid Z_scalar)
                 (@holdWarmstart Z_scalar) (@replayHpipm Z_scalar)
                 (ZSolver ZSettings (ZAnswer SUCCESS)) [3%Z] ZGrid3 !! i
               = Some [3%Z].
Proof.
  apply (proj1 (@initializeStateTrajectory_spec
                  Z_scalar (@twoNodeGrid Z_scalar) (@holdWarmstart Z_scalar)
                  (@replayHpipm Z_scalar)
                  (ZSolver ZSettings (ZAnswer SUCCESS)) [3%Z] ZGrid3)).
  reflexivity.
Defined.

(** ** The performance index and the initial state *)

Section InitialStateMismatch.
Context `{Scalar} `{!Transcriber} `{!TimeGrid} `{!HpipmInterface}.

Lemma stateEqConstraintISE_fold (l : list PerformanceIndex)
      (p : PerformanceIndex) :
  stateEqConstraintISE (fold_left PerformanceIndex_add l p)
  = fold_left sadd (stateEqConstraintISE <$> l) (stateEqConstraintISE p).
Proof.
  revert p. induction l as [| q l IH]; intros p; [reflexivity |].
  cbn [fold_left fmap list_fmap]. rewrite IH. reflexivity.
Qed.

Lemma fold_sadd_shift (l : list scalar_t) (a d : scalar_t) :
  (forall p q r : scalar_t, (p + q + r)%sc = (p + (q + r))%sc) ->
  (forall p q : scalar_t, (p + q)%sc = (q + p)%sc) ->
  fold_left sadd l (a + d)%sc = (fold_left sadd l a + d)%sc.
Proof.
  intros Hassoc Hcomm. revert a.
  induction l as [| b l IH]; intros a; [reflexivity |].
  cbn [fold_left]. rewrite <- IH. f_equal.
  rewrite !Hassoc. f_equal. apply Hcomm.
Qed.

Lemma parallelAccumulate_nonempty (n : Z) sched numStages task :
  (1 <= n)%Z ->
  parallelAccumulate n sched numStages task
  = front (parallelAccumulate n sched numStages task)
    :: tail (parallelAccumulate n sched numStages task).
Proof.
  intros Hn. unfold parallelAccumulate.
  destruct (Z.to_nat n) as [| m] eqn:Hm; [lia |]. reflexivity.
Qed.

(** The state-equality error of the summed performance, with the initial
    state accounted for at the front worker. *)
Lemma stateEqConstraintISE_accounted (initState : vector_t)
      (x : vector_array_t) (perf : list PerformanceIndex) :
  perf = front perf :: tail perf ->
  stateEqConstraintISE (sumPerformance (accountForInitState initState x perf))
  = fold_left sadd (stateEqConstraintISE <$> tail perf)
              (stateEqConstraintISE (front perf)
               + squaredNorm (vsub initState (front x)))%sc.
Proof.
  intros Hperf. rewrite Hperf at 1. unfold accountForInitState, sumPerformance.
  cbn [tail]. unfold set_merit. cbn [stateEqConstraintISE].
  unfold front at 1. cbn [lookup_total list_lookup_total].
  rewrite stateEqConstraintISE_fold. reflexivity.
Qed.

(** C9: with at least one worker, the state-equality error returned by
    [setupQuadraticSubproblem] and by [computePerformance] is the sum over
    the workers of their accumulated errors, the squared norm of
    [initState - x[0]] having been added to the front worker's before the
    sum; with an associative and commutative addition it is the accumulated
    error plus that squared norm.  The constraint violation of the line
    search is the square root of this error plus the other two. *)
Theorem performance_accounts_for_initial_state
        (s : MultipleShootingSolver) (sched : nat -> nat)
        (times : list AnnotatedTime) (initState : vector_t)
        (x u : vector_array_t) :
  (1 <= nThreads (settings_ s))%Z ->
  let N := (length times - 1)%nat in
  let mismatch := squaredNorm (vsub initState (front x)) in
  let assembled :=
    parallelAccumulate
      (nThreads (settings_ s)) sched (N + 1)
      (fun workerId i =>
         performance
           (setupStage (projectStateInputEqualityConstraints (settings_ s))
                       times x u N workerId i)) in
  let evaluated :=
    parallelAccumulate (nThreads (settings_ s)) sched (N + 1)
                       (performanceStage times x u N) in
  let P := snd (setupQuadraticSubproblem s sched times initState x u) in
  let P' := computePerformance s sched times initState x u in
  stateEqConstraintISE P
  = fold_left sadd (stateEqConstraintISE <$> tail assembled)
              (stateEqConstraintISE (front assembled) + mismatch)%sc
  /\ stateEqConstraintISE P'
     = fold_left sadd (stateEqConstraintISE <$> tail evaluated)
                 (stateEqConstraintISE (front evaluated) + mismatch)%sc
  /\ constraintViolation P'
     = ssqrt (stateEqConstraintISE P' + stateInputEqConstraintISE P'
              + inequalityConstraintISE P')%sc
  /\ ((forall p q r : scalar_t, (p + q + r)%sc = (p + (q + r))%sc) ->
      (forall p q : scalar_t, (p + q)%sc = (q + p)%sc) ->
      stateEqConstraintISE P
      = (stateEqConstraintISE (sumPerformance assembled) + mismatch)%sc
      /\ stateEqConstraintISE P'
         = (stateEqConstraintISE (sumPerformance evaluated) + mismatch)%sc).
Proof.
  intros Hn N mismatch assembled evaluated P P'.
  assert (HP : stateEqConstraintISE P
               = fold_left sadd (stateEqConstraintISE <$> tail assembled)
                           (stateEqConstraintISE (front assembled) + mismatch)%sc).
  { apply stateEqConstraintISE_accounted.
    apply parallelAccumulate_nonempty. exact Hn. }
  assert (HP' : stateEqConstraintISE P'
                = fold_left sadd (stateEqConstraintISE <$> tail evaluated)
                            (stateEqConstraintISE (front evaluated) + mismatch)%sc).
  { apply stateEqConstraintISE_accounted.
    apply parallelAccumulate_nonempty. exact Hn. }
  split; [exact HP |]. split; [exact HP' |]. split; [reflexivity |].
  intros Hassoc Hcomm. rewrite HP, HP'.
  rewrite !fold_sadd_shift by assumption.
  unfold sumPerformance, set_merit. cbn [stateEqConstraintISE].
  rewrite !stateEqConstraintISE_fold. split; reflexivity.
Qed.
End InitialStateMismatch.

Lemma performance_accounts_for_initial_state_witness :
  @stateEqConstraintISE Z_scalar
    (@computePerformance Z_scalar (@holdTranscriber Z_scalar)
       (@twoNodeGrid Z_scalar) (@replayHpipm Z_scalar)
       (ZSolver ZSettings (ZAnswer SUCCESS)) (fun _ => 0%nat)
       ZGrid [3%Z] [[1%Z]; [2%Z]] [[0%Z]])
  = 5%Z.
Proof.
  destruct (@performance_accounts_for_initial_state
              Z_scalar (@holdTranscriber Z_scalar) (@twoNodeGrid Z_scalar)
              (@replayHpipm Z_scalar) (ZSolver ZSettings (ZAnswer SUCCESS))
              (fun _ => 0%nat) ZGrid [3%Z] [[1%Z]; [2%Z]] [[0%Z]])
    as (_ & Heval & _).
  - cbn. lia.
  - rewrite Heval. reflexivity.
Defined.

(** ** Failure of the QP back-end *)

Section QpFailure.
Context `{Scalar} `{!Transcriber} `{!TimeGrid} `{!Warmstart} `{!HpipmInterface}.

Lemma getOCPSolution_frame (s : MultipleShootingSolver) (delta_x0 : vector_t) :
  primalSolution_ (fst (getOCPSolution s delta_x0)) = primalSolution_ s
  /\ performanceIndeces_ (fst (getOCPSolution s delta_x0))
     = performanceIndeces_ s.
Proof.
  unfold getOCPSolution. destruct (solveQP s delta_x0) as [h qp].
  destruct (negb _); split; reflexivity.
Qed.

Lemma assembledSolver_frame (s : MultipleShootingSolver) sched times
      initState x u :
  primalSolution_ (assembledSolver s sched times initState x u)
  = primalSolution_ s
  /\ performanceIndeces_ (assembledSolver s sched times initState x u)
     = performanceIndeces_ s
       ++ [snd (setupQuadraticSubproblem s sched times initState x u)].
Proof. split; reflexivity. Qed.

(** One pass of the loop around the call of the QP. *)
Lemma sqpIterationBody_unfold (fuel : nat) (sched3 : nat -> nat -> nat)
      (s : MultipleShootingSolver) times initState x u :
  sqpIterationBody fuel sched3 s times initState x u
  = match getOCPSolution (assembledSolver s (sched3 0%nat) times initState x u)
                         (vsub initState (front x)) with
    | (s3, Thrown what) => (s3, Thrown what)
    | (s3, Diverged) => (s3, Diverged)
    | (s3, Returned (deltaX, deltaU)) =>
        match takeStep fuel s3 (fun k => sched3 (S k))
                       (back (performanceIndeces_ s3)) times initState
                       deltaX deltaU x u with
        | None => (s3, Diverged)
        | Some (converged, x', u') =>
            (set_totalNumIterations_ (S (totalNumIterations_ s3)) s3,
             Returned (converged, x', u'))
        end
    end.
Proof.
  unfold sqpIterationBody, assembledSolver.
  destruct (setupQuadraticSubproblem s (sched3 0%nat) times initState x u)
    as [s1 p].
  reflexivity.
Qed.

(** No pass of the loop touches the primal solution, and every pass appends
    exactly the performance of its subproblem to the log, however it ends. *)
Lemma sqpIterationBody_frame (fuel : nat) (sched3 : nat -> nat -> nat)
      (s : MultipleShootingSolver) times initState x u :
  primalSolution_ (fst (sqpIterationBody fuel sched3 s times initState x u))
  = primalSolution_ s
  /\ performanceIndeces_
       (fst (sqpIterationBody fuel sched3 s times initState x u))
     = performanceIndeces_ s
       ++ [snd (setupQuadraticSubproblem s (sched3 0%nat) times initState x u)].
Proof.
  rewrite sqpIterationBody_unfold.
  pose proof (getOCPSolution_frame
                (assembledSolver s (sched3 0%nat) times initState x u)
                (vsub initState (front x))) as [Hp Hl].
  destruct (assembledSolver_frame s (sched3 0%nat) times initState x u)
    as [Hp' Hl'].
  destruct (getOCPSolution _ _) as [s3 [[deltaX deltaU] | what |]];
    cbn [fst] in Hp, Hl |- *.
  - destruct (takeStep _ _ _ _ _ _ _ _ _ _) as [[[converged x'] u'] |];
      cbn [fst set_totalNumIterations_ primalSolution_ performanceIndeces_];
      split; congruence.
  - split; congruence.
  - split; congruence.
Qed.

Lemma sqpIterationBody_qp_failure (fuel : nat) (sched3 : nat -> nat -> nat)
      (s : MultipleShootingSolver) times initState x u :
  status (snd (solveQP (assembledSolver s (sched3 0%nat) times initState x u)
                       (vsub initState (front x)))) <> SUCCESS ->
  snd (sqpIterationBody fuel sched3 s times initState x u)
  = Thrown "[MultipleShootingSolver] Failed to solve QP".
Proof.
  intros Hst. rewrite sqpIterationBody_unfold.
  rewrite getOCPSolution_failure by exact Hst. reflexivity.
Qed.

Lemma sqpStateFrom_frame (fuel : nat) scheds times initState (k : nat) :
  forall (iter : nat) s x u sk xk uk,
    sqpStateFrom fuel scheds times initState iter k (s, x, u)
    = Some (sk, xk, uk) ->
    primalSolution_ sk = primalSolution_ s
    /\ length (performanceIndeces_ sk)
       = (length (performanceIndeces_ s) + k)%nat.
Proof.
  induction k as [| k IH]; intros iter s x u sk xk uk Hst.
  - inversion Hst; subst. split; [reflexivity | lia].
  - cbn [sqpStateFrom] in Hst.
    pose proof (sqpIterationBody_frame fuel (scheds iter) s times initState x u)
      as [Hp Hl].
    destruct (sqpIterationBody fuel (scheds iter) s times initState x u)
      as [s' [[[converged x'] u'] | what |]]; try discriminate Hst.
    destruct converged; [discriminate Hst |].
    cbn [fst] in Hp, Hl. apply IH in Hst. destruct Hst as [Hp2 Hl2].
    split; [congruence |]. rewrite Hl2, Hl, length_app. cbn. lia.
Qed.

(** A pass that throws ends the loop with that exception. *)
Lemma sqpLoop_throws (fuel : nat) scheds times initState (k : nat) :
  forall (n iter : nat) s x u sk xk uk s' what,
    (k < n)%nat ->
    sqpStateFrom fuel scheds times initState iter k (s, x, u)
    = Some (sk, xk, uk) ->
    sqpIterationBody fuel (scheds (iter + k)%nat) sk times initState xk uk
    = (s', Thrown what) ->
    sqpLoop n fuel scheds iter s times initState x u = (s', Thrown what).
Proof.
  induction k as [| k IH]; intros n iter s x u sk xk uk s' what Hn Hst Hbody.
  - inversion Hst; subst. destruct n as [| n]; [lia |].
    rewrite Nat.add_0_r in Hbody. cbn [sqpLoop]. rewrite Hbody. reflexivity.
  - destruct n as [| n]; [lia |]. cbn [sqpStateFrom] in Hst. cbn [sqpLoop].
    destruct (sqpIterationBody fuel (scheds iter) s times initState x u)
      as [s1 [[[converged x'] u'] | what1 |]]; try discriminate Hst.
    destruct converged; [discriminate Hst |].
    apply (IH n (S iter) s1 x' u' sk xk uk); [lia | exact Hst |].
    replace (S iter + k)%nat with (iter + S k)%nat by lia. exact Hbody.
Qed.

(** C6: if in a run the loop reaches its [k]-th pass (counting from 0,
    [k < sqpIteration], the passes before it having returned without
    convergence) and the QP back-end returns a status other than [SUCCESS]
    there, then [runImpl] throws; the primal solution held by the solver is
    the one it held before the run; and the log holds the [k + 1] entries
    appended up to the failure, which [getIterationsLog] returns. *)
Theorem runImpl_qp_failure
        (fuel : nat) (scheds : nat -> nat -> nat -> nat)
        (s : MultipleShootingSolver) (initTime : scalar_t)
        (initState : vector_t) (finalTime : scalar_t)
        (partitioningTimes : scalar_array_t)
        (k : nat) (sk : MultipleShootingSolver) (xk uk : vector_array_t) :
  let times :=
    timeDiscretizationWithEvents initTime finalTime (dt (settings_ s))
                                 (eventTimes (modeSchedule s)) in
  let x0 := initializeStateTrajectory s initState times in
  let u0 := initializeInputTrajectory s times x0 in
  (k < Z.to_nat (sqpIteration (settings_ s)))%nat ->
  sqpStateFrom fuel scheds times initState 0 k
               (set_performanceIndeces_ [] s, x0, u0)
  = Some (sk, xk, uk) ->
  status (snd (solveQP (assembledSolver sk (scheds k 0%nat) times initState
                                        xk uk)
                       (vsub initState (front xk)))) <> SUCCESS ->
  exists s',
    runImpl fuel scheds s initTime initState finalTime partitioningTimes
    = (s', Thrown "[MultipleShootingSolver] Failed to solve QP")
    /\ primalSolution_ s' = primalSolution_ s
    /\ performanceIndeces_ s'
       = performanceIndeces_ sk
         ++ [snd (setupQuadraticSubproblem sk (scheds k 0%nat) times
                                           initState xk uk)]
    /\ length (performanceIndeces_ s') = S k
    /\ getIterationsLog s' = Returned (performanceIndeces_ s').
Proof.
  intros times x0 u0 Hk Hst Hfail.
  pose proof (sqpIterationBody_qp_failure fuel (scheds k) sk times initState
                                          xk uk Hfail) as Hthrow.
  pose proof (sqpIterationBody_frame fuel (scheds k) sk times initState xk uk)
    as [Hp Hl].
  destruct (sqpIterationBody fuel (scheds k) sk times initState xk uk)
    as [s' o] eqn:Hbody.
  cbn [fst snd] in Hthrow, Hp, Hl. subst o.
  destruct (sqpStateFrom_frame fuel scheds times initState k 0 _ _ _ _ _ _ Hst)
    as [Hpk Hlk].
  cbn in Hpk, Hlk.
  exists s'. unfold runImpl. fold times. fold x0. fold u0.
  rewrite (sqpLoop_throws fuel scheds times initState k _ 0 _ _ _ sk xk uk s'
                          _ Hk Hst Hbody).
  assert (Hlen : length (performanceIndeces_ s') = S k).
  { rewrite Hl, length_app, Hlk. cbn. lia. }
  split; [reflexivity |]. split; [congruence |]. split; [exact Hl |].
  split; [exact Hlen |].
  unfold getIterationsLog.
  destruct (performanceIndeces_ s'); [discriminate Hlen | reflexivity].
Qed.
End QpFailure.

Lemma runImpl_qp_failure_witness :
  exists s',
    ZFailingRun = (s', Thrown "[MultipleShootingSolver] Failed to solve QP")
    /\ primalSolution_ s' = primalSolution_ ZFailingRunSolver
    /\ length (performanceIndeces_ s') = 2%nat
    /\ getIterationsLog s' = Returned (performanceIndeces_ s').
Proof.
  destruct (@runImpl_qp_failure
              Z_scalar (@holdTranscriber Z_scalar) (@twoNodeGrid Z_scalar)
              (@holdWarmstart Z_scalar) (@replayHpipm Z_scalar)
              5%nat (fun _ _ _ => 0%nat) ZFailingRunSolver 0%Z [3%Z] 1%Z []
              1%nat
              (@set_totalNumIterations_ Z_scalar (@replayHpipm Z_scalar) 1
                 (@set_hpipmInterface_ Z_scalar (@replayHpipm Z_scalar)
                    (@Build_Replay Z_scalar
                       [@Build_QpResult Z_scalar (NON_SUCCESS 1) [] []] [])
                    (@assembledSolver Z_scalar (@holdTranscriber Z_scalar)
                       (@twoNodeGrid Z_scalar) (@replayHpipm Z_scalar)
                       (@set_performanceIndeces_ Z_scalar (@replayHpipm Z_scalar)
                          [] ZFailingRunSolver)
                       (fun _ => 0%nat) ZGrid [3%Z] [[3%Z]; [3%Z]] [[0%Z]])))
              [[3%Z]; [2%Z]] [[0%Z]])
    as (s' & Hrun & Hprimal & _ & Hlen & Hlog).
  - cbn. lia.
  - vm_compute. reflexivity.
  - vm_compute. discriminate.
  - exists s'. split; [exact Hrun |]. split; [exact Hprimal |].
    split; [exact Hlen | exact Hlog].
Defined.

(** * Further properties of the solver *)

(** ** How the SQP loop ends *)

Section SqpLoopOutcome.
Context `{Scalar} `{!Transcriber} `{!TimeGrid} `{!Warmstart} `{!HpipmInterface}.

Lemma getOCPSolution_keeps_counter (s : MultipleShootingSolver)
      (delta_x0 : vector_t) :
  settings_ (fst (getOCPSolution s delta_x0)) = settings_ s
  /\ totalNumIterations_ (fst (getOCPSolution s delta_x0))
     = totalNumIterations_ s.
Proof.
  unfold getOCPSolution. destruct (solveQP s delta_x0) as [h qp].
  destruct (negb _); split; reflexivity.
Qed.

(** A pass that returns has counted one iteration; a pass that ends
    otherwise has not. *)
Lemma sqpIterationBody_counter (fuel : nat) (sched3 : nat -> nat -> nat)
      (s : MultipleShootingSolver) times initState x u :
  settings_ (fst (sqpIterationBody fuel sched3 s times initState x u))
  = settings_ s
  /\ match snd (sqpIterationBody fuel sched3 s times initState x u) with
     | Returned _ =>
         totalNumIterations_
           (fst (sqpIterationBody fuel sched3 s times initState x u))
         = S (totalNumIterations_ s)
     | _ =>
         totalNumIterations_
           (fst (sqpIterationBody fuel sched3 s times initState x u))
         = totalNumIterations_ s
     end.
Proof.
  rewrite sqpIterationBody_unfold.
  pose proof (getOCPSolution_keeps_counter
                (assembledSolver s (sched3 0%nat) times initState x u)
                (vsub initState (front x))) as [Hs Hc].
  destruct (getOCPSolution _ _) as [s3 [[deltaX deltaU] | what |]];
    cbn [fst snd] in Hs, Hc |- *.
  - destruct (takeStep _ _ _ _ _ _ _ _ _ _) as [[[converged x'] u'] |];
      cbn [fst snd set_totalNumIterations_ settings_ totalNumIterations_];
      (split; [exact Hs |]); first [exact Hc | f_equal; exact Hc].
  - split; [exact Hs | exact Hc].
  - split; [exact Hs | exact Hc].
Qed.

Lemma sqpStateFrom_counter (fuel : nat) scheds times initState (k : nat) :
  forall (iter : nat) s x u sk xk uk,
    sqpStateFrom fuel scheds times initState iter k (s, x, u)
    = Some (sk, xk, uk) ->
    settings_ sk = settings_ s
    /\ totalNumIterations_ sk = (totalNumIterations_ s + k)%nat.
Proof.
  induction k as [| k IH]; intros iter s x u sk xk uk Hst.
  - inversion Hst; subst. split; [reflexivity | lia].
  - cbn [sqpStateFrom] in Hst.
    pose proof (sqpIterationBody_counter fuel (scheds iter) s times initState
                                         x u) as [Hs Hc].
    destruct (sqpIterationBody fuel (scheds iter) s times initState x u)
      as [s' [[[converged x'] u'] | what |]]; try discriminate Hst.
    destruct converged; [discriminate Hst |].
    cbn [fst snd] in Hs, Hc. apply IH in Hst. destruct Hst as [Hs2 Hc2].
    split; [congruence | lia].
Qed.

(** A pass that reports convergence ends the loop with its trajectories. *)
Lemma sqpLoop_converges (fuel : nat) scheds times initState (k : nat) :
  forall (n iter : nat) s x u sk xk uk s' x' u',
    (k < n)%nat ->
    sqpStateFrom fuel scheds times initState iter k (s, x, u)
    = Some (sk, xk, uk) ->
    sqpIterationBody fuel (scheds (iter + k)%nat) sk times initState xk uk
    = (s', Returned (true, x', u')) ->
    sqpLoop n fuel scheds iter s times initState x u = (s', Returned (x', u')).
Proof.
  induction k as [| k IH]; intros n iter s x u sk xk uk s' x' u' Hn Hst Hbody.
  - inversion Hst; subst. destruct n as [| n]; [lia |].
    rewrite Nat.add_0_r in Hbody. cbn [sqpLoop]. rewrite Hbody. reflexivity.
  - destruct n as [| n]; [lia |]. cbn [sqpStateFrom] in Hst. cbn [sqpLoop].
    destruct (sqpIterationBody fuel (scheds iter) s times initState x u)
      as [s1 [[[converged x1] u1] | what1 |]]; try discriminate Hst.
    destruct converged; [discriminate Hst |].
    apply (IH n (S iter) s1 x1 u1 sk xk uk); [lia | exact Hst |].
    replace (S iter + k)%nat with (iter + S k)%nat by lia. exact Hbody.
Qed.

(** If no pass reports convergence, the loop ends with the iteration cap. *)
Lemma sqpLoop_exhausts (fuel : nat) scheds times initState (n : nat) :
  forall (iter : nat) s x u sn xn un,
    sqpStateFrom fuel scheds times initState iter n (s, x, u)
    = Some (sn, xn, un) ->
    sqpLoop n fuel scheds iter s times initState x u = (sn, Returned (xn, un)).
Proof.
  induction n as [| n IH]; intros iter s x u sn xn un Hst.
  - inversion Hst; subst. reflexivity.
  - cbn [sqpStateFrom] in Hst. cbn [sqpLoop].
    destruct (sqpIterationBody fuel (scheds iter) s times initState x u)
      as [s1 [[[converged x1] u1] | what1 |]]; try discriminate Hst.
    destruct converged; [discriminate Hst |].
    apply IH. exact Hst.
Qed.

(** The loop never touches the settings or the primal solution, makes at
    most [n] passes, appends one log entry per pass, and counts the passes
    that returned. *)
Lemma sqpLoop_bookkeeping (fuel : nat) scheds times initState (n : nat) :
  forall (iter : nat) (s : MultipleShootingSolver) x u,
    settings_ (fst (sqpLoop n fuel scheds iter s times initState x u))
    = settings_ s
    /\ primalSolution_ (fst (sqpLoop n fuel scheds iter s times initState x u))
       = primalSolution_ s
    /\ exists m,
        (m <= n)%nat
        /\ length (performanceIndeces_
                     (fst (sqpLoop n fuel scheds iter s times initState x u)))
           = (length (performanceIndeces_ s) + m)%nat
        /\ match snd (sqpLoop n fuel scheds iter s times initState x u) with
           | Returned _ =>
               totalNumIterations_
                 (fst (sqpLoop n fuel scheds iter s times initState x u))
               = (totalNumIterations_ s + m)%nat
           | _ =>
               S (totalNumIterations_
                    (fst (sqpLoop n fuel scheds iter s times initState x u)))
               = (totalNumIterations_ s + m)%nat
           end.
Proof.
  induction n as [| n IH]; intros iter s x u.
  - cbn. split; [reflexivity |]. split; [reflexivity |].
    exists 0%nat. repeat split; lia.
  - cbn [sqpLoop].
    pose proof (sqpIterationBody_counter fuel (scheds iter) s times initState
                                         x u) as [Hs Hc].
    pose proof (sqpIterationBody_frame fuel (scheds iter) s times initState
                                       x u) as [Hp Hl].
    destruct (sqpIterationBody fuel (scheds iter) s times initState x u)
      as [s1 [[[converged x1] u1] | what1 |]]; cbn [fst snd] in Hs, Hc, Hp, Hl.
    + destruct converged.
      * cbn [fst snd]. split; [exact Hs |]. split; [exact Hp |].
        exists 1%nat. rewrite Hl, length_app. cbn. repeat split; lia.
      * destruct (IH (S iter) s1 x1 u1) as (IHs & IHp & m & Hm & Hlen & Hcnt).
        split; [congruence |]. split; [congruence |].
        exists (S m). rewrite Hlen, Hl, length_app. cbn [length].
        split; [lia |]. split; [lia |].
        destruct (snd (sqpLoop n fuel scheds (S iter) s1 times initState x1 u1));
          lia.
    + cbn [fst snd]. split; [exact Hs |]. split; [exact Hp |].
      exists 1%nat. rewrite Hl, length_app. cbn. repeat split; lia.
    + cbn [fst snd]. split; [exact Hs |]. split; [exact Hp |].
      exists 1%nat. rewrite Hl, length_app. cbn. repeat split; lia.
Qed.

(** What [setPrimalSolution] leaves alone, and the states it stores. *)
Lemma setPrimalSolution_frame (s : MultipleShootingSolver)
      (times : list AnnotatedTime) (x u : vector_array_t) :
  settings_ (setPrimalSolution s times x u) = settings_ s
  /\ performanceIndeces_ (setPrimalSolution s times x u)
     = performanceIndeces_ s
  /\ totalNumIterations_ (setPrimalSolution s times x u)
     = totalNumIterations_ s
  /\ hpipmInterface_ (setPrimalSolution s times x u) = hpipmInterface_ s
  /\ stateTrajectory_ (primalSolution_ (setPrimalSolution s times x u)) = x
  /\ modeSchedule_ (primalSolution_ (setPrimalSolution s times x u))
     = modeSchedule s.
Proof.
  unfold setPrimalSolution.
  destruct (if useFeedbackPolicy (settings_ s) then _ else _)
    as [[uff controllerGain] projection].
  destruct (assembleTrajectories times (u ++ [back u]))
    as [timeTrajectory inputTrajectory].
  repeat split.
Qed.
End SqpLoopOutcome.

Section RunOutcome.
Context `{Scalar} `{!Transcriber} `{!TimeGrid} `{!Warmstart} `{!HpipmInterface}.

(** X1: if a run reaches its [k]-th pass ([k < sqpIteration]) and that
    pass reports convergence with the trajectories [(x', u')], the run
    returns at once: the primal solution is built from [(x', u')],
    [k + 1] iterations have been counted and the log holds [k + 1]
    entries. *)
Theorem runImpl_stops_at_convergence
        (fuel : nat) (scheds : nat -> nat -> nat -> nat)
        (s : MultipleShootingSolver) (initTime : scalar_t)
        (initState : vector_t) (finalTime : scalar_t)
        (partitioningTimes : scalar_array_t)
        (k : nat) (sk s' : MultipleShootingSolver)
        (xk uk x' u' : vector_array_t) :
  let times :=
    timeDiscretizationWithEvents initTime finalTime (dt (settings_ s))
                                 (eventTimes (modeSchedule s)) in
  let x0 := initializeStateTrajectory s initState times in
  let u0 := initializeInputTrajectory s times x0 in
  let run :=
    runImpl fuel scheds s initTime initState finalTime partitioningTimes in
  (k < Z.to_nat (sqpIteration (settings_ s)))%nat ->
  sqpStateFrom fuel scheds times initState 0 k
               (set_performanceIndeces_ [] s, x0, u0)
  = Some (sk, xk, uk) ->
  sqpIterationBody fuel (scheds k) sk times initState xk uk
  = (s', Returned (true, x', u')) ->
  run = (setPrimalSolution s' times x' u', Returned tt)
  /\ stateTrajectory_ (primalSolution_ (fst run)) = x'
  /\ totalNumIterations_ (fst run) = (totalNumIterations_ s + S k)%nat
  /\ length (performanceIndeces_ (fst run)) = S k.
Proof.
  intros times x0 u0 run Hk Hst Hbody. subst run. unfold runImpl.
  fold times. fold x0. fold u0.
  rewrite (sqpLoop_converges fuel scheds times initState k _ 0 _ _ _ sk xk uk
                             s' x' u' Hk Hst Hbody).
  cbn [fst].
  destruct (setPrimalSolution_frame s' times x' u')
    as (_ & Hlog & Hcnt & _ & Hx & _).
  destruct (sqpStateFrom_counter fuel scheds times initState k 0 _ _ _ _ _ _
                                 Hst) as [_ Hck].
  destruct (sqpStateFrom_frame fuel scheds times initState k 0 _ _ _ _ _ _ Hst)
    as [_ Hlk].
  pose proof (sqpIterationBody_counter fuel (scheds k) sk times initState xk uk)
    as [_ Hc].
  pose proof (sqpIterationBody_frame fuel (scheds k) sk times initState xk uk)
    as [_ Hl].
  rewrite Hbody in Hc, Hl. cbn [fst snd] in Hc, Hl. cbn in Hck, Hlk.
  split; [reflexivity |]. split; [exact Hx |]. split.
  - rewrite Hcnt, Hc, Hck. lia.
  - rewrite Hlog, Hl, length_app, Hlk. cbn. lia.
Qed.


(** X3: with an iteration cap of zero or less and the feedback policy
    switched off, a run solves no QP, leaves the back-end as it was and
    returns normally with the initial trajectories as its primal solution
    and a feedforward controller; nothing is counted, the log is empty,
    and [getIterationsLog] throws although the run succeeded.  (With the
    feedback policy on, [setPrimalSolution] would read the subproblem
    arrays, which such a run never fills.) *)
Theorem runImpl_without_iterations
        (fuel : nat) (scheds : nat -> nat -> nat -> nat)
        (s : MultipleShootingSolver) (initTime : scalar_t)
        (initState : vector_t) (finalTime : scalar_t)
        (partitioningTimes : scalar_array_t) :
  let times :=
    timeDiscretizationWithEvents initTime finalTime (dt (settings_ s))
                                 (eventTimes (modeSchedule s)) in
  let x0 := initializeStateTrajectory s initState times in
  let run :=
    runImpl fuel scheds s initTime initState finalTime partitioningTimes in
  (sqpIteration (settings_ s) <= 0)%Z ->
  useFeedbackPolicy (settings_ s) = false ->
  snd run = Returned tt
  /\ stateTrajectory_ (primalSolution_ (fst run)) = x0
  /\ controllerPtr_ (primalSolution_ (fst run))
     = Some (FeedforwardController
               (timeTrajectory_ (primalSolution_ (fst run)))
               (inputTrajectory_ (primalSolution_ (fst run))))
  /\ hpipmInterface_ (fst run) = hpipmInterface_ s
  /\ totalNumIterations_ (fst run) = totalNumIterations_ s
  /\ getIterationsLog (fst run)
     = Thrown "[MultipleShootingSolver]: No performance log yet, no problem solved yet?".
Proof.
  intros times x0 run Hcap Hff. subst run. unfold runImpl. fold times. fold x0.
  replace (Z.to_nat (sqpIteration (settings_ s))) with 0%nat by lia.
  cbn [sqpLoop fst snd].
  set (u0 := initializeInputTrajectory s times x0).
  destruct (setPrimalSolution_frame (set_performanceIndeces_ [] s) times x0 u0)
    as (_ & Hlog & Hcnt & Hh & Hx & _).
  split; [reflexivity |]. split; [exact Hx |]. split.
  { unfold setPrimalSolution.
    change (settings_ (set_performanceIndeces_ [] s)) with (settings_ s).
    rewrite Hff.
    destruct (assembleTrajectories times (u0 ++ [back u0])). reflexivity. }
  split; [exact Hh |]. split; [exact Hcnt |].
  unfold getIterationsLog. rewrite Hlog. reflexivity.
Qed.

(** X4: whatever the outcome of a run, the settings are untouched, the log
    is rebuilt from scratch and holds one entry per pass made, at most
    [sqpIteration] of them; a run that returns has counted as many
    iterations as the log has entries, and a run that does not return has
    counted one less and has left the primal solution as it was. *)
Theorem runImpl_bookkeeping
        (fuel : nat) (scheds : nat -> nat -> nat -> nat)
        (s : MultipleShootingSolver) (initTime : scalar_t)
        (initState : vector_t) (finalTime : scalar_t)
        (partitioningTimes : scalar_array_t) :
  let run :=
    runImpl fuel scheds s initTime initState finalTime partitioningTimes in
  settings_ (fst run) = settings_ s
  /\ (length (performanceIndeces_ (fst run))
      <= Z.to_nat (sqpIteration (settings_ s)))%nat
  /\ match snd run with
     | Returned _ =>
         totalNumIterations_ (fst run)
         = (totalNumIterations_ s + length (performanceIndeces_ (fst run)))%nat
     | _ =>
         S (totalNumIterations_ (fst run))
         = (totalNumIterations_ s + length (performanceIndeces_ (fst run)))%nat
         /\ primalSolution_ (fst run) = primalSolution_ s
     end.
Proof.
  intros run. subst run. unfold runImpl.
  set (times := timeDiscretizationWithEvents _ _ _ _).
  set (x0 := initializeStateTrajectory s initState times).
  set (u0 := initializeInputTrajectory s times x0).
  destruct (sqpLoop_bookkeeping fuel scheds times initState
                                (Z.to_nat (sqpIteration (settings_ s))) 0
                                (set_performanceIndeces_ [] s) x0 u0)
    as (Hs & Hp & m & Hm & Hlen & Hcnt).
  destruct (sqpLoop _ _ _ _ _ _ _ _ _) as [s' [[x' u'] | what |]];
    cbn [fst snd] in Hs, Hp, Hlen, Hcnt |- *; cbn in Hlen.
  - destruct (setPrimalSolution_frame s' times x' u')
      as (Hs' & Hlog & Hc & _).
    rewrite Hs', Hlog, Hc, Hlen. repeat split; [exact Hs | lia | exact Hcnt].
  - rewrite Hlen. repeat split; [exact Hs | lia | exact Hcnt | exact Hp].
  - rewrite Hlen. repeat split; [exact Hs | lia | exact Hcnt | exact Hp].
Qed.
End RunOutcome.

Lemma runImpl_stops_at_convergence_witness :
  snd floatRun = Returned tt
  /\ totalNumIterations_ (fst floatRun) = 2%nat
  /\ length (performanceIndeces_ (fst floatRun)) = 2%nat.
Proof.
  edestruct (@runImpl_stops_at_convergence
               float_scalar (@holdTranscriber float_scalar)
               (@twoNodeGrid float_scalar) (@holdWarmstart float_scalar)
               (@replayHpipm float_scalar)
               5%nat (fun _ _ _ => 0%nat) floatRunSolver 0%float [3%float]
               1%float [] 1%nat)
    as (Hrun & _ & Hcnt & Hlen).
  - cbn. lia.
  - lazy. reflexivity.
  - lazy. reflexivity.
  - split; [| split; [exact Hcnt | exact Hlen]].
    change floatRun with
      (@runImpl float_scalar (@holdTranscriber float_scalar)
         (@twoNodeGrid float_scalar) (@holdWarmstart float_scalar)
         (@replayHpipm float_scalar)
         5%nat (fun _ _ _ => 0%nat) floatRunSolver 0%float [3%float]
         1%float []).
    rewrite Hrun. reflexivity.
Defined.


Lemma runImpl_without_iterations_witness :
  snd (ZSteppingRun 0) = Returned tt
  /\ stateTrajectory_ (primalSolution_ (fst (ZSteppingRun 0)))
     = [[3%Z]; [3%Z]]
  /\ getIterationsLog (fst (ZSteppingRun 0))
     = Thrown "[MultipleShootingSolver]: No performance log yet, no problem solved yet?".
Proof.
  destruct (@runImpl_without_iterations
              Z_scalar (@holdTranscriber Z_scalar) (@twoNodeGrid Z_scalar)
              (@holdWarmstart Z_scalar) (@replayHpipm Z_scalar)
              5%nat (fun _ _ _ => 0%nat) (ZSteppingSolver 0) 0%Z [3%Z] 1%Z [])
    as (Hret & Hx & _ & _ & _ & Hlog).
  - cbn. lia.
  - reflexivity.
  - split; [exact Hret |]. split; [exact Hx | exact Hlog].
Defined.

(** ** The shape of the trajectories *)

Section TrajectoryShape.
Context `{Scalar} `{!Transcriber} `{!TimeGrid} `{!Warmstart} `{!HpipmInterface}.

Lemma takeStep_lengths (fuel : nat) (s : MultipleShootingSolver) scheds
      baseline times initState dx du x u converged x' u' :
  takeStep fuel s scheds baseline times initState dx du x u
  = Some (converged, x', u') ->
  length x' = length x /\ length u' = length u.
Proof.
  intros Hr. apply takeStep_returns in Hr.
  destruct Hr as (k & _ & _ & _ & Hr). unfold exitAt in Hr.
  destruct (acceptedAt s scheds baseline times initState dx du x u k);
    inversion Hr; subst; [| split; reflexivity].
  unfold xTrial, uTrial. rewrite !length_imap. split; reflexivity.
Qed.

Lemma sqpIterationBody_lengths (fuel : nat) sched3
      (s : MultipleShootingSolver) times initState x u s' converged x' u' :
  sqpIterationBody fuel sched3 s times initState x u
  = (s', Returned (converged, x', u')) ->
  length x' = length x /\ length u' = length u.
Proof.
  rewrite sqpIterationBody_unfold.
  destruct (getOCPSolution _ _) as [s3 [[deltaX deltaU] | what |]];
    try discriminate.
  destruct (takeStep _ _ _ _ _ _ _ _ _ _) as [[[c x1] u1] |] eqn:Hstep;
    [| discriminate].
  intros Heq. inversion Heq; subst.
  exact (takeStep_lengths _ _ _ _ _ _ _ _ _ _ _ _ _ Hstep).
Qed.

Lemma sqpLoop_lengths (fuel : nat) scheds times initState (n : nat) :
  forall (iter : nat) (s : MultipleShootingSolver) x u s' x' u',
    sqpLoop n fuel scheds iter s times initState x u = (s', Returned (x', u')) ->
    length x' = length x /\ length u' = length u.
Proof.
  induction n as [| n IH]; intros iter s x u s' x' u' Hloop.
  - inversion Hloop; subst. split; reflexivity.
  - cbn [sqpLoop] in Hloop.
    destruct (sqpIterationBody fuel (scheds iter) s times initState x u)
      as [s1 [[[converged x1] u1] | what1 |]] eqn:Hbody; try discriminate Hloop.
    destruct (sqpIterationBody_lengths _ _ _ _ _ _ _ _ _ _ _ Hbody) as [Hx Hu].
    destruct converged.
    + inversion Hloop; subst. split; assumption.
    + apply IH in Hloop. destruct Hloop as [Hx' Hu']. split; congruence.
Qed.

Lemma initializeStateTrajectory_length (s : MultipleShootingSolver)
      (initState : vector_t) (times : list AnnotatedTime) :
  (1 <= length times)%nat ->
  length (initializeStateTrajectory s initState times) = length times.
Proof.
  intros Hlen. unfold initializeStateTrajectory.
  destruct (totalNumIterations_ s =? 0)%nat.
  - apply length_replicate.
  - cbn [length]. rewrite length_fmap, length_seq. lia.
Qed.

Lemma initializeInputTrajectory_length (s : MultipleShootingSolver)
      (times : list AnnotatedTime) (x : vector_array_t) :
  length (initializeInputTrajectory s times x) = (length times - 1)%nat.
Proof.
  unfold initializeInputTrajectory. rewrite length_fmap, length_seq.
  reflexivity.
Qed.

Lemma timeTrajectory_of_grid (times : list AnnotatedTime) :
  (fun i => time (times !!! i)) <$> seq 0 (length times) = time <$> times.
Proof.
  apply list_eq. intros i. rewrite !list_lookup_fmap.
  destruct (times !! i) as [t |] eqn:Hi.
  - pose proof (lookup_lt_Some _ _ _ Hi) as Hlt.
    rewrite lookup_seq_lt by exact Hlt. cbn.
    rewrite (list_lookup_total_correct _ _ _ Hi). reflexivity.
  - apply lookup_ge_None in Hi. rewrite lookup_seq_ge by exact Hi. reflexivity.
Qed.

(** The values the assembly loop produces: the times of the grid, and the
    inputs it was given at every node that is not a PreEvent node. *)
Lemma assembleStep_fold_values (times : list AnnotatedTime) (n : nat) :
  forall (start : nat) (tt : scalar_array_t) (inputs : vector_array_t),
    fst (fold_left (assembleStep times) (seq start n) (tt, inputs))
    = tt ++ ((fun i => time (times !!! i)) <$> seq start n)
    /\ forall j, isPreEvent (times !!! j) = false \/ j = 0%nat ->
                 snd (fold_left (assembleStep times) (seq start n) (tt, inputs))
                 !! j = inputs !! j.
Proof.
  induction n as [| n IH]; intros start tt inputs; cbn [seq fold_left].
  - cbn. rewrite app_nil_r. split; reflexivity.
  - destruct (IH (S start) (fst (assembleStep times (tt, inputs) start))
                 (snd (assembleStep times (tt, inputs) start)))
      as [IHt IHi].
    rewrite <- surjective_pairing in IHt, IHi.
    split.
    + rewrite IHt. unfold assembleStep.
      destruct (isPreEvent (times !!! start) && (0 <? start)%nat);
        cbn [fst fmap list_fmap]; rewrite <- app_assoc; reflexivity.
    + intros j Hj. rewrite IHi by exact Hj. unfold assembleStep.
      destruct (isPreEvent (times !!! start) && (0 <? start)%nat) eqn:Hcond;
        cbn [snd]; [| reflexivity].
      apply andb_true_iff in Hcond. destruct Hcond as [Hpre Hpos].
      apply Nat.ltb_lt in Hpos.
      apply list_lookup_insert_ne. intros ->.
      destruct Hj as [Hno | Hzero]; [congruence | lia].
Qed.
End TrajectoryShape.

Section StoredSolution.
Context `{Scalar} `{!Transcriber} `{!TimeGrid} `{!Warmstart} `{!HpipmInterface}.

Lemma assembleTrajectories_spec (times : list AnnotatedTime)
      (inputs : vector_array_t) :
  fst (assembleTrajectories times inputs) = time <$> times
  /\ length (snd (assembleTrajectories times inputs)) = length inputs
  /\ (forall j, isPreEvent (times !!! j) = false \/ j = 0%nat ->
                snd (assembleTrajectories times inputs) !! j = inputs !! j)
  /\ (forall j, (0 < j)%nat -> (j < length times)%nat ->
                (j < length inputs)%nat ->
                isPreEvent (times !!! j) = true ->
                snd (assembleTrajectories times inputs) !! j
                = snd (assembleTrajectories times inputs) !! (j - 1)%nat).
Proof.
  unfold assembleTrajectories.
  destruct (assembleStep_fold_values times (length times) 0 [] inputs)
    as [Ht Hv].
  pose proof (assembleStep_fold times (length times) 0 [] inputs) as Hf.
  cbv zeta in Hf. destruct Hf as (_ & Hlen & _ & Hpre).
  split; [rewrite Ht; apply timeTrajectory_of_grid |].
  split; [exact Hlen |]. split; [exact Hv |].
  intros j Hpos Hj Hji Hp. apply Hpre; [lia | assumption ..].
Qed.

Lemma primalSolution_of_setPrimalSolution (s : MultipleShootingSolver)
      (times : list AnnotatedTime) (x u : vector_array_t) :
  timeTrajectory_ (primalSolution_ (setPrimalSolution s times x u))
  = fst (assembleTrajectories times (u ++ [back u]))
  /\ inputTrajectory_ (primalSolution_ (setPrimalSolution s times x u))
     = snd (assembleTrajectories times (u ++ [back u]))
  /\ (useFeedbackPolicy (settings_ s) = false ->
      controllerPtr_ (primalSolution_ (setPrimalSolution s times x u))
      = Some (FeedforwardController
                (fst (assembleTrajectories times (u ++ [back u])))
                (snd (assembleTrajectories times (u ++ [back u]))))).
Proof.
  unfold setPrimalSolution.
  destruct (useFeedbackPolicy (settings_ s)) eqn:Hfb.
  - destruct (computeFeedback s times x u) as [[uff controllerGain] projection].
    destruct (assembleTrajectories times (u ++ [back u])) as [tt inputs].
    repeat split. discriminate.
  - destruct (assembleTrajectories times (u ++ [back u])) as [tt inputs].
    repeat split.
Qed.

(** X5: the primal solution stored by [setPrimalSolution] holds the times
    of the grid, the states as given and the mode schedule of the solver;
    its input at a node that is not a PreEvent node (and at node 0) is the
    input given for the stage, and at the node after the last stage, if it
    is not a PreEvent node, the last input again; without the feedback
    policy its controller is the feedforward controller over exactly the
    stored times and inputs. *)
Theorem setPrimalSolution_stored_trajectories
        (s : MultipleShootingSolver) (times : list AnnotatedTime)
        (x u : vector_array_t) :
  (1 <= length u)%nat ->
  let p := primalSolution_ (setPrimalSolution s times x u) in
  timeTrajectory_ p = time <$> times
  /\ stateTrajectory_ p = x
  /\ modeSchedule_ p = modeSchedule s
  /\ (forall (i : nat) (u_i : vector_t),
         u !! i = Some u_i ->
         isPreEvent (times !!! i) = false \/ i = 0%nat ->
         inputTrajectory_ p !! i = Some u_i)
  /\ (isPreEvent (times !!! length u) = false ->
      inputTrajectory_ p !! length u = u !! (length u - 1)%nat)
  /\ (useFeedbackPolicy (settings_ s) = false ->
      controllerPtr_ p
      = Some (FeedforwardController (timeTrajectory_ p) (inputTrajectory_ p))).
Proof.
  intros Hu p. subst p.
  destruct (primalSolution_of_setPrimalSolution s times x u)
    as (Ht & Hi & Hc).
  destruct (setPrimalSolution_frame s times x u) as (_ & _ & _ & _ & Hx & Hm).
  destruct (assembleTrajectories_spec times (u ++ [back u]))
    as (Htime & _ & Hval & _).
  rewrite Ht, Hi. split; [exact Htime |]. split; [exact Hx |].
  split; [exact Hm |]. split; [| split].
  - intros i u_i Hui Hno. rewrite Hval by exact Hno.
    rewrite lookup_app_l by exact (lookup_lt_Some _ _ _ Hui). exact Hui.
  - intros Hno. rewrite Hval by (left; exact Hno).
    rewrite lookup_app_r by lia. rewrite Nat.sub_diag. cbn.
    symmetry. apply back_lookup. lia.
  - exact Hc.
Qed.

(** X6: a run that returns on a grid of at least two nodes stores a primal
    solution whose time trajectory is the grid's, whose state and input
    trajectories have one entry per node, and whose input at every PreEvent
    node [i > 0] is the input of node [i - 1]. *)
Theorem runImpl_solution_shape
        (fuel : nat) (scheds : nat -> nat -> nat -> nat)
        (s : MultipleShootingSolver) (initTime : scalar_t)
        (initState : vector_t) (finalTime : scalar_t)
        (partitioningTimes : scalar_array_t) :
  let times :=
    timeDiscretizationWithEvents initTime finalTime (dt (settings_ s))
                                 (eventTimes (modeSchedule s)) in
  let run :=
    runImpl fuel scheds s initTime initState finalTime partitioningTimes in
  (2 <= length times)%nat ->
  snd run = Returned tt ->
  timeTrajectory_ (primalSolution_ (fst run)) = time <$> times
  /\ length (stateTrajectory_ (primalSolution_ (fst run))) = length times
  /\ length (inputTrajectory_ (primalSolution_ (fst run))) = length times
  /\ forall (i : nat) (t_i : AnnotatedTime),
      (0 < i)%nat -> times !! i = Some t_i -> event t_i = PreEvent ->
      inputTrajectory_ (primalSolution_ (fst run)) !! i
      = inputTrajectory_ (primalSolution_ (fst run)) !! (i - 1)%nat.
Proof.
  intros times run Hlen Hret. subst run. unfold runImpl in Hret |- *.
  fold times in Hret |- *.
  set (x0 := initializeStateTrajectory s initState times) in *.
  set (u0 := initializeInputTrajectory s times x0) in *.
  destruct (sqpLoop _ _ _ _ _ _ _ _ _) as [s' [[x' u'] | what |]] eqn:Hloop;
    try discriminate Hret.
  destruct (sqpLoop_lengths _ _ _ _ _ _ _ _ _ _ _ _ Hloop) as [Hx Hu].
  assert (Hx0 : length x0 = length times)
    by (apply initializeStateTrajectory_length; lia).
  assert (Hu0 : length u0 = (length times - 1)%nat)
    by apply initializeInputTrajectory_length.
  cbn [fst].
  destruct (primalSolution_of_setPrimalSolution s' times x' u')
    as (Ht & Hi & _).
  destruct (setPrimalSolution_frame s' times x' u')
    as (_ & _ & _ & _ & Hxs & _).
  destruct (assembleTrajectories_spec times (u' ++ [back u']))
    as (Htime & Hilen & _ & Hpre).
  rewrite length_app in Hilen. cbn [length] in Hilen.
  rewrite Ht, Hi, Hxs. split; [exact Htime |]. split; [lia |].
  split; [lia |].
  intros i t_i Hpos Hti Hev.
  pose proof (lookup_lt_Some _ _ _ Hti) as Hlt.
  apply Hpre; [exact Hpos | exact Hlt | rewrite length_app; cbn; lia |].
  rewrite (list_lookup_total_correct _ _ _ Hti). unfold isPreEvent.
  rewrite Hev. reflexivity.
Qed.
End StoredSolution.

Lemma setPrimalSolution_stored_trajectories_witness :
  timeTrajectory_ (ZFeedbackSolution ZEventGrid) = [0%Z; 1%Z; 1%Z]
  /\ inputTrajectory_ (ZFeedbackSolution ZEventGrid) !! 0%nat
     = Some [5%Z; 1%Z]
  /\ inputTrajectory_ (ZFeedbackSolution ZEventGrid) !! 2%nat
     = Some [7%Z; 7%Z].
Proof.
  destruct (@setPrimalSolution_stored_trajectories
              Z_scalar (@replayHpipm Z_scalar)
              (ZProjectedSolver (ZSettingsOf true true) (ZAnswer SUCCESS))
              ZEventGrid [[0%Z]; [1%Z]; [2%Z]] [[5%Z; 1%Z]; [7%Z; 7%Z]])
    as (Ht & _ & _ & Hin & Hlast & _).
  - cbn. lia.
  - split; [exact Ht |]. split.
    + apply (Hin 0%nat); [reflexivity | right; reflexivity].
    + apply Hlast. reflexivity.
Defined.

Lemma runImpl_solution_shape_witness :
  timeTrajectory_ (primalSolution_ (fst floatRun)) = [0%float; 1%float]
  /\ length (stateTrajectory_ (primalSolution_ (fst floatRun))) = 2%nat
  /\ length (inputTrajectory_ (primalSolution_ (fst floatRun))) = 2%nat.
Proof.
  destruct (@runImpl_solution_shape
              float_scalar (@holdTranscriber float_scalar)
              (@twoNodeGrid float_scalar) (@holdWarmstart float_scalar)
              (@replayHpipm float_scalar)
              5%nat (fun _ _ _ => 0%nat) floatRunSolver 0%float [3%float]
              1%float [])
    as (Ht & Hx & Hu & _).
  - cbn. lia.
  - vm_compute. reflexivity.
  - split; [exact Ht |]. split; [exact Hx | exact Hu].
Defined.

(** ** Small steps *)

Section SmallSteps.
Context `{Scalar} `{!Transcriber} `{!TimeGrid} `{!Warmstart} `{!HpipmInterface}.

(** X7: if the full step is below [deltaTol] in both norms, [takeStep]
    makes a single trial and reports convergence whether or not that trial
    is accepted; [x] and [u] are the full-step candidate if it is accepted
    and unchanged if it is not. *)
Theorem takeStep_small_full_step
        (s : MultipleShootingSolver) (scheds : nat -> nat -> nat)
        (baseline : PerformanceIndex) (times : list AnnotatedTime)
        (initState : vector_t) (dx du x u : vector_array_t) (fuel : nat) :
  (sone * trajectoryNorm du < deltaTol (settings_ s))%sc ->
  (sone * trajectoryNorm dx < deltaTol (settings_ s))%sc ->
  takeStep (S fuel) s scheds baseline times initState dx du x u
  = Some (true,
          if acceptedAt s scheds baseline times initState dx du x u 0
          then xTrial dx x sone else x,
          if acceptedAt s scheds baseline times initState dx du x u 0
          then uTrial du u sone else u).
Proof.
  intros Hu Hx.
  assert (Hbelow : belowTolAt s dx du 0 = true).
  { unfold belowTolAt, stepSizeBelowTol. cbn [alphaAt].
    unfold slt in Hu, Hx. rewrite Hu, Hx. reflexivity. }
  rewrite (takeStep_exit s scheds baseline times initState dx du x u 0 (S fuel)).
  - unfold exitAt. rewrite Hbelow. cbn [alphaAt orb].
    destruct (acceptedAt s scheds baseline times initState dx du x u 0);
      reflexivity.
  - lia.
  - intros j Hj. lia.
  - unfold retryAt. rewrite Hbelow.
    destruct (acceptedAt s scheds baseline times initState dx du x u 0);
      reflexivity.
Qed.
End SmallSteps.

Lemma takeStep_small_full_step_witness :
  @takeStep Z_scalar (@holdTranscriber Z_scalar) (@twoNodeGrid Z_scalar)
    (@replayHpipm Z_scalar) 1
    (ZSolver ZSettings (ZAnswer SUCCESS)) (fun _ _ => 0%nat) ZBaseline ZGrid
    [3%Z] [[0%Z]; [0%Z]] [[0%Z]] [[3%Z]; [3%Z]] [[0%Z]]
  = Some (true, [[3%Z]; [3%Z]], [[0%Z]]).
Proof.
  rewrite (@takeStep_small_full_step
             Z_scalar (@holdTranscriber Z_scalar) (@twoNodeGrid Z_scalar)
             (@replayHpipm Z_scalar)
             (ZSolver ZSettings (ZAnswer SUCCESS)) (fun _ _ => 0%nat) ZBaseline
             ZGrid [3%Z] [[0%Z]; [0%Z]] [[0%Z]] [[3%Z]; [3%Z]] [[0%Z]] 0).
  - vm_compute. reflexivity.
  - reflexivity.
  - reflexivity.
Defined.

(** ** The assembled subproblem *)

Section SubproblemShape.
Context `{Scalar} `{!Transcriber} `{!TimeGrid} `{!HpipmInterface}.

(** X8: on a non-empty grid of [N + 1] nodes, [setupQuadraticSubproblem]
    leaves [N] dynamics, [N + 1] costs, [N + 1] constraints and [N]
    projections in the solver and touches nothing else; at every PreEvent
    stage the projection is the zero-row one, so that the re-mapping of the
    input steps in [getOCPSolution] passes the step of such a stage
    through. *)
Theorem setupQuadraticSubproblem_shape
        (s : MultipleShootingSolver) (sched : nat -> nat)
        (times : list AnnotatedTime) (initState : vector_t)
        (x u : vector_array_t) :
  (1 <= length times)%nat ->
  let N := (length times - 1)%nat in
  let s' := fst (setupQuadraticSubproblem s sched times initState x u) in
  length (dynamics_ s') = N
  /\ length (cost_ s') = length times
  /\ length (constraints_ s') = length times
  /\ length (constraintsProjection_ s') = N
  /\ (forall (i : nat) (t_i : AnnotatedTime),
         (i < N)%nat -> times !! i = Some t_i -> event t_i = PreEvent ->
         constraintsProjection_ s' !! i
         = Some VectorFunctionLinearApproximation_Zero0
         /\ forall deltaX deltaU : vector_array_t,
             remapDeltaU (constraintsProjection_ s') deltaX deltaU !! i
             = deltaU !! i)
  /\ settings_ s' = settings_ s
  /\ hpipmInterface_ s' = hpipmInterface_ s
  /\ primalSolution_ s' = primalSolution_ s
  /\ performanceIndeces_ s' = performanceIndeces_ s
  /\ totalNumIterations_ s' = totalNumIterations_ s.
Proof.
  intros Hlen N s'. subst s'. unfold setupQuadraticSubproblem. fold N.
  cbn [fst set_subproblem dynamics_ cost_ constraints_ constraintsProjection_
           settings_ hpipmInterface_ primalSolution_ performanceIndeces_
           totalNumIterations_].
  rewrite !length_fmap, !length_seq.
  split; [reflexivity |]. split; [lia |]. split; [lia |].
  split; [reflexivity |]. split; [| repeat split].
  intros i t_i Hi Hti Hev.
  assert (Hstage :
            ((fun i0 =>
                constraintsProjection
                  (setupStage
                     (projectStateInputEqualityConstraints (settings_ s))
                     times x u N (sched i0) i0)) <$> seq 0 N) !! i
            = Some VectorFunctionLinearApproximation_Zero0).
  { rewrite list_lookup_fmap, lookup_seq_lt by exact Hi. cbn.
    unfold setupStage. apply Nat.ltb_lt in Hi. rewrite Hi.
    rewrite (list_lookup_total_correct _ _ _ Hti). unfold isPreEvent.
    rewrite Hev. reflexivity. }
  split; [exact Hstage |].
  intros deltaX deltaU. unfold remapDeltaU.
  rewrite list_lookup_imap.
  destruct (deltaU !! i) as [deltaU_i |]; [| reflexivity].
  cbn [fmap option_fmap option_map]. cbv zeta.
  rewrite (list_lookup_total_correct _ _ _ Hstage). reflexivity.
Qed.
End SubproblemShape.

Lemma setupQuadraticSubproblem_shape_witness :
  length (dynamics_
            (fst (@setupQuadraticSubproblem
                    Z_scalar (@holdTranscriber Z_scalar) (@twoNodeGrid Z_scalar)
                    (@replayHpipm Z_scalar)
                    (ZSolver ZSettings (ZAnswer SUCCESS)) (fun _ => 0%nat)
                    ZEventGrid [0%Z] [[0%Z]; [1%Z]; [2%Z]]
                    [[5%Z; 1%Z]; [7%Z; 7%Z]])))
  = 2%nat
  /\ constraintsProjection_
       (fst (@setupQuadraticSubproblem
               Z_scalar (@holdTranscriber Z_scalar) (@twoNodeGrid Z_scalar)
               (@replayHpipm Z_scalar)
               (ZSolver ZSettings (ZAnswer SUCCESS)) (fun _ => 0%nat)
               ZEventGrid [0%Z] [[0%Z]; [1%Z]; [2%Z]]
               [[5%Z; 1%Z]; [7%Z; 7%Z]])) !! 1%nat
     = Some (@VectorFunctionLinearApproximation_Zero0 Z_scalar).
Proof.
  destruct (@setupQuadraticSubproblem_shape
              Z_scalar (@holdTranscriber Z_scalar) (@twoNodeGrid Z_scalar)
              (@replayHpipm Z_scalar)
              (ZSolver ZSettings (ZAnswer SUCCESS)) (fun _ => 0%nat)
              ZEventGrid [0%Z] [[0%Z]; [1%Z]; [2%Z]] [[5%Z; 1%Z]; [7%Z; 7%Z]])
    as (Hd & _ & _ & _ & Hev & _).
  - cbn. lia.
  - split; [exact Hd |].
    apply (Hev 1%nat (@Build_AnnotatedTime Z_scalar 1%Z PreEvent)).
    + cbn. lia.
    + reflexivity.
    + reflexivity.
Defined.

(** ** The parallel section adds up to the sequential sum *)

Section ParallelSum.
Context `{Scalar} `{!CommutativeAddition}.

Local Abbreviation padd := PerformanceIndex_add.
Local Abbreviation pzero := PerformanceIndex_zero.
Local Abbreviation sumOf l := (fold_left PerformanceIndex_add l PerformanceIndex_zero).

Lemma padd_assoc (a b c : PerformanceIndex) :
  padd (padd a b) c = padd a (padd b c).
Proof.
  destruct a, b, c. unfold PerformanceIndex_add. cbn.
  f_equal; apply sadd_assoc.
Qed.

Lemma padd_comm (a b : PerformanceIndex) : padd a b = padd b a.
Proof.
  destruct a, b. unfold PerformanceIndex_add. cbn. f_equal; apply sadd_comm.
Qed.

Lemma padd_zero_l (a : PerformanceIndex) : padd pzero a = a.
Proof.
  destruct a. unfold PerformanceIndex_add, PerformanceIndex_zero. cbn.
  f_equal; apply sadd_zero_l.
Qed.

Lemma fold_padd_shift (l : list PerformanceIndex) (a : PerformanceIndex) :
  fold_left padd l a = padd a (sumOf l).
Proof.
  revert a. induction l as [| b l IH]; intros a; cbn [fold_left].
  - rewrite padd_comm, padd_zero_l. reflexivity.
  - rewrite IH, (IH (padd pzero b)), padd_zero_l, padd_assoc. reflexivity.
Qed.

Lemma sumOf_cons (a : PerformanceIndex) (l : list PerformanceIndex) :
  sumOf (a :: l) = padd a (sumOf l).
Proof. cbn [fold_left]. rewrite fold_padd_shift, padd_zero_l. reflexivity. Qed.

Lemma worker_fold (t : nat -> PerformanceIndex) (l : list nat)
      (a : PerformanceIndex) :
  fold_left (fun acc i => padd acc (t i)) l a = fold_left padd (t <$> l) a.
Proof.
  revert a. induction l as [| i l IH]; intros a; [reflexivity |].
  cbn [fold_left fmap list_fmap]. apply IH.
Qed.

(** Adding [x] to the summand of exactly one worker adds [x] to the sum. *)
Lemma sumOf_add_at (w0 : nat) (x : PerformanceIndex)
      (g : nat -> PerformanceIndex) (W : list nat) :
  NoDup W ->
  sumOf ((fun w => if decide (w0 = w) then padd x (g w) else g w) <$> W)
  = if decide (w0 ∈ W) then padd x (sumOf (g <$> W)) else sumOf (g <$> W).
Proof.
  induction W as [| w W IH]; intros Hnd.
  - rewrite decide_False by apply not_elem_of_nil. reflexivity.
  - apply NoDup_cons in Hnd. destruct Hnd as [Hnotin Hnd].
    cbn [fmap list_fmap]. rewrite !sumOf_cons, (IH Hnd).
    destruct (decide (w0 = w)) as [Heq | Hne];
      destruct (decide (w0 ∈ W)) as [Hin | Hout];
      destruct (decide (w0 ∈ w :: W)) as [Hin' | Hout'].
    + subst. contradiction.
    + subst. contradiction.
    + apply padd_assoc.
    + exfalso. apply Hout'. subst. apply list_elem_of_here.
    + rewrite <- !padd_assoc, (padd_comm (g w) x). reflexivity.
    + exfalso. apply Hout'. apply list_elem_of_further. exact Hin.
    + exfalso. apply elem_of_cons in Hin'. destruct Hin'; contradiction.
    + reflexivity.
Qed.

Lemma sumOf_zeros (W : list nat) :
  sumOf ((fun _ => pzero) <$> W) = pzero.
Proof.
  induction W as [| w W IH]; [reflexivity |].
  cbn [fmap list_fmap]. rewrite sumOf_cons, IH. apply padd_zero_l.
Qed.

(** The sum over the workers of the sums over their stages is the sum over
    the stages. *)
Lemma sumOf_workers (sched : nat -> nat) (task : nat -> nat -> PerformanceIndex)
      (W : list nat) (L : list nat) :
  NoDup W -> (forall i, i ∈ L -> sched i ∈ W) ->
  sumOf ((fun w => sumOf (task w <$> filter (fun i => sched i = w) L)) <$> W)
  = sumOf ((fun i => task (sched i) i) <$> L).
Proof.
  intros Hnd. induction L as [| a L IH]; intros Hin.
  - apply sumOf_zeros.
  - cbn [fmap list_fmap]. rewrite sumOf_cons, <- IH
      by (intros i Hi; apply Hin, list_elem_of_further, Hi).
    rewrite <- (decide_True (A := PerformanceIndex)
                  (P := sched a ∈ W)
                  (padd (task (sched a) a) _)
                  (sumOf ((fun w => sumOf (task w <$> filter (fun i => sched i = w) L)) <$> W)))
      by (apply Hin, list_elem_of_here).
    rewrite <- (sumOf_add_at (sched a) (task (sched a) a)
                  (fun w => sumOf (task w <$> filter (fun i => sched i = w) L))
                  W Hnd).
    f_equal. apply list_fmap_ext. intros _ w _.
    rewrite filter_cons.
    destruct (decide (sched a = w)) as [<- | Hne]; [| reflexivity].
    cbn [fmap list_fmap]. apply sumOf_cons.
Qed.

Lemma add_stateEqConstraintISE_padd (d : scalar_t) (a b : PerformanceIndex) :
  padd (add_stateEqConstraintISE d a) b = add_stateEqConstraintISE d (padd a b).
Proof.
  destruct a, b. unfold PerformanceIndex_add, add_stateEqConstraintISE. cbn.
  f_equal. rewrite !sadd_assoc. f_equal. apply sadd_comm.
Qed.

(** The parallel section, the account for the initial state and the sum
    over the workers give the sequential performance of the stages. *)
Lemma parallel_sum (n : Z) (sched : nat -> nat) (m : nat)
      (task : nat -> nat -> PerformanceIndex) (initState : vector_t)
      (x : vector_array_t) :
  (1 <= n)%Z -> validSchedule n m sched ->
  sumPerformance (accountForInitState initState x
                                      (parallelAccumulate n sched m task))
  = sequentialPerformance initState x
                          ((fun i => task (sched i) i) <$> seq 0 m).
Proof.
  intros Hn Hvalid.
  assert (Hperf : parallelAccumulate n sched m task
                  = (fun w => sumOf (task w <$> filter (fun i => sched i = w)
                                                       (seq 0 m)))
                      <$> seq 0 (Z.to_nat n)).
  { unfold parallelAccumulate. apply list_fmap_ext. intros _ w _.
    rewrite padd_zero_l. apply worker_fold. }
  unfold sequentialPerformance. cbv zeta.
  rewrite <- (sumOf_workers sched task (seq 0 (Z.to_nat n)) (seq 0 m)).
  - rewrite <- Hperf.
    destruct (parallelAccumulate n sched m task) as [| p0 rest] eqn:Hp.
    { apply (f_equal length) in Hperf.
      rewrite length_fmap, length_seq in Hperf. cbn [length] in Hperf. lia. }
    unfold sumPerformance, accountForInitState. cbn [tail].
    set (d := squaredNorm (vsub initState (front x))).
    assert (Ht : fold_left padd rest
                           (front (add_stateEqConstraintISE d p0 :: rest))
                 = add_stateEqConstraintISE d (sumOf (p0 :: rest))).
    { unfold front. cbn [lookup_total list_lookup_total].
      rewrite fold_padd_shift, add_stateEqConstraintISE_padd, <- sumOf_cons.
      reflexivity. }
    rewrite Ht. reflexivity.
  - apply NoDup_seq.
  - intros i Hi. apply elem_of_seq in Hi. apply elem_of_seq.
    specialize (Hvalid i). lia.
Qed.
End ParallelSum.

Section ParallelEquivalence.
Context `{Scalar} `{!Transcriber} `{!TimeGrid} `{!HpipmInterface}.
Context `{!CommutativeAddition}.

(** X9: with an associative and commutative addition with zero, at least
    one worker and every stage run by a worker of the pool, the performance
    returned by [computePerformance] and by [setupQuadraticSubproblem] is
    the one obtained by adding the stages up in order in a single thread
    (each stage evaluated by the worker the schedule gives it to), adding
    the mismatch of the initial state and setting the merit. *)
Theorem performance_is_sequential_sum
        (s : MultipleShootingSolver) (sched : nat -> nat)
        (times : list AnnotatedTime) (initState : vector_t)
        (x u : vector_array_t) :
  let N := (length times - 1)%nat in
  (1 <= nThreads (settings_ s))%Z ->
  validSchedule (nThreads (settings_ s)) (N + 1) sched ->
  computePerformance s sched times initState x u
  = sequentialPerformance
      initState x
      ((fun i => performanceStage times x u N (sched i) i) <$> seq 0 (N + 1))
  /\ snd (setupQuadraticSubproblem s sched times initState x u)
     = sequentialPerformance
         initState x
         ((fun i =>
             performance
               (setupStage (projectStateInputEqualityConstraints (settings_ s))
                           times x u N (sched i) i))
            <$> seq 0 (N + 1)).
Proof.
  intros N Hn Hvalid. split.
  - unfold computePerformance. fold N.
    apply (parallel_sum _ sched (N + 1) (performanceStage times x u N));
      assumption.
  - unfold setupQuadraticSubproblem. fold N. cbn [snd].
    apply (parallel_sum
             _ sched (N + 1)
             (fun w i =>
                performance
                  (setupStage
                     (projectStateInputEqualityConstraints (settings_ s))
                     times x u N w i)));
      assumption.
Qed.

(** X10: under the same laws, if the providers of all workers evaluate
    alike, the performance computed by [computePerformance] depends neither
    on the number of workers nor on which worker ran which stage. *)
Theorem computePerformance_schedule_independent
        (s s' : MultipleShootingSolver) (sched sched' : nat -> nat)
        (times : list AnnotatedTime) (initState : vector_t)
        (x u : vector_array_t) :
  workersAgree ->
  (1 <= nThreads (settings_ s))%Z ->
  (1 <= nThreads (settings_ s'))%Z ->
  validSchedule (nThreads (settings_ s)) (length times - 1 + 1) sched ->
  validSchedule (nThreads (settings_ s')) (length times - 1 + 1) sched' ->
  computePerformance s sched times initState x u
  = computePerformance s' sched' times initState x u.
Proof.
  intros (Hint & Hev & Hterm) Hn Hn' Hvalid Hvalid'.
  unfold computePerformance.
  rewrite !parallel_sum by assumption.
  f_equal. apply list_fmap_ext. intros _ i _. unfold performanceStage.
  destruct (i <? length times - 1)%nat; [| apply Hterm].
  destruct (isPreEvent (times !!! i)); [apply Hev | apply Hint].
Qed.
End ParallelEquivalence.

Lemma performance_is_sequential_sum_witness :
  @computePerformance Z_scalar (@holdTranscriber Z_scalar)
    (@twoNodeGrid Z_scalar) (@replayHpipm Z_scalar)
    (ZPoolSolver 2) (fun i => i) ZGrid [3%Z] [[1%Z]; [2%Z]] [[0%Z]]
  = @Build_PerformanceIndex Z_scalar 5%Z 5%Z 5%Z 0%Z 0%Z 0%Z.
Proof.
  destruct (@performance_is_sequential_sum
              Z_scalar (@holdTranscriber Z_scalar) (@twoNodeGrid Z_scalar)
              (@replayHpipm Z_scalar) Z_CommutativeAddition
              (ZPoolSolver 2) (fun i => i) ZGrid [3%Z] [[1%Z]; [2%Z]]
              [[0%Z]])
    as [Heval _].
  - cbn. lia.
  - intros i Hi. cbn in Hi |- *. lia.
  - rewrite Heval. reflexivity.
Defined.

Lemma computePerformance_schedule_independent_witness :
  @computePerformance Z_scalar (@holdTranscriber Z_scalar)
    (@twoNodeGrid Z_scalar) (@replayHpipm Z_scalar)
    (ZPoolSolver 1) (fun _ => 0%nat) ZGrid [3%Z] [[1%Z]; [2%Z]] [[0%Z]]
  = @computePerformance Z_scalar (@holdTranscriber Z_scalar)
      (@twoNodeGrid Z_scalar) (@replayHpipm Z_scalar)
      (ZPoolSolver 4) (fun i => i) ZGrid [3%Z] [[1%Z]; [2%Z]] [[0%Z]].
Proof.
  apply (@computePerformance_schedule_independent
           Z_scalar (@holdTranscriber Z_scalar) (@twoNodeGrid Z_scalar)
           (@replayHpipm Z_scalar) Z_CommutativeAddition).
  - repeat split.
  - cbn. lia.
  - cbn. lia.
  - intros i Hi. cbn in Hi |- *. lia.
  - intros i Hi. cbn in Hi |- *. lia.
Defined.

(** ** A run after [reset] *)

Section ResetAndRun.
Context `{Scalar} `{!Transcriber} `{!TimeGrid} `{!Warmstart} `{!HpipmInterface}.

Lemma sqpIterationBody_ignores_arrays (fuel : nat) sched3
      (s : MultipleShootingSolver) d c g p times initState x u :
  sqpIterationBody fuel sched3 (set_subproblem d c g p s) times initState x u
  = sqpIterationBody fuel sched3 s times initState x u.
Proof. rewrite !sqpIterationBody_unfold. reflexivity. Qed.

(** A run that makes at least one pass overwrites the arrays of the
    subproblem before it reads them. *)
Lemma runImpl_ignores_arrays (fuel : nat) scheds
      (s : MultipleShootingSolver) d c g p initTime initState finalTime
      partitioningTimes :
  (1 <= sqpIteration (settings_ s))%Z ->
  runImpl fuel scheds (set_subproblem d c g p s) initTime initState finalTime
          partitioningTimes
  = runImpl fuel scheds s initTime initState finalTime partitioningTimes.
Proof.
  intros Hcap. unfold runImpl.
  change (settings_ (set_subproblem d c g p s)) with (settings_ s).
  change (modeSchedule (set_subproblem d c g p s)) with (modeSchedule s).
  destruct (Z.to_nat (sqpIteration (settings_ s))) as [| n] eqn:Hn; [lia |].
  cbn [sqpLoop].
  change (set_performanceIndeces_ [] (set_subproblem d c g p s))
    with (set_subproblem d c g p (set_performanceIndeces_ [] s)).
  rewrite sqpIterationBody_ignores_arrays. reflexivity.
Qed.

(** X11: after [reset], the log is empty ([getIterationsLog] throws) and a
    run of at least one iteration behaves as on any other solver that is
    configured alike and has been reset: nothing is carried over from
    earlier runs, neither the primal solution nor the iteration count nor
    the assembled subproblem. *)
Theorem runImpl_after_reset
        (fuel : nat) (scheds : nat -> nat -> nat -> nat)
        (s1 s2 : MultipleShootingSolver) (initTime : scalar_t)
        (initState : vector_t) (finalTime : scalar_t)
        (partitioningTimes : scalar_array_t) :
  sameConfiguration s1 s2 ->
  (1 <= sqpIteration (settings_ s1))%Z ->
  getIterationsLog (reset s1)
  = Thrown "[MultipleShootingSolver]: No performance log yet, no problem solved yet?"
  /\ runImpl fuel scheds (reset s1) initTime initState finalTime
             partitioningTimes
     = runImpl fuel scheds (reset s2) initTime initState finalTime
               partitioningTimes.
Proof.
  intros (Hs & Hh & Hc & Hm) Hcap. split; [reflexivity |].
  rewrite <- (runImpl_ignores_arrays fuel scheds (reset s1) [] [] [] [])
    by exact Hcap.
  rewrite <- (runImpl_ignores_arrays fuel scheds (reset s2) [] [] [] [])
    by (change (settings_ (reset s2)) with (settings_ s2);
        rewrite <- Hs; exact Hcap).
  f_equal. unfold reset, set_subproblem, set_totalNumIterations_,
    set_performanceIndeces_, set_primalSolution_. cbn.
  rewrite Hs, Hh, Hc, Hm. reflexivity.
Qed.
End ResetAndRun.

Lemma runImpl_after_reset_witness :
  @runImpl Z_scalar (@holdTranscriber Z_scalar) (@twoNodeGrid Z_scalar)
    (@holdWarmstart Z_scalar) (@replayHpipm Z_scalar)
    5 (fun _ _ _ => 0%nat)
    (@reset Z_scalar (@replayHpipm Z_scalar) (ZRefilled (fst ZFailingRun)))
    0%Z [3%Z] 1%Z []
  = @runImpl Z_scalar (@holdTranscriber Z_scalar) (@twoNodeGrid Z_scalar)
      (@holdWarmstart Z_scalar) (@replayHpipm Z_scalar)
      5 (fun _ _ _ => 0%nat)
      (@reset Z_scalar (@replayHpipm Z_scalar) ZFailingRunSolver)
      0%Z [3%Z] 1%Z [].
Proof.
  apply (@runImpl_after_reset
           Z_scalar (@holdTranscriber Z_scalar) (@twoNodeGrid Z_scalar)
           (@holdWarmstart Z_scalar) (@replayHpipm Z_scalar)).
  - repeat split.
  - vm_compute. discriminate.
Defined.

(** ** The log after a run *)

Section LogAfterRun.
Context `{Scalar} `{!Transcriber} `{!TimeGrid} `{!Warmstart} `{!HpipmInterface}.

Lemma sqpLoop_log (fuel : nat) scheds times initState (n : nat) :
  forall (iter : nat) (s : MultipleShootingSolver) x u,
  exists l,
    performanceIndeces_ (fst (sqpLoop n fuel scheds iter s times initState x u))
    = performanceIndeces_ s ++ l
    /\ (length l <= n)%nat
    /\ ((1 <= n)%nat -> (1 <= length l)%nat).
Proof.
  induction n as [| n IH]; intros iter s x u.
  - exists []. cbn. rewrite app_nil_r. repeat split; lia.
  - cbn [sqpLoop].
    pose proof (sqpIterationBody_frame fuel (scheds iter) s times initState
                                       x u) as [_ Hl].
    destruct (sqpIterationBody fuel (scheds iter) s times initState x u)
      as [s1 [[[converged x1] u1] | what1 |]]; cbn [fst] in Hl.
    + destruct converged.
      * eexists [_]. cbn [fst]. split; [exact Hl |]. cbn. split; lia.
      * destruct (IH (S iter) s1 x1 u1) as (l & Hlog & Hlen & _).
        eexists (_ :: l). rewrite Hlog, Hl, <- app_assoc. cbn.
        split; [reflexivity |]. split; lia.
    + eexists [_]. cbn [fst]. split; [exact Hl |]. cbn. split; lia.
    + eexists [_]. cbn [fst]. split; [exact Hl |]. cbn. split; lia.
Qed.

(** X12: after a run with an iteration cap of at least one, however the
    run ended (returned, thrown by the QP back-end, or cut off),
    [getIterationsLog] returns a log of at least one and at most
    [sqpIteration] entries, none of which stem from an earlier run. *)
Theorem getIterationsLog_after_run
        (fuel : nat) (scheds : nat -> nat -> nat -> nat)
        (s : MultipleShootingSolver) (initTime : scalar_t)
        (initState : vector_t) (finalTime : scalar_t)
        (partitioningTimes : scalar_array_t) :
  let run :=
    runImpl fuel scheds s initTime initState finalTime partitioningTimes in
  (1 <= sqpIteration (settings_ s))%Z ->
  getIterationsLog (fst run) = Returned (performanceIndeces_ (fst run))
  /\ (1 <= length (performanceIndeces_ (fst run)))%nat
  /\ (length (performanceIndeces_ (fst run))
      <= Z.to_nat (sqpIteration (settings_ s)))%nat.
Proof.
  intros run Hcap. subst run. unfold runImpl.
  set (times := timeDiscretizationWithEvents _ _ _ _).
  set (x0 := initializeStateTrajectory s initState times).
  set (u0 := initializeInputTrajectory s times x0).
  destruct (sqpLoop_log fuel scheds times initState
                        (Z.to_nat (sqpIteration (settings_ s))) 0
                        (set_performanceIndeces_ [] s) x0 u0)
    as (l & Hlog & Hmax & Hmin).
  cbn [set_performanceIndeces_ performanceIndeces_ app] in Hlog.
  assert (Hlen : (1 <= length l)%nat) by (apply Hmin; lia).
  assert (Hfinal :
            performanceIndeces_
              (fst
                 match sqpLoop (Z.to_nat (sqpIteration (settings_ s))) fuel
                               scheds 0 (set_performanceIndeces_ [] s) times
                               initState x0 u0 with
                 | (s', Returned (x', u')) =>
                     (setPrimalSolution s' times x' u', Returned tt)
                 | (s', Thrown what) => (s', Thrown what)
                 | (s', Diverged) => (s', Diverged)
                 end) = l).
  { destruct (sqpLoop _ _ _ _ _ _ _ _ _) as [s' [[x' u'] | what |]];
      cbn [fst] in Hlog |- *; [| exact Hlog | exact Hlog].
    destruct (setPrimalSolution_frame s' times x' u') as (_ & Hl & _).
    rewrite Hl. exact Hlog. }
  rewrite Hfinal. split; [| split; assumption].
  unfold getIterationsLog. rewrite Hfinal.
  destruct l; [cbn in Hlen; lia | reflexivity].
Qed.
End LogAfterRun.

Lemma getIterationsLog_after_run_witness :
  getIterationsLog (fst ZFailingRun)
  = Returned (performanceIndeces_ (fst ZFailingRun))
  /\ (1 <= length (performanceIndeces_ (fst ZFailingRun)))%nat.
Proof.
  destruct (@getIterationsLog_after_run
              Z_scalar (@holdTranscriber Z_scalar) (@twoNodeGrid Z_scalar)
              (@holdWarmstart Z_scalar) (@replayHpipm Z_scalar)
              5%nat (fun _ _ _ => 0%nat) ZFailingRunSolver 0%Z [3%Z] 1%Z [])
    as (Hlog & Hmin & _).
  - cbn. lia.
  - split; [exact Hlog | exact Hmin].
Defined.

(** ** The first inputs and the baseline *)

Section FirstCallAndBaseline.
Context `{Scalar} `{!Transcriber} `{!TimeGrid} `{!Warmstart} `{!HpipmInterface}.

(** X13: [initializeInputTrajectory] returns one input per interval of the
    grid.  Before any iteration has been counted, and provided no node has
    an interpolation time before the time of the first node, every input
    comes from the operating trajectories: the controller of the primal
    solution (null on a fresh solver) is never consulted, so the result
    does not depend on the primal solution held. *)
Theorem initializeInputTrajectory_first_call
        (s : MultipleShootingSolver) (timeDiscretization : list AnnotatedTime)
        (stateTrajectory : vector_array_t) (p : PrimalSolution) :
  totalNumIterations_ s = 0%nat ->
  (forall i t_i, timeDiscretization !! i = Some t_i ->
                 (time (front timeDiscretization)
                  <= getInterpolationTime t_i)%sc) ->
  length (initializeInputTrajectory s timeDiscretization stateTrajectory)
  = (length timeDiscretization - 1)%nat
  /\ initializeInputTrajectory (set_primalSolution_ p s) timeDiscretization
                               stateTrajectory
     = initializeInputTrajectory s timeDiscretization stateTrajectory
  /\ forall i t_i t_next,
      timeDiscretization !! i = Some t_i ->
      timeDiscretization !! (i + 1)%nat = Some t_next ->
      initializeInputTrajectory s timeDiscretization stateTrajectory !! i
      = Some (front (getSystemOperatingTrajectories
                       (stateTrajectory !!! i) (getInterpolationTime t_i)
                       (getIntervalEnd t_next))).
Proof.
  intros Hfirst Hafter.
  assert (Hop :
            forall s0 : MultipleShootingSolver,
              totalNumIterations_ s0 = 0%nat ->
              initializeInputTrajectory s0 timeDiscretization stateTrajectory
              = (fun i =>
                   front (getSystemOperatingTrajectories
                            (stateTrajectory !!! i)
                            (getInterpolationTime (timeDiscretization !!! i))
                            (getIntervalEnd
                               (timeDiscretization !!! (i + 1)%nat))))
                  <$> seq 0 (length timeDiscretization - 1)).
  { intros s0 Hs0. unfold initializeInputTrajectory. rewrite Hs0.
    cbn [Nat.ltb Nat.leb]. apply list_fmap_ext. intros j i Hi.
    apply lookup_seq in Hi. destruct Hi as [Hij Hj].
    assert (Hlt : (i < length timeDiscretization)%nat) by lia.
    pose proof (list_lookup_lookup_total_lt _ _ Hlt) as Hti.
    specialize (Hafter _ _ Hti). unfold sle in Hafter. rewrite Hafter.
    reflexivity. }
  split; [apply initializeInputTrajectory_length |]. split.
  - rewrite (Hop s Hfirst). apply Hop. exact Hfirst.
  - intros i t_i t_next Hti Hnext. rewrite (Hop s Hfirst).
    pose proof (lookup_lt_Some _ _ _ Hnext) as Hlt.
    rewrite list_lookup_fmap, lookup_seq_lt by lia. cbn.
    rewrite (list_lookup_total_correct _ _ _ Hti),
      (list_lookup_total_correct _ _ _ Hnext).
    reflexivity.
Qed.

Lemma parallelAccumulate_ext (n : Z) (sched : nat -> nat) (m : nat)
      (task task' : nat -> nat -> PerformanceIndex) :
  (forall w i, task w i = task' w i) ->
  parallelAccumulate n sched m task = parallelAccumulate n sched m task'.
Proof.
  intros Hext. unfold parallelAccumulate. apply list_fmap_ext. intros _ w _.
  f_equal. generalize PerformanceIndex_zero.
  induction (filter (fun i => sched i = w) (seq 0 m)) as [| i l IH];
    intros a; [reflexivity |].
  cbn [fold_left]. rewrite Hext. apply IH.
Qed.

(** X14: if the helpers that assemble a stage report the performance that
    the evaluating helpers compute, the performance returned by
    [setupQuadraticSubproblem] (the baseline of the line search) is the one
    [computePerformance] gives for the same trajectories and schedule, in
    any arithmetic. *)
Theorem baseline_is_performance_of_iterate
        (s : MultipleShootingSolver) (sched : nat -> nat)
        (times : list AnnotatedTime) (initState : vector_t)
        (x u : vector_array_t) :
  transcriberConsistent ->
  snd (setupQuadraticSubproblem s sched times initState x u)
  = computePerformance s sched times initState x u.
Proof.
  intros (Hint & Hev & Hterm).
  unfold setupQuadraticSubproblem, computePerformance. cbn [snd].
  f_equal. f_equal. apply parallelAccumulate_ext. intros w i.
  unfold setupStage, performanceStage.
  destruct (i <? length times - 1)%nat; [| apply Hterm].
  destruct (isPreEvent (times !!! i)); [apply Hev | apply Hint].
Qed.
End FirstCallAndBaseline.

Lemma initializeInputTrajectory_first_call_witness :
  @initializeInputTrajectory Z_scalar (@twoNodeGrid Z_scalar)
    (@holdWarmstart Z_scalar) (@replayHpipm Z_scalar)
    (ZSolver ZSettings (ZAnswer SUCCESS)) ZGrid3 [[3%Z]; [3%Z]; [3%Z]]
  !! 1%nat
  = Some [0%Z].
Proof.
  destruct (@initializeInputTrajectory_first_call
              Z_scalar (@twoNodeGrid Z_scalar) (@holdWarmstart Z_scalar)
              (@replayHpipm Z_scalar)
              (ZSolver ZSettings (ZAnswer SUCCESS)) ZGrid3
              [[3%Z]; [3%Z]; [3%Z]] (@PrimalSolution_default Z_scalar))
    as (_ & _ & Hop).
  - reflexivity.
  - intros i t_i Hi.
    destruct i as [| [| [| i]]]; inversion Hi; subst; reflexivity.
  - exact (Hop 1%nat (@Build_AnnotatedTime Z_scalar 1%Z Interior)
               (@Build_AnnotatedTime Z_scalar 2%Z Interior)
               eq_refl eq_refl).
Defined.

Lemma baseline_is_performance_of_iterate_witness :
  snd (@setupQuadraticSubproblem Z_scalar (@holdTranscriber Z_scalar)
         (@twoNodeGrid Z_scalar) (@replayHpipm Z_scalar)
         (ZSolver ZSettings (ZAnswer SUCCESS)) (fun _ => 0%nat)
         ZGrid [3%Z] [[1%Z]; [2%Z]] [[0%Z]])
  = @computePerformance Z_scalar (@holdTranscriber Z_scalar)
      (@twoNodeGrid Z_scalar) (@replayHpipm Z_scalar)
      (ZSolver ZSettings (ZAnswer SUCCESS)) (fun _ => 0%nat)
      ZGrid [3%Z] [[1%Z]; [2%Z]] [[0%Z]].
Proof.
  apply (@baseline_is_performance_of_iterate
           Z_scalar (@holdTranscriber Z_scalar) (@twoNodeGrid Z_scalar)
           (@replayHpipm Z_scalar)).
  repeat split.
Defined.
